(** * github-review-405: recovery of a stuck pending pull-request review

    A shallow embedding of [src/main.js] ([main], [saveComments],
    [timeoutNotify] and [run]) and of the [AppError] class, with the
    properties of the recovery workflow proved over it.

    Modelling conventions.
    - The awaited calls of the program (GitHub requests, file reads and
      writes, the countdown) are the only effects.  They are recorded, in
      order, in a trace of [Event]s; what the outside world answers is
      given by an [Env] of oracles, so every theorem quantified over [Env]
      speaks about every behaviour of the network and of the disk.
    - Exceptions are values of type [exn]; a computation is a function
      from the world (file system and trace) to a result or an exception
      and the new world.  [try_catch] is JavaScript's [try]/[catch].
    - GitHub ids are positive integers, so the truthiness tests the source
      makes on ids ([if (reviewId)], [!comment.new_id]) coincide with the
      id being present; ids are [positive] and optional ids [option
      positive].  Options that hold strings keep the truthiness test: the
      empty string is falsy.
    - [JSON.stringify] and [JSON.parse] are builtins of the language, not
      code of this repository: the workflow is parameterised over them, and
      the law [parse (stringify l) = Some (well_formed l)] is assumed only
      where the property needs it.  [Json] gives a concrete codec that satisfies it.
    - A file read succeeds when the file exists.  [JSON.parse] throws on a
      text that is not JSON; the program does not check the shape of what it
      returns otherwise, so a loaded value ([Loaded]) need not be a list of
      comments: an element on which the first lines of the loop throw is
      [None], and a value that cannot be iterated is [NotIterable].  A JSON
      string counts as the array of its characters; the text that
      [JSON.stringify] would write back for the empty string is not
      modelled.
    - A write that fails may have changed the file: [fs.promises.writeFile]
      truncates the file when it opens it, so what a failed write leaves is
      an answer of the outside world too ([tornWrite]).
    - [main] is in two parts: [main_from_argv] is the check of the command
      line (lines 66-94), [main] the workflow from line 117 on, on the
      configuration once resolved ([Options]); [run_from_argv] and [run]
      are their exit status.  The set-up of the HTTP client (lines 96-115)
      makes no call and is not modelled.  Console output is recorded only
      for [timeoutNotify] and for the report of a failure. *)

From stdpp Require Import gmap strings list fin_maps pretty.
From Stdlib Require Import ZArith Ascii.

(** ** Errors ([error.js]) *)

(** [AppError] carries a message and an optional underlying cause
    ([extra]); [Failure] stands for every other exception a collaborator
    may throw (network errors, file-system errors, [SyntaxError]). *)
#[warnings="-register-all"]
Inductive exn : Type :=
| AppError (message : string) (extra : option exn)
| Failure (message : string).

Definition message (e : exn) : string :=
  match e with
  | AppError m _ => m
  | Failure m => m
  end.

Definition extra (e : exn) : option exn :=
  match e with
  | AppError _ x => x
  | Failure _ => None
  end.

Definition is_AppError (e : exn) : bool :=
  match e with
  | AppError _ _ => true
  | Failure _ => false
  end.

(** ** Data model *)

Record User : Type := mkUser {
  user_id : positive;
  user_login : string
}.

Record Review : Type := mkReview {
  review_id : positive;
  review_user_id : positive;
  review_state : string
}.

Record Comment : Type := mkComment {
  comment_id : positive;
  commit_id : string;
  path : string;
  position : option N;
  body : string;
  new_id : option positive
}.

(** The assignment [comment.new_id = pResp.data.id]. *)
Definition set_new_id (c : Comment) (n : positive) : Comment :=
  {| comment_id := comment_id c;
     commit_id := commit_id c;
     path := path c;
     position := position c;
     body := body c;
     new_id := Some n |}.

(** The parameters of [github.pulls.createComment] that come from the
    comment ([owner], [repo] and [pull_number] are those of the run). *)
Record NewComment : Type := mkNewComment {
  nc_body : string;
  nc_commit_id : string;
  nc_path : string;
  nc_position : option N
}.

Definition request_of (c : Comment) : NewComment :=
  {| nc_body := body c;
     nc_commit_id := commit_id c;
     nc_path := path c;
     nc_position := position c |}.

(** What [JSON.parse] returns for the text of a file, as far as the
    program can tell: the elements of an array, [None] for an element that
    is no comment (on [null], [comment.new_id] throws; on anything without
    a string [commit_id], [comment.commit_id.slice] does), or a value that
    is no array ([comments.length] throws on [null], the iteration on a
    number or an object). *)
Inductive Loaded : Type :=
| NotIterable
| Items (items : list (option Comment)).

(** An array whose elements are all comments. *)
Definition well_formed (cs : list Comment) : Loaded := Items (Some <$> cs).

(** The comments that come before the first element that is none. *)
Fixpoint leading (items : list (option Comment)) : list Comment :=
  match items with
  | Some c :: items' => c :: leading items'
  | _ => []
  end.

Definition comments_in (v : Loaded) : list Comment :=
  match v with
  | Items items => leading items
  | NotIterable => []
  end.

(** The value is an array of comments. *)
Definition whole (v : Loaded) : bool :=
  match v with
  | Items items => forallb (fun item => bool_decide (is_Some item)) items
  | NotIterable => false
  end.

(** The resolved command line: [org/repo], the pull request number, and
    the [--save] and [--load] options ([None]: the key is not in
    [opt.options]). *)
Record Options : Type := mkOptions {
  org : string;
  repo : string;
  pr : Z;
  save : option string;
  load : option string
}.

(** Truthiness of an optional string option of the command line. *)
Definition truthy (o : option string) : bool :=
  match o with
  | Some s => negb (String.eqb s "")
  | None => false
  end.

(** The string an option holds ([undefined] is never used as a string). *)
Definition value_of (o : option string) : string :=
  match o with
  | Some s => s
  | None => ""
  end.

(** ** The snapshot format

    A codec for the snapshot file: the JSON text [JSON.stringify] gives for
    an array of comment objects with the fields of the data model, and a
    parser of that text.  Strings are escaped the way [JSON.stringify]
    escapes them (the quote, the backslash and the control characters). *)

Module Json.

Definition dquote : ascii := Eval cbv in ascii_of_nat 34.
Definition backslash : ascii := Eval cbv in ascii_of_nat 92.

Definition hex_digit (n : N) : ascii :=
  if (n <? 10)%N then ascii_of_N (48 + n) else ascii_of_N (87 + n).

Definition hex_value (c : ascii) : option N :=
  let n := N_of_ascii c in
  if (48 <=? n)%N && (n <=? 57)%N then Some (n - 48)%N
  else if (97 <=? n)%N && (n <=? 102)%N then Some (n - 87)%N
  else if (65 <=? n)%N && (n <=? 70)%N then Some (n - 55)%N
  else None.

Definition digit_value (c : ascii) : option N :=
  let n := N_of_ascii c in
  if (48 <=? n)%N && (n <=? 57)%N then Some (n - 48)%N else None.

(** *** Printing *)

Definition escape_char (c : ascii) (tail : string) : string :=
  let n := N_of_ascii c in
  if Ascii.eqb c dquote then String backslash (String dquote tail)
  else if Ascii.eqb c backslash then String backslash (String backslash tail)
  else if (n =? 8)%N then String backslash (String "b" tail)
  else if (n =? 9)%N then String backslash (String "t" tail)
  else if (n =? 10)%N then String backslash (String "n" tail)
  else if (n =? 12)%N then String backslash (String "f" tail)
  else if (n =? 13)%N then String backslash (String "r" tail)
  else if (n <? 32)%N then
    String backslash (String "u" (String "0" (String "0"
      (String (hex_digit (n / 16)) (String (hex_digit (n mod 16)) tail)))))
  else String c tail.

(** A string between quotes, followed by [tail]. *)
Fixpoint put_chars (s : string) (tail : string) : string :=
  match s with
  | EmptyString => String dquote tail
  | String c s' => escape_char c (put_chars s' tail)
  end.

Definition put_string (s : string) (tail : string) : string :=
  String dquote (put_chars s tail).

Definition put_key (name : string) (tail : string) : string :=
  String dquote (name +:+ String dquote (String ":" tail)).

Definition put_position (p : option N) (tail : string) : string :=
  match p with
  | Some n => pretty n +:+ tail
  | None => "null" +:+ tail
  end.

Definition put_new_id (n : option positive) (tail : string) : string :=
  match n with
  | Some p => String "," (put_key "new_id" (pretty p +:+ String "}" tail))
  | None => String "}" tail
  end.

Definition put_comment (c : Comment) (tail : string) : string :=
  String "{" (put_key "id" (pretty (comment_id c) +:+
  String "," (put_key "commit_id" (put_string (commit_id c) (
  String "," (put_key "path" (put_string (path c) (
  String "," (put_key "position" (put_position (position c) (
  String "," (put_key "body" (put_string (body c) (
  put_new_id (new_id c) tail)))))))))))))).

Fixpoint put_items (c : Comment) (cs : list Comment) : string :=
  match cs with
  | [] => put_comment c "]"
  | c' :: cs' => put_comment c (String "," (put_items c' cs'))
  end.

Definition stringify (cs : list Comment) : string :=
  match cs with
  | [] => "[]"
  | c :: cs' => String "[" (put_items c cs')
  end.

(** *** Parsing *)

Fixpoint expect (lit s : string) : option string :=
  match lit with
  | EmptyString => Some s
  | String c lit' =>
      match s with
      | String c' s' => if Ascii.eqb c c' then expect lit' s' else None
      | EmptyString => None
      end
  end.

Definition simple_escape (e : ascii) : option ascii :=
  if Ascii.eqb e dquote then Some dquote
  else if Ascii.eqb e backslash then Some backslash
  else if Ascii.eqb e "/" then Some "/"%char
  else if Ascii.eqb e "b" then Some (ascii_of_N 8)
  else if Ascii.eqb e "t" then Some (ascii_of_N 9)
  else if Ascii.eqb e "n" then Some (ascii_of_N 10)
  else if Ascii.eqb e "f" then Some (ascii_of_N 12)
  else if Ascii.eqb e "r" then Some (ascii_of_N 13)
  else None.

Definition hex4 (h1 h2 h3 h4 : ascii) : option ascii :=
  match hex_value h1, hex_value h2, hex_value h3, hex_value h4 with
  | Some a, Some b, Some c, Some d =>
      let n := (((a * 16 + b) * 16 + c) * 16 + d)%N in
      if (n <? 256)%N then Some (ascii_of_N n) else None
  | _, _, _, _ => None
  end.

Definition push (c : ascii) (r : option (string * string)) : option (string * string) :=
  match r with
  | Some (s, rest) => Some (String c s, rest)
  | None => None
  end.

(** The characters of a string up to its closing quote, and what follows
    the quote. *)
Fixpoint read_chars (s : string) : option (string * string) :=
  match s with
  | EmptyString => None
  | String c s1 =>
      if Ascii.eqb c dquote then Some (EmptyString, s1)
      else if Ascii.eqb c backslash then
        match s1 with
        | EmptyString => None
        | String e s2 =>
            match simple_escape e with
            | Some c' => push c' (read_chars s2)
            | None =>
                if Ascii.eqb e "u" then
                  match s2 with
                  | String h1 (String h2 (String h3 (String h4 s3))) =>
                      match hex4 h1 h2 h3 h4 with
                      | Some c' => push c' (read_chars s3)
                      | None => None
                      end
                  | _ => None
                  end
                else None
            end
        end
      else if (N_of_ascii c <? 32)%N then None
      else push c (read_chars s1)
  end.

Definition read_string (s : string) : option (string * string) :=
  match s with
  | String c s' => if Ascii.eqb c dquote then read_chars s' else None
  | EmptyString => None
  end.

Fixpoint read_digits (acc : option N) (s : string) : option N * string :=
  match s with
  | String c s' =>
      match digit_value c with
      | Some d => read_digits (Some (10 * default 0 acc + d)%N) s'
      | None => (acc, s)
      end
  | EmptyString => (acc, s)
  end.

Definition read_N (s : string) : option (N * string) :=
  match read_digits None s with
  | (Some n, rest) => Some (n, rest)
  | (None, _) => None
  end.

Definition read_positive (s : string) : option (positive * string) :=
  match read_N s with
  | Some (Npos p, rest) => Some (p, rest)
  | _ => None
  end.

Definition read_key (name : string) (s : string) : option string :=
  expect (String dquote (name +:+ String dquote ":")) s.

Definition read_position (s : string) : option (option N * string) :=
  match read_N s with
  | Some (n, rest) => Some (Some n, rest)
  | None =>
      match expect "null" s with
      | Some rest => Some (None, rest)
      | None => None
      end
  end.

Definition read_new_id (s : string) : option (option positive * string) :=
  match expect "}" s with
  | Some rest => Some (None, rest)
  | None =>
      s1 ← expect "," s;
      s2 ← read_key "new_id" s1;
      '(p, s3) ← read_positive s2;
      s4 ← expect "}" s3;
      Some (Some p, s4)
  end.

Definition read_comment (s : string) : option (Comment * string) :=
  s ← expect "{" s;
  s ← read_key "id" s;
  '(i, s) ← read_positive s;
  s ← expect "," s;
  s ← read_key "commit_id" s;
  '(commit, s) ← read_string s;
  s ← expect "," s;
  s ← read_key "path" s;
  '(file, s) ← read_string s;
  s ← expect "," s;
  s ← read_key "position" s;
  '(pos, s) ← read_position s;
  s ← expect "," s;
  s ← read_key "body" s;
  '(text, s) ← read_string s;
  '(n, s) ← read_new_id s;
  Some (mkComment i commit file pos text n, s).

Fixpoint read_items (fuel : nat) (s : string) : option (list Comment) :=
  match fuel with
  | O => None
  | S fuel' =>
      '(c, rest) ← read_comment s;
      match rest with
      | String sep rest' =>
          if Ascii.eqb sep "]" then
            match rest' with
            | EmptyString => Some [c]
            | _ => None
            end
          else if Ascii.eqb sep "," then
            cs ← read_items fuel' rest'; Some (c :: cs)
          else None
      | EmptyString => None
      end
  end.

Definition parse_array (s : string) : option (list Comment) :=
  match s with
  | String c s' =>
      if Ascii.eqb c "[" then
        match s' with
        | String c' EmptyString =>
            if Ascii.eqb c' "]" then Some [] else read_items (String.length s') s'
        | _ => read_items (String.length s') s'
        end
      else None
  | EmptyString => None
  end.

(** The texts the parser knows: [null] and the arrays of comments. *)
Definition parse (s : string) : option Loaded :=
  if String.eqb s "null" then Some NotIterable
  else well_formed <$> parse_array s.

(** What follows a number is not a digit. *)
Definition ends_number (s : string) : Prop :=
  match s with
  | String c _ => digit_value c = None
  | EmptyString => True
  end.

End Json.

(** ** Effects *)

Inductive Event : Type :=
| EvGetAuthenticated (r : exn + User)
| EvListReviews (page : exn + list Review)
| EvGetCommentsForReview (review : positive) (r : exn + list Comment)
| EvWriteFile (file : string) (data : string) (r : option exn)
| EvReadFile (file : string) (r : option string)
| EvTimeoutNotify (review : positive) (timeout : nat)
| EvDeletePendingReview (review : positive) (r : option exn)
| EvCreateComment (req : NewComment) (r : exn + positive).

(** What the collaborators answer.  A request that is made once in a run
    has one answer; the answers to [writeFile] and [createComment], which
    are called repeatedly, may depend on everything that happened before
    (the trace so far).  [None] from [writeFile] or [deletePendingReview]
    is success.  [tornWrite] says what a write that fails leaves behind:
    [None] when the file could not be opened and is as it was, [Some n] when
    it was opened, and so truncated, and [n] characters of the data got
    written. *)
Record Env : Type := mkEnv {
  getAuthenticated : exn + User;
  listReviews : list (exn + list Review);
  getCommentsForReview : positive -> exn + list Comment;
  writeFile : list Event -> string -> string -> option exn;
  tornWrite : list Event -> string -> string -> option nat;
  deletePendingReview : positive -> option exn;
  createComment : list Event -> NewComment -> exn + positive
}.

(** The files after a write of [data] to [file] that failed. *)
Definition after_failed_write (env : Env) (t : list Event) (file data : string)
    (files : gmap string string) : gmap string string :=
  match tornWrite env t file data with
  | Some n => <[file := String.substring 0 n data]> files
  | None => files
  end.

Record World : Type := mkWorld {
  fs : gmap string string;
  trace : list Event
}.

Definition start (files : gmap string string) : World :=
  {| fs := files; trace := [] |}.

Definition M (A : Type) : Type := World -> (exn + A) * World.

Definition ret {A} (a : A) : M A := fun w => (inr a, w).

Definition throw {A} (e : exn) : M A := fun w => (inl e, w).

Definition bind {A B} (m : M A) (k : A -> M B) : M B :=
  fun w =>
    match m w with
    | (inr a, w') => k a w'
    | (inl e, w') => (inl e, w')
    end.

Definition try_catch {A} (m : M A) (handler : exn -> M A) : M A :=
  fun w =>
    match m w with
    | (inr a, w') => (inr a, w')
    | (inl e, w') => handler e w'
    end.

Definition emit (ev : Event) : M unit :=
  fun w => (inr tt, {| fs := fs w; trace := trace w ++ [ev] |}).

Definition of_result {A} (r : exn + A) : M A :=
  match r with
  | inr a => ret a
  | inl e => throw e
  end.

Declare Scope io_scope.
Delimit Scope io_scope with io.
Notation "x <- m ;; k" := (bind m (fun x => k))
  (at level 100, m at next level, right associativity) : io_scope.
Notation "m ;;; k" := (bind m (fun _ => k))
  (at level 100, right associativity) : io_scope.
Local Open Scope io_scope.

Section Workflow.

Variable stringify : list Comment -> string.
Variable parse : string -> option Loaded.
Variable env : Env.

(** *** Collaborators *)

Definition users_getAuthenticated : M User :=
  let r := getAuthenticated env in
  emit (EvGetAuthenticated r) ;;; of_result r.

Definition pulls_getCommentsForReview (review : positive) : M (list Comment) :=
  let r := getCommentsForReview env review in
  emit (EvGetCommentsForReview review r) ;;; of_result r.

Definition pulls_deletePendingReview (review : positive) : M unit :=
  let r := deletePendingReview env review in
  emit (EvDeletePendingReview review r) ;;;
  match r with
  | None => ret tt
  | Some e => throw e
  end.

Definition pulls_createComment (req : NewComment) : M positive :=
  fun w =>
    let r := createComment env (trace w) req in
    (emit (EvCreateComment req r) ;;; of_result r) w.

(** [fs.promises.writeFile] (flag [w]): on failure the file holds what the
    write has left of it. *)
Definition fs_writeFile (file data : string) : M unit :=
  fun w =>
    match writeFile env (trace w) file data with
    | None =>
        (inr tt, {| fs := <[file := data]> (fs w);
                    trace := trace w ++ [EvWriteFile file data None] |})
    | Some e =>
        (inl e, {| fs := after_failed_write env (trace w) file data (fs w);
                   trace := trace w ++ [EvWriteFile file data (Some e)] |})
    end.

(** [fs.promises.readFile]: fails when there is no such file. *)
Definition fs_readFile (file : string) : M string :=
  fun w =>
    let r := fs w !! file in
    (emit (EvReadFile file r) ;;;
     match r with
     | Some data => ret data
     | None => throw (Failure "ENOENT")
     end) w.

Definition JSON_parse (data : string) : M Loaded :=
  match parse data with
  | Some v => ret v
  | None => throw (Failure "SyntaxError")
  end.

Definition timeoutNotify (review : positive) (timeout : nat) : M unit :=
  emit (EvTimeoutNotify review timeout).

(** *** [saveComments] *)

Definition saveComments (saveFile : string) (comments : list Comment) : M unit :=
  try_catch
    (fs_writeFile saveFile (stringify comments))
    (fun e => throw (AppError "Failed to save comments into a file" (Some e))).

(** *** The review locator (lines 128-149) *)

Definition is_pending_of (userId : positive) (review : Review) : bool :=
  Pos.eqb (review_user_id review) userId
  && String.eqb (review_state review) "PENDING".

(** The inner loop over one page; [reviewId] is the variable of the same
    name, [None] for [undefined]. *)
Fixpoint scan_page (userId : positive) (data : list Review)
    (reviewId : option positive) : exn + option positive :=
  match data with
  | [] => inr reviewId
  | review :: data' =>
      if is_pending_of userId review then
        match reviewId with
        | Some _ => inl (AppError "More than one pending review?" None)
        | None => scan_page userId data' (Some (review_id review))
        end
      else scan_page userId data' reviewId
  end.

(** The outer [for await] loop over the pages of the iterator. *)
Fixpoint scan_pages (userId : positive) (pages : list (exn + list Review))
    (reviewId : option positive) : M (option positive) :=
  match pages with
  | [] => ret reviewId
  | page :: pages' =>
      emit (EvListReviews page) ;;;
      response <- of_result page ;;
      reviewId' <- of_result (scan_page userId response reviewId) ;;
      scan_pages userId pages' reviewId'
  end.

(** *** The replay loop (lines 211-236) *)

(** One round.  The test of [comment.new_id] and the call of
    [comment.commit_id.slice] (lines 213-217) stand outside the [try]: on
    an element that is no comment they throw a [TypeError], which nothing
    in [main] catches. *)
Definition replay_one (item : option Comment) : M Comment :=
  match item with
  | None => throw (Failure "TypeError")
  | Some comment =>
      match new_id comment with
      | Some _ => ret comment
      | None =>
          try_catch
            (n <- pulls_createComment (request_of comment) ;;
             ret (set_new_id comment n))
            (fun _ => ret comment)
      end
  end.

Fixpoint replay (comments : list (option Comment)) : M (list Comment) :=
  match comments with
  | [] => ret []
  | comment :: rest =>
      comment' <- replay_one comment ;;
      rest' <- replay rest ;;
      ret (comment' :: rest')
  end.

(** Lines 211-212 on the value of [comments]. *)
Definition replay_loaded (comments : Loaded) : M (list Comment) :=
  match comments with
  | NotIterable => throw (Failure "TypeError")
  | Items items => replay items
  end.

(** *** [main], from line 117 *)

Definition derived_file (opt : Options) (suffix : string) : string :=
  org opt +:+ "_" +:+ repo opt +:+ "_" +:+ pretty (pr opt) +:+ "_"
    +:+ suffix +:+ ".json".

Definition save_file (opt : Options) (reviewId : option positive) : string :=
  if truthy (save opt) then value_of (save opt)
  else
    match reviewId with
    | Some r => derived_file opt (pretty r)
    | None =>
        if truthy (load opt) then value_of (load opt)
        else derived_file opt "sync"
    end.

Definition obtain_comments (opt : Options) (reviewId : option positive)
    (saveFile : string) : M Loaded :=
  match reviewId, load opt with
  | Some r, None =>
      comments <-
        try_catch (pulls_getCommentsForReview r)
          (fun e => throw (AppError
             ("Failed to fetch a list of comments for the review " +:+ pretty r)
             (Some e))) ;;
      saveComments saveFile comments ;;;
      ret (well_formed comments)
  | _, _ =>
      if truthy (load opt) then
        let file := value_of (load opt) in
        try_catch
          (r <- fs_readFile file ;; JSON_parse r)
          (fun _ => throw (AppError
             ("Failed to load comments from file '" +:+ file +:+ "'") None))
      else
        throw (AppError
          ("No pending review for PR " +:+ pretty (pr opt)
             +:+ " and no --load option specified") None)
  end.

Definition dismiss (reviewId : option positive) : M unit :=
  match reviewId with
  | Some r =>
      timeoutNotify r 10 ;;;
      try_catch (pulls_deletePendingReview r)
        (fun e => throw (AppError ("Failed to dismiss review " +:+ pretty r) (Some e)))
  | None => ret tt
  end.

Definition main (opt : Options) : M unit :=
  userId <-
    try_catch (auth <- users_getAuthenticated ;; ret (user_id auth))
      (fun e => throw (AppError "Failed to fetch user info" (Some e))) ;;
  reviewId <-
    try_catch (scan_pages userId (listReviews env) None)
      (fun e => throw (AppError
         ("Failed to fetch list of reviews for PR " +:+ pretty (pr opt)) (Some e))) ;;
  let saveFile := save_file opt reviewId in
  comments <- obtain_comments opt reviewId saveFile ;;
  dismiss reviewId ;;;
  comments' <- replay_loaded comments ;;
  saveComments saveFile comments'.

(** *** [run]: the exit status of the process

    [run] on a command line that has passed the checks of lines 66-94;
    [run_from_argv] below is [run] from the first line of [main]. *)

Definition run (opt : Options) (w : World) : Z * World :=
  match main opt w with
  | (inr _, w') => (0%Z, w')
  | (inl _, w') => (1%Z, w')
  end.

End Workflow.

Arguments main stringify parse env opt w : rename.

(** ** The review locator as a function of the listing *)

Definition too_many : exn := AppError "More than one pending review?" None.

(** The id found among the matching reviews [ms], given the id found so
    far. *)
Definition pick (reviewId : option positive) (ms : list Review) : exn + option positive :=
  match reviewId, ms with
  | r, [] => inr r
  | None, [x] => inr (Some (review_id x))
  | _, _ => inl too_many
  end.

(** The value of the review locator and the pages it asks for. *)
Fixpoint locate (userId : positive) (pages : list (exn + list Review))
    (reviewId : option positive) : exn + option positive :=
  match pages with
  | [] => inr reviewId
  | inl e :: _ => inl e
  | inr data :: pages' =>
      match scan_page userId data reviewId with
      | inl e => inl e
      | inr r => locate userId pages' r
      end
  end.

Fixpoint requested (userId : positive) (pages : list (exn + list Review))
    (reviewId : option positive) : list (exn + list Review) :=
  match pages with
  | [] => []
  | inl e :: _ => [inl e]
  | inr data :: pages' =>
      inr data ::
      match scan_page userId data reviewId with
      | inl _ => []
      | inr r => requested userId pages' r
      end
  end.

(** The reviews of the caller in state PENDING among the listed ones. *)
Definition pending_of (userId : positive) (datas : list (list Review)) : list Review :=
  List.filter (is_pending_of userId) (concat datas).

(** ** The replay loop as a relation

    [replayed env t cs cs' evs]: started after the trace [t], the loop over
    [cs] leaves the list [cs'] and makes the requests [evs]. *)

Inductive replayed (env : Env) :
  list Event -> list Comment -> list Comment -> list Event -> Prop :=
| replayed_nil t :
    replayed env t [] [] []
| replayed_skip t c n cs cs' evs :
    new_id c = Some n ->
    replayed env t cs cs' evs ->
    replayed env t (c :: cs) (c :: cs') evs
| replayed_posted t c n cs cs' evs :
    new_id c = None ->
    createComment env t (request_of c) = inr n ->
    replayed env (t ++ [EvCreateComment (request_of c) (inr n)]) cs cs' evs ->
    replayed env t (c :: cs) (set_new_id c n :: cs')
      (EvCreateComment (request_of c) (inr n) :: evs)
| replayed_failed t c e cs cs' evs :
    new_id c = None ->
    createComment env t (request_of c) = inl e ->
    replayed env (t ++ [EvCreateComment (request_of c) (inl e)]) cs cs' evs ->
    replayed env t (c :: cs) (c :: cs')
      (EvCreateComment (request_of c) (inl e) :: evs).

(** ** The outcomes of a run

    Each phase of [main] is described by the answers of the collaborators
    that lead to it, its result, the files it leaves and the events it
    adds; [outcome] puts the phases together and [main_outcome] shows that
    [main] has no other behaviour. *)

Section Outcomes.

Variable stringify : list Comment -> string.
Variable parse : string -> option Loaded.
Variable env : Env.
Variable opt : Options.
Variable files : gmap string string.

(** Lines 164-191: where the comments come from. *)
Inductive obtained (reviewId : option positive) (files : gmap string string)
    (t : list Event) :
    exn + Loaded -> gmap string string -> list Event -> Prop :=
| obtained_fetch_failed r e :
    reviewId = Some r -> load opt = None ->
    getCommentsForReview env r = inl e ->
    obtained reviewId files t
      (inl (AppError
         ("Failed to fetch a list of comments for the review " +:+ pretty r)
         (Some e)))
      files
      [EvGetCommentsForReview r (inl e)]
| obtained_save_failed r cs e :
    reviewId = Some r -> load opt = None ->
    getCommentsForReview env r = inr cs ->
    writeFile env (t ++ [EvGetCommentsForReview r (inr cs)])
      (save_file opt reviewId) (stringify cs) = Some e ->
    obtained reviewId files t
      (inl (AppError "Failed to save comments into a file" (Some e)))
      (after_failed_write env (t ++ [EvGetCommentsForReview r (inr cs)])
         (save_file opt reviewId) (stringify cs) files)
      [EvGetCommentsForReview r (inr cs);
       EvWriteFile (save_file opt reviewId) (stringify cs) (Some e)]
| obtained_saved r cs :
    reviewId = Some r -> load opt = None ->
    getCommentsForReview env r = inr cs ->
    writeFile env (t ++ [EvGetCommentsForReview r (inr cs)])
      (save_file opt reviewId) (stringify cs) = None ->
    obtained reviewId files t
      (inr (well_formed cs))
      (<[save_file opt reviewId := stringify cs]> files)
      [EvGetCommentsForReview r (inr cs);
       EvWriteFile (save_file opt reviewId) (stringify cs) None]
| obtained_unreadable file :
    load opt = Some file -> file <> "" ->
    files !! file = None ->
    obtained reviewId files t
      (inl (AppError ("Failed to load comments from file '" +:+ file +:+ "'") None))
      files
      [EvReadFile file None]
| obtained_unparsable file data :
    load opt = Some file -> file <> "" ->
    files !! file = Some data -> parse data = None ->
    obtained reviewId files t
      (inl (AppError ("Failed to load comments from file '" +:+ file +:+ "'") None))
      files
      [EvReadFile file (Some data)]
| obtained_loaded file data v :
    load opt = Some file -> file <> "" ->
    files !! file = Some data -> parse data = Some v ->
    obtained reviewId files t (inr v) files [EvReadFile file (Some data)]
| obtained_nothing :
    reviewId = None \/ load opt = Some "" ->
    truthy (load opt) = false ->
    obtained reviewId files t
      (inl (AppError
         ("No pending review for PR " +:+ pretty (pr opt)
            +:+ " and no --load option specified") None))
      files
      [].

(** The events of the identity lookup and of the review listing. *)
Definition listing (u : User) : list Event :=
  EvGetAuthenticated (inr u)
    :: map EvListReviews (requested (user_id u) (listReviews env) None).

(** The events of the dismantling of the review that was found. *)
Definition dismissal (reviewId : option positive) : list Event :=
  match reviewId with
  | Some r => [EvTimeoutNotify r 10; EvDeletePendingReview r None]
  | None => []
  end.

Inductive outcome : exn + unit -> World -> Prop :=
| outcome_no_user e :
    getAuthenticated env = inl e ->
    outcome
      (inl (AppError "Failed to fetch user info" (Some e)))
      {| fs := files; trace := [EvGetAuthenticated (inl e)] |}
| outcome_no_listing u e :
    getAuthenticated env = inr u ->
    locate (user_id u) (listReviews env) None = inl e ->
    outcome
      (inl (AppError
         ("Failed to fetch list of reviews for PR " +:+ pretty (pr opt)) (Some e)))
      {| fs := files; trace := listing u |}
| outcome_no_comments u reviewId e files' evs :
    getAuthenticated env = inr u ->
    locate (user_id u) (listReviews env) None = inr reviewId ->
    obtained reviewId files (listing u) (inl e) files' evs ->
    outcome (inl e) {| fs := files'; trace := listing u ++ evs |}
| outcome_not_dismissed u r v files' evs e :
    getAuthenticated env = inr u ->
    locate (user_id u) (listReviews env) None = inr (Some r) ->
    obtained (Some r) files (listing u) (inr v) files' evs ->
    deletePendingReview env r = Some e ->
    outcome
      (inl (AppError ("Failed to dismiss review " +:+ pretty r) (Some e)))
      {| fs := files';
         trace := listing u ++ evs
                    ++ [EvTimeoutNotify r 10; EvDeletePendingReview r (Some e)] |}
| outcome_not_saved u reviewId cs files' evs cs' posts e :
    getAuthenticated env = inr u ->
    locate (user_id u) (listReviews env) None = inr reviewId ->
    obtained reviewId files (listing u) (inr (well_formed cs)) files' evs ->
    (forall r, reviewId = Some r -> deletePendingReview env r = None) ->
    replayed env (listing u ++ evs ++ dismissal reviewId) cs cs' posts ->
    writeFile env (listing u ++ evs ++ dismissal reviewId ++ posts)
      (save_file opt reviewId) (stringify cs') = Some e ->
    outcome
      (inl (AppError "Failed to save comments into a file" (Some e)))
      {| fs := after_failed_write env
                 (listing u ++ evs ++ dismissal reviewId ++ posts)
                 (save_file opt reviewId) (stringify cs') files';
         trace := listing u ++ evs ++ dismissal reviewId ++ posts
                    ++ [EvWriteFile (save_file opt reviewId) (stringify cs') (Some e)] |}
| outcome_done u reviewId cs files' evs cs' posts :
    getAuthenticated env = inr u ->
    locate (user_id u) (listReviews env) None = inr reviewId ->
    obtained reviewId files (listing u) (inr (well_formed cs)) files' evs ->
    (forall r, reviewId = Some r -> deletePendingReview env r = None) ->
    replayed env (listing u ++ evs ++ dismissal reviewId) cs cs' posts ->
    writeFile env (listing u ++ evs ++ dismissal reviewId ++ posts)
      (save_file opt reviewId) (stringify cs') = None ->
    outcome
      (inr tt)
      {| fs := <[save_file opt reviewId := stringify cs']> files';
         trace := listing u ++ evs ++ dismissal reviewId ++ posts
                    ++ [EvWriteFile (save_file opt reviewId) (stringify cs') None] |}
| outcome_no_comment u reviewId v files' evs cs' posts :
    getAuthenticated env = inr u ->
    locate (user_id u) (listReviews env) None = inr reviewId ->
    obtained reviewId files (listing u) (inr v) files' evs ->
    whole v = false ->
    (forall r, reviewId = Some r -> deletePendingReview env r = None) ->
    replayed env (listing u ++ evs ++ dismissal reviewId) (comments_in v) cs' posts ->
    outcome
      (inl (Failure "TypeError"))
      {| fs := files';
         trace := listing u ++ evs ++ dismissal reviewId ++ posts |}.

End Outcomes.

(** ** Observations on traces *)

Definition is_delete (ev : Event) : bool :=
  match ev with EvDeletePendingReview _ _ => true | _ => false end.

Definition is_create (ev : Event) : bool :=
  match ev with EvCreateComment _ _ => true | _ => false end.

Definition is_write (ev : Event) : bool :=
  match ev with EvWriteFile _ _ _ => true | _ => false end.

Definition is_fetch (ev : Event) : bool :=
  match ev with EvGetCommentsForReview _ _ => true | _ => false end.

(** Requests that change something on GitHub. *)
Definition is_mutation (ev : Event) : bool := is_delete ev || is_create ev.

(** The create-comment requests of a trace, in order, and those among
    them that failed. *)
Fixpoint posts (tr : list Event) : list NewComment :=
  match tr with
  | [] => []
  | EvCreateComment req _ :: tr' => req :: posts tr'
  | _ :: tr' => posts tr'
  end.

Fixpoint failed_posts (tr : list Event) : list NewComment :=
  match tr with
  | [] => []
  | EvCreateComment req (inl _) :: tr' => req :: failed_posts tr'
  | _ :: tr' => failed_posts tr'
  end.

(** The pages of the review listing that were requested. *)
Fixpoint pages_of (tr : list Event) : list (exn + list Review) :=
  match tr with
  | [] => []
  | EvListReviews page :: tr' => page :: pages_of tr'
  | _ :: tr' => pages_of tr'
  end.

(** The comments that have not been replayed yet. *)
Definition unposted (cs : list Comment) : list Comment :=
  List.filter (fun c => bool_decide (new_id c = None)) cs.

(** [c'] is [c] up to [new_id], and a [new_id] once set stays. *)
Definition same_but_new_id (c c' : Comment) : Prop :=
  comment_id c' = comment_id c /\ commit_id c' = commit_id c /\
  path c' = path c /\ position c' = position c /\ body c' = body c /\
  (forall n, new_id c = Some n -> new_id c' = Some n).

Definition is_failed_write (ev : Event) : bool :=
  match ev with EvWriteFile _ _ (Some _) => true | _ => false end.

Definition is_failed_delete (ev : Event) : bool :=
  match ev with EvDeletePendingReview _ (Some _) => true | _ => false end.

(** Where the comments of a run come from: fetched for the review that
    was found (no [--load]), or read from the file given to [--load]. *)
Definition comments_from (parse : string -> option Loaded)
    (env : Env) (opt : Options) (files : gmap string string)
    (reviewId : option positive) (cs : list Comment) : Prop :=
  (exists r, reviewId = Some r /\ load opt = None
             /\ getCommentsForReview env r = inr cs)
  \/ (exists file data, load opt = Some file /\ file <> ""
             /\ files !! file = Some data
             /\ parse data = Some (well_formed cs)).

(** The files after the events [evs] that follow the trace [t]: only the
    writes change them. *)
Fixpoint files_after (env : Env) (t evs : list Event)
    (files : gmap string string) : gmap string string :=
  match evs with
  | [] => files
  | ev :: evs' =>
      files_after env (t ++ [ev]) evs'
        match ev with
        | EvWriteFile file data None => <[file := data]> files
        | EvWriteFile file data (Some _) =>
            after_failed_write env t file data files
        | _ => files
        end
  end.

(** Every create-comment request of the trace is at once followed by a
    write of the snapshot. *)
Fixpoint saved_after_each_attempt (tr : list Event) : bool :=
  match tr with
  | [] => true
  | ev :: tr' =>
      (if is_create ev
       then match tr' with EvWriteFile _ _ _ :: _ => true | _ => false end
       else true)
      && saved_after_each_attempt tr'
  end.

(** The trace shows no identity lookup, no listing of the reviews and no
    deletion of a review. *)
Definition skips_steps_1_2_4 (tr : list Event) : bool :=
  forallb
    (fun ev =>
       match ev with
       | EvGetAuthenticated _ | EvListReviews _ | EvDeletePendingReview _ _ => false
       | _ => true
       end) tr.

(** ** A pull request with a stuck review

    Pull request 1234 of [org/repo]; the caller has one PENDING review, 555,
    with the comments 10 and 11. *)

Module Scenario.

Definition me : User := mkUser 42 "avtolstoy".

Definition approved : Review := mkReview 554 7 "APPROVED".
Definition review555 : Review := mkReview 555 42 "PENDING".
Definition review556 : Review := mkReview 556 42 "PENDING".

Definition c10 : Comment :=
  mkComment 10 "f00dfacecafe0123" "src/main.js" (Some 3%N) "Rename this." None.
Definition c11 : Comment :=
  mkComment 11 "f00dfacecafe0123" "README.md" None "Typo: \o/" None.

Definition snapshot : string := "org_repo_1234_555.json".

Definition opts : Options := mkOptions "org" "repo" 1234 None None.
Definition opts_load : Options := mkOptions "org" "repo" 1234 None (Some snapshot).

(** The id GitHub gives to a new comment. *)
Definition fresh (t : list Event) : positive := Pos.of_nat (1000 + length t).

(** Everything works. *)
Definition github : Env :=
  {| getAuthenticated := inr me;
     listReviews := [inr [approved]; inr [review555]];
     getCommentsForReview := fun _ => inr [c10; c11];
     writeFile := fun _ _ _ => None;
     tornWrite := fun _ _ _ => None;
     deletePendingReview := fun _ => None;
     createComment := fun t _ => inr (fresh t) |}.

(** Posting the comment on [src/main.js] fails. *)
Definition github_flaky : Env :=
  {| getAuthenticated := inr me;
     listReviews := [inr [approved]; inr [review555]];
     getCommentsForReview := fun _ => inr [c10; c11];
     writeFile := fun _ _ _ => None;
     tornWrite := fun _ _ _ => None;
     deletePendingReview := fun _ => None;
     createComment := fun t req =>
       if String.eqb (nc_path req) "src/main.js"
       then inl (Failure "502 Bad Gateway")
       else inr (fresh t) |}.

(** The review has been deleted; no other review is pending. *)
Definition github_after : Env :=
  {| getAuthenticated := inr me;
     listReviews := [inr [approved]];
     getCommentsForReview := fun _ => inl (Failure "404 Not Found");
     writeFile := fun _ _ _ => None;
     tornWrite := fun _ _ _ => None;
     deletePendingReview := fun _ => None;
     createComment := fun t _ => inr (fresh t) |}.

(** Two PENDING reviews of the caller, on two pages; the third page is
    never asked for. *)
Definition github_two : Env :=
  {| getAuthenticated := inr me;
     listReviews := [inr [review555]; inr [approved; review556];
                     inl (Failure "500 Internal Server Error")];
     getCommentsForReview := fun _ => inr [c10; c11];
     writeFile := fun _ _ _ => None;
     tornWrite := fun _ _ _ => None;
     deletePendingReview := fun _ => None;
     createComment := fun t _ => inr (fresh t) |}.

(** The disk is full: no file can be written. *)
Definition disk_full : Env :=
  {| getAuthenticated := inr me;
     listReviews := [inr [approved]; inr [review555]];
     getCommentsForReview := fun _ => inr [c10; c11];
     writeFile := fun _ _ _ => Some (Failure "ENOSPC");
     tornWrite := fun _ _ _ => None;
     deletePendingReview := fun _ => None;
     createComment := fun t _ => inr (fresh t) |}.

(** A disk that holds the snapshot of the two comments. *)
Definition disk : gmap string string :=
  {[ snapshot := Json.stringify [c10; c11] ]}.

Definition first_run : (exn + unit) * World :=
  main Json.stringify Json.parse github opts (start ∅).

Definition flaky_run : (exn + unit) * World :=
  main Json.stringify Json.parse github_flaky opts (start ∅).

End Scenario.

(** ** The countdown ([sleep] and [timeoutNotify], lines 35-54)

    What [timeoutNotify] does between its start and its end: writes to the
    standard output and sleeps.  The [do ... while (--timeout)] loop has no
    bound of its own, so the model takes fuel: [None] when the loop has not
    ended within [fuel] rounds. *)

Inductive Tick : Type :=
| StdoutWrite (s : string)
| Sleep (ms : N)
| ConsoleLog (s : string).

(** One round of the loop, entered with [timeout]. *)
Definition countdown_round (timeout : Z) : list Tick :=
  [StdoutWrite (pretty timeout); Sleep 250;
   StdoutWrite "."; Sleep 250;
   StdoutWrite "."; Sleep 250;
   StdoutWrite " "; Sleep 250].

Fixpoint countdown (fuel : nat) (timeout : Z) : option (list Tick) :=
  match fuel with
  | O => None
  | S fuel' =>
      let timeout' := (timeout - 1)%Z in
      if (timeout' =? 0)%Z then Some (countdown_round timeout)
      else
        match countdown fuel' timeout' with
        | Some rest => Some (countdown_round timeout ++ rest)
        | None => None
        end
  end.

Definition timeoutNotify_ticks (message : string) (timeout : Z) (fuel : nat)
    : option (list Tick) :=
  match countdown fuel timeout with
  | Some rounds =>
      Some (StdoutWrite (message +:+ " ") :: rounds ++ [ConsoleLog ""])
  | None => None
  end.

(** The time spent sleeping, in milliseconds. *)
Fixpoint slept (ticks : list Tick) : N :=
  match ticks with
  | [] => 0
  | Sleep ms :: ticks' => ms + slept ticks'
  | _ :: ticks' => slept ticks'
  end.

(** ** What [run] prints when [main] fails (lines 249-260) *)

Inductive Console : Type :=
| ErrorLine (message : string)
| Help
| Cause (e : exn)
| Uncaught (e : exn).

Definition report (e : exn) : list Console :=
  match e with
  | AppError m None => [ErrorLine m; Help]
  | AppError m (Some x) => [ErrorLine m; Cause x]
  | Failure _ => [Uncaught e]
  end.

(** ** The command line (lines 66-94)

    [opt.options] is a map from the long names of the options to their
    values.  [toNumber] is the conversion of a string to a number that
    [isNaN] and the unary [+] make, [None] for NaN; the strings that denote
    a number that is not an integer are outside the model. *)

(** [s.indexOf('/') !== -1]. *)
Fixpoint has_slash (s : string) : bool :=
  match s with
  | EmptyString => false
  | String c s' => Ascii.eqb c "/" || has_slash s'
  end.

(** [s.split('/')]. *)
Fixpoint split_slash (s : string) : list string :=
  match s with
  | EmptyString => [EmptyString]
  | String c s' =>
      if Ascii.eqb c "/" then EmptyString :: split_slash s'
      else
        match split_slash s' with
        | seg :: segs => String c seg :: segs
        | [] => [String c EmptyString]
        end
  end.

Section CommandLine.

Variable toNumber : string -> option Z.
Variable stringify : list Comment -> string.
Variable parse : string -> option Loaded.
Variable env : Env.

(** Lines 93-94 and the reads of [opt.options.save] and
    [opt.options.load]. *)
Definition resolve (options : gmap string string) : Options :=
  let parts := split_slash (value_of (options !! "repo")) in
  {| org := value_of (parts !! 0%nat);
     repo := value_of (parts !! 1%nat);
     pr := default 0%Z (toNumber (value_of (options !! "pr")));
     save := options !! "save";
     load := options !! "load" |}.

(** [main] from its first line. *)
Definition main_from_argv (options : gmap string string)
    (GITHUB_TOKEN : option string) : M unit :=
  if bool_decide (is_Some (options !! "version")) then ret tt
  else
    match options !! "repo", options !! "pr" with
    | Some repo_opt, Some pr_opt =>
        if negb (has_slash repo_opt) || bool_decide (toNumber pr_opt = None)
        then throw (AppError "No valid repository and PR number provided" None)
        else
          let githubToken :=
            if truthy (options !! "token") then options !! "token"
            else GITHUB_TOKEN in
          if negb (truthy githubToken)
          then throw (AppError "No GitHub token provided" None)
          else main stringify parse env (resolve options)
    | _, _ => throw (AppError "No repository and PR number provided" None)
    end.

(** [run], from the first line of [main]. *)
Definition run_from_argv (options : gmap string string)
    (GITHUB_TOKEN : option string) (w : World) : Z * World :=
  match main_from_argv options GITHUB_TOKEN w with
  | (inr _, w') => (0%Z, w')
  | (inl _, w') => (1%Z, w')
  end.

End CommandLine.

(** ** The answers to the create-comment requests *)

Fixpoint responses (tr : list Event) : list (exn + positive) :=
  match tr with
  | [] => []
  | EvCreateComment _ r :: tr' => r :: responses tr'
  | _ :: tr' => responses tr'
  end.

(** The comments [cs] after requests that got the answers [rs], one answer
    for each comment without [new_id], in order. *)
Fixpoint fill (cs : list Comment) (rs : list (exn + positive)) : list Comment :=
  match cs with
  | [] => []
  | c :: cs' =>
      match new_id c with
      | Some _ => c :: fill cs' rs
      | None =>
          match rs with
          | inr n :: rs' => set_new_id c n :: fill cs' rs'
          | inl _ :: rs' => c :: fill cs' rs'
          | [] => c :: fill cs' []
          end
      end
  end.

(** ** More incidents on the pull request of [Scenario] *)

Module Incidents.

(** The token is rejected. *)
Definition bad_credentials : Env :=
  {| getAuthenticated := inl (Failure "401 Bad credentials");
     listReviews := [inr [Scenario.approved]; inr [Scenario.review555]];
     getCommentsForReview := fun _ => inr [Scenario.c10; Scenario.c11];
     writeFile := fun _ _ _ => None;
     tornWrite := fun _ _ _ => None;
     deletePendingReview := fun _ => None;
     createComment := fun t _ => inr (Scenario.fresh t) |}.

(** The second page of the listing cannot be fetched. *)
Definition listing_breaks : Env :=
  {| getAuthenticated := inr Scenario.me;
     listReviews := [inr [Scenario.approved];
                     inl (Failure "502 Bad Gateway");
                     inr [Scenario.review555]];
     getCommentsForReview := fun _ => inr [Scenario.c10; Scenario.c11];
     writeFile := fun _ _ _ => None;
     tornWrite := fun _ _ _ => None;
     deletePendingReview := fun _ => None;
     createComment := fun t _ => inr (Scenario.fresh t) |}.

(** The comments of the review cannot be fetched. *)
Definition comments_break : Env :=
  {| getAuthenticated := inr Scenario.me;
     listReviews := [inr [Scenario.approved]; inr [Scenario.review555]];
     getCommentsForReview := fun _ => inl (Failure "500 Internal Server Error");
     writeFile := fun _ _ _ => None;
     tornWrite := fun _ _ _ => None;
     deletePendingReview := fun _ => None;
     createComment := fun t _ => inr (Scenario.fresh t) |}.

(** The review cannot be deleted. *)
Definition undeletable : Env :=
  {| getAuthenticated := inr Scenario.me;
     listReviews := [inr [Scenario.approved]; inr [Scenario.review555]];
     getCommentsForReview := fun _ => inr [Scenario.c10; Scenario.c11];
     writeFile := fun _ _ _ => None;
     tornWrite := fun _ _ _ => None;
     deletePendingReview := fun _ => Some (Failure "422 Unprocessable Entity");
     createComment := fun t _ => inr (Scenario.fresh t) |}.

(** The disk fills up after the first write: the next one opens the file,
    which empties it, and can write nothing. *)
Definition disk_fills_up : Env :=
  {| getAuthenticated := inr Scenario.me;
     listReviews := [inr [Scenario.approved]; inr [Scenario.review555]];
     getCommentsForReview := fun _ => inr [Scenario.c10; Scenario.c11];
     writeFile := fun t _ _ =>
       if existsb is_write t then Some (Failure "ENOSPC") else None;
     tornWrite := fun _ _ _ => Some 0;
     deletePendingReview := fun _ => None;
     createComment := fun t _ => inr (Scenario.fresh t) |}.

Definition opts_save : Options :=
  mkOptions "org" "repo" 1234 (Some "backup.json") None.

Definition opts_load_other : Options :=
  mkOptions "org" "repo" 1234 None (Some "old.json").

Definition opts_load_empty : Options :=
  mkOptions "org" "repo" 1234 None (Some "").

(** A disk that holds a snapshot under another name, and one that holds a
    file that is not JSON. *)
Definition old_disk : gmap string string :=
  {[ "old.json" := Json.stringify [Scenario.c10; Scenario.c11] ]}.

Definition bad_disk : gmap string string :=
  {[ Scenario.snapshot := "not json" ]}.

(** A disk whose file holds JSON, but no list. *)
Definition null_disk : gmap string string :=
  {[ Scenario.snapshot := "null" ]}.

(** The text of an array with the comment 10 and then [null], a disk that
    holds it, and a parser that knows this text too. *)
Definition odd_text : string :=
  String "[" (Json.put_comment Scenario.c10 ",null]").

Definition odd_disk : gmap string string :=
  {[ Scenario.snapshot := odd_text ]}.

Definition parse_odd (s : string) : option Loaded :=
  if String.eqb s odd_text then Some (Items [Some Scenario.c10; None])
  else Json.parse s.

(** Decimal integers, enough of [toNumber] for the command lines below. *)
Definition decimal (s : string) : option Z :=
  match Json.read_N s with
  | Some (n, EmptyString) => Some (Z.of_N n)
  | _ => None
  end.

Definition argv : gmap string string :=
  {[ "repo" := "org/repo"; "pr" := "1234" ]}.

Definition argv_nested : gmap string string :=
  {[ "repo" := "org/repo/pulls"; "pr" := "1234" ]}.

End Incidents.

(** ** The codec round-trips *)

Module JsonFacts.
Import Json.

Lemma append_cons a s t : String a s +:+ t = String a (s +:+ t).
Proof. reflexivity. Qed.

Lemma length_append s t :
  String.length (s +:+ t) = String.length s + String.length t.
Proof.
  induction s as [|a s IH]; [done|].
  rewrite append_cons. simpl. by rewrite IH.
Qed.

Lemma expect_append lit s t : expect (lit +:+ s) (lit +:+ t) = expect s t.
Proof.
  induction lit as [|a lit IH]; [done|].
  rewrite !append_cons. simpl. by rewrite Ascii.eqb_refl.
Qed.

Lemma read_key_put name tail : read_key name (put_key name tail) = Some tail.
Proof.
  unfold read_key, put_key. simpl. rewrite expect_append. reflexivity.
Qed.

Lemma read_chars_escape c tail :
  read_chars (escape_char c tail) = push c (read_chars tail).
Proof.
  destruct c as [[] [] [] [] [] [] [] []]; reflexivity.
Qed.

Lemma read_chars_put s tail : read_chars (put_chars s tail) = Some (s, tail).
Proof.
  induction s as [|c s IH]; simpl; [done|].
  by rewrite read_chars_escape, IH.
Qed.

Lemma read_string_put s tail : read_string (put_string s tail) = Some (s, tail).
Proof. unfold read_string, put_string. simpl. apply read_chars_put. Qed.

Lemma read_digits_end acc s : ends_number s -> read_digits acc s = (acc, s).
Proof. destruct s as [|c s]; simpl; [done|]. by intros ->. Qed.

Lemma digit_value_pretty d :
  (d < 10)%N -> digit_value (pretty_N_char d) = Some d.
Proof.
  intros H.
  destruct d as [|[[[[]|[]|]|[[]|[]|]|]|[[[]|[]|]|[[]|[]|]|]|]]; try reflexivity; lia.
Qed.

Lemma pretty_N_go_append x s t : pretty_N_go x s +:+ t = pretty_N_go x (s +:+ t).
Proof.
  revert s. induction (N.lt_wf_0 x) as [x _ IH]; intros s.
  destruct (decide (0 < x)%N) as [Hx|Hx].
  - rewrite (pretty_N_go_step x s), (pretty_N_go_step x (s +:+ t)) by done.
    rewrite IH by (by apply N.div_lt). reflexivity.
  - assert (x = 0%N) as -> by lia. by rewrite !pretty_N_go_0.
Qed.

Lemma read_digits_pretty_go x s :
  (0 < x)%N ->
  exists k, forall acc,
    read_digits acc (pretty_N_go x s) =
    read_digits (Some (default 0 acc * k + x)%N) s.
Proof.
  revert s. induction (N.lt_wf_0 x) as [x _ IH]; intros s Hx.
  rewrite pretty_N_go_step by done.
  assert (Hd : forall acc,
    read_digits acc (String (pretty_N_char (x `mod` 10)) s) =
    read_digits (Some (10 * default 0 acc + x `mod` 10)%N) s).
  { intros acc. simpl. rewrite digit_value_pretty; [done|].
    by apply N.mod_lt. }
  destruct (decide (0 < x `div` 10)%N) as [Hq|Hq].
  - destruct (IH (x `div` 10)%N (N.div_lt x 10 Hx eq_refl)
               (String (pretty_N_char (x `mod` 10)) s) Hq) as [k Hk].
    exists (k * 10)%N. intros acc. rewrite Hk, Hd. simpl.
    do 2 f_equal. pose proof (N.div_mod x 10 ltac:(done)) as Hdm.
    generalize dependent (x `div` 10)%N. generalize (x `mod` 10)%N.
    intros; nia.
  - assert (Hz : (x `div` 10 = 0)%N).
    { destruct (x `div` 10)%N; [done|]. by destruct Hq. }
    rewrite Hz, pretty_N_go_0. exists 10%N. intros acc. rewrite Hd.
    do 2 f_equal. pose proof (N.div_mod x 10 ltac:(done)) as Hdm.
    rewrite Hz in Hdm. lia.
Qed.

Lemma read_N_pretty (n : N) tail :
  ends_number tail -> read_N (pretty n +:+ tail) = Some (n, tail).
Proof.
  intros Hend. unfold read_N, pretty, pretty_N.
  destruct (decide (n = 0%N)) as [->|Hn].
  - rewrite append_cons. simpl. by rewrite read_digits_end.
  - rewrite pretty_N_go_append.
    destruct (read_digits_pretty_go n (EmptyString +:+ tail)) as [k Hk]; [lia|].
    rewrite Hk. simpl. by rewrite read_digits_end.
Qed.

Lemma read_positive_pretty (p : positive) tail :
  ends_number tail -> read_positive (pretty p +:+ tail) = Some (p, tail).
Proof.
  intros Hend. unfold read_positive, pretty, pretty_positive.
  by rewrite read_N_pretty.
Qed.

Lemma read_position_put p tail :
  ends_number tail -> read_position (put_position p tail) = Some (p, tail).
Proof.
  intros Hend. unfold read_position, put_position.
  destruct p as [n|].
  - by rewrite read_N_pretty.
  - reflexivity.
Qed.

Lemma read_new_id_put n tail : read_new_id (put_new_id n tail) = Some (n, tail).
Proof.
  unfold read_new_id, put_new_id.
  destruct n as [p|]; [|reflexivity].
  change (expect "}" (String "," ?s)) with (@None string).
  change (expect "," (String "," ?s)) with (Some s).
  cbn [mbind option_bind]. rewrite read_key_put. cbn [mbind option_bind].
  rewrite read_positive_pretty by done. reflexivity.
Qed.

Lemma read_comment_put c tail :
  ends_number tail -> read_comment (put_comment c tail) = Some (c, tail).
Proof.
  intros Hend. destruct c as [i commit file pos text n].
  unfold read_comment, put_comment. cbn [comment_id commit_id path position body new_id].
  change (expect "{" (String "{" ?s)) with (Some s). cbn [mbind option_bind].
  rewrite read_key_put; cbn [mbind option_bind].
  rewrite read_positive_pretty by done; cbn [mbind option_bind].
  change (expect "," (String "," ?s)) with (Some s). cbn [mbind option_bind].
  rewrite read_key_put; cbn [mbind option_bind].
  rewrite read_string_put; cbn [mbind option_bind].
  change (expect "," (String "," ?s)) with (Some s). cbn [mbind option_bind].
  rewrite read_key_put; cbn [mbind option_bind].
  rewrite read_string_put; cbn [mbind option_bind].
  change (expect "," (String "," ?s)) with (Some s). cbn [mbind option_bind].
  rewrite read_key_put; cbn [mbind option_bind].
  rewrite read_position_put by done; cbn [mbind option_bind].
  change (expect "," (String "," ?s)) with (Some s). cbn [mbind option_bind].
  rewrite read_key_put; cbn [mbind option_bind].
  rewrite read_string_put; cbn [mbind option_bind].
  rewrite read_new_id_put; cbn [mbind option_bind].
  reflexivity.
Qed.

Lemma read_items_put c cs fuel :
  length cs < fuel -> read_items fuel (put_items c cs) = Some (c :: cs).
Proof.
  revert c fuel. induction cs as [|c' cs IH]; intros c [|fuel] Hf; simpl in Hf; try lia.
  - cbn [read_items put_items]. rewrite read_comment_put by done. reflexivity.
  - cbn [read_items put_items]. rewrite read_comment_put by done.
    cbn [mbind option_bind]. change (Ascii.eqb "," "]") with false.
    change (Ascii.eqb "," ",") with true. cbv iota.
    rewrite IH by lia. reflexivity.
Qed.

(** Printing only adds characters in front of the tail. *)

Lemma le_String c t u :
  String.length u <= String.length t -> String.length u <= String.length (String c t).
Proof. simpl. lia. Qed.

Lemma lt_String c t u :
  String.length u <= String.length t -> String.length u < String.length (String c t).
Proof. simpl. lia. Qed.

Lemma le_append s t u :
  String.length u <= String.length t -> String.length u <= String.length (s +:+ t).
Proof. rewrite length_append. lia. Qed.

Lemma le_put_key name t u :
  String.length u <= String.length t ->
  String.length u <= String.length (put_key name t).
Proof.
  intros H. unfold put_key. by apply le_String, le_append, le_String, le_String.
Qed.

Lemma le_escape_char c t u :
  String.length u <= String.length t ->
  String.length u <= String.length (escape_char c t).
Proof. intros H. unfold escape_char. repeat case_match; simpl; lia. Qed.

Lemma le_put_string s t u :
  String.length u <= String.length t ->
  String.length u <= String.length (put_string s t).
Proof.
  intros H. unfold put_string. apply le_String.
  induction s as [|a s IH]; simpl; [lia|]. by apply le_escape_char.
Qed.

Lemma le_put_position p t u :
  String.length u <= String.length t ->
  String.length u <= String.length (put_position p t).
Proof. intros H. destruct p; by apply le_append. Qed.

Lemma le_put_new_id n t u :
  String.length u <= String.length t ->
  String.length u <= String.length (put_new_id n t).
Proof.
  intros H. destruct n; simpl put_new_id; [|by apply le_String].
  by apply le_String, le_put_key, le_append, le_String.
Qed.

Lemma length_put_comment c tail :
  String.length tail < String.length (put_comment c tail).
Proof.
  unfold put_comment. apply lt_String.
  repeat first
    [ apply le_put_key | apply le_put_string | apply le_put_position
    | apply le_put_new_id | apply le_append | apply le_String ].
  apply Nat.le_refl.
Qed.

Lemma length_put_items c cs :
  length cs < String.length (put_items c cs).
Proof.
  revert c. induction cs as [|c' cs IH]; intros c; cbn [put_items length].
  - pose proof (length_put_comment c "]"). lia.
  - pose proof (length_put_comment c (String "," (put_items c' cs))) as H.
    specialize (IH c'). cbn [String.length] in H. lia.
Qed.

Lemma parse_array_stringify cs : parse_array (stringify cs) = Some cs.
Proof.
  destruct cs as [|c cs]; [reflexivity|].
  unfold stringify, parse_array. change (Ascii.eqb "[" "[") with true. cbv iota.
  assert (Hread : read_items (String.length (put_items c cs)) (put_items c cs)
                  = Some (c :: cs)).
  { apply read_items_put, length_put_items. }
  destruct (put_items c cs) as [|a [|b s]] eqn:Hs; try done.
  exfalso. destruct cs; cbn [put_items] in Hs; unfold put_comment, put_key in Hs;
    discriminate.
Qed.

Theorem parse_stringify cs : parse (stringify cs) = Some (well_formed cs).
Proof.
  unfold parse. rewrite parse_array_stringify.
  by destruct cs as [|c cs].
Qed.

End JsonFacts.

(** ** The program and its outcomes *)

Lemma scan_pages_eq userId pages reviewId w :
  scan_pages userId pages reviewId w =
  (locate userId pages reviewId,
   {| fs := fs w;
      trace := trace w ++ map EvListReviews (requested userId pages reviewId) |}).
Proof.
  revert reviewId w.
  induction pages as [|[e|data] pages IH]; intros reviewId [f t]; simpl.
  - by rewrite app_nil_r.
  - reflexivity.
  - unfold bind, emit; simpl.
    destruct (scan_page userId data reviewId) as [e|r]; simpl.
    + reflexivity.
    + rewrite IH; simpl. by rewrite <- app_assoc.
Qed.

Lemma pick_app reviewId ms1 ms2 :
  pick reviewId (ms1 ++ ms2) =
  match pick reviewId ms1 with
  | inl e => inl e
  | inr r => pick r ms2
  end.
Proof.
  destruct reviewId as [r|], ms1 as [|x [|y ms1]], ms2 as [|z ms2]; reflexivity.
Qed.

Lemma scan_page_pick userId data reviewId :
  scan_page userId data reviewId =
  pick reviewId (List.filter (is_pending_of userId) data).
Proof.
  revert reviewId.
  induction data as [|review data IH]; intros reviewId; cbn [scan_page List.filter].
  - by destruct reviewId.
  - destruct (is_pending_of userId review).
    + destruct reviewId as [r|]; [reflexivity|].
      rewrite IH. by destruct (List.filter _ data).
    + apply IH.
Qed.

Lemma locate_pick userId datas rest reviewId :
  locate userId (map inr datas ++ rest) reviewId =
  match pick reviewId (pending_of userId datas) with
  | inl e => inl e
  | inr r => locate userId rest r
  end.
Proof.
  unfold pending_of. revert reviewId.
  induction datas as [|data datas IH]; intros reviewId; simpl.
  - by destruct reviewId.
  - rewrite List.filter_app, pick_app, scan_page_pick.
    destruct (pick reviewId _) as [e|r]; [reflexivity|apply IH].
Qed.

Lemma requested_all userId datas reviewId r :
  pick reviewId (pending_of userId datas) = inr r ->
  requested userId (map inr datas) reviewId = map inr datas.
Proof.
  unfold pending_of. revert reviewId.
  induction datas as [|data datas IH]; intros reviewId; simpl; [done|].
  rewrite List.filter_app, pick_app, scan_page_pick.
  destruct (pick reviewId _) as [e|r']; [done|].
  intros H. by rewrite (IH _ H).
Qed.

(** *** Loaded values *)

Lemma leading_well_formed cs : leading (Some <$> cs) = cs.
Proof. induction cs as [|c cs IH]; csimpl; [done|by rewrite IH]. Qed.

Lemma comments_in_well_formed cs : comments_in (well_formed cs) = cs.
Proof. apply leading_well_formed. Qed.

Lemma whole_well_formed cs : whole (well_formed cs) = true.
Proof. induction cs as [|c cs IH]; csimpl; [done|by apply IH]. Qed.

Lemma well_formed_inj cs1 cs2 : well_formed cs1 = well_formed cs2 -> cs1 = cs2.
Proof.
  unfold well_formed. intros [= H]. by apply (inj (fmap Some)) in H.
Qed.

Lemma whole_true v : whole v = true -> v = well_formed (comments_in v).
Proof.
  destruct v as [|items]; simpl; [done|]. unfold well_formed. intros H. f_equal.
  induction items as [|[c|] items IH]; csimpl in *; [done| |done].
  f_equal. by apply IH.
Qed.

Lemma replay_spec env items f t :
  exists cs' evs,
    replay env items {| fs := f; trace := t |} =
      ((if whole (Items items) then inr cs' else inl (Failure "TypeError")),
       {| fs := f; trace := t ++ evs |})
    /\ replayed env t (leading items) cs' evs.
Proof.
  revert t.
  induction items as [|[c|] items IH]; intros t.
  - exists [], []. split; [|constructor]. simpl. unfold ret. by rewrite app_nil_r.
  - cbn [replay leading]. unfold bind at 1. unfold replay_one.
    change (whole (Items (Some c :: items))) with (whole (Items items)).
    destruct (new_id c) as [n|] eqn:Hn.
    + destruct (IH t) as (cs' & evs & Heq & Hrel).
      exists (c :: cs'), evs. split; [|by econstructor].
      unfold ret at 1. unfold bind. rewrite Heq.
      by destruct (whole (Items items)).
    + unfold try_catch, bind at 1, pulls_createComment, bind, emit, of_result.
      cbn [trace fs].
      destruct (createComment env t (request_of c)) as [e|n] eqn:Hc.
      * destruct (IH (t ++ [EvCreateComment (request_of c) (inl e)]))
          as (cs' & evs & Heq & Hrel).
        exists (c :: cs'), (EvCreateComment (request_of c) (inl e) :: evs).
        split; [|by econstructor].
        unfold throw, ret. rewrite Heq. rewrite <- app_assoc.
        by destruct (whole (Items items)).
      * destruct (IH (t ++ [EvCreateComment (request_of c) (inr n)]))
          as (cs' & evs & Heq & Hrel).
        exists (set_new_id c n :: cs'), (EvCreateComment (request_of c) (inr n) :: evs).
        split; [|by econstructor].
        unfold ret. rewrite Heq. rewrite <- app_assoc.
        by destruct (whole (Items items)).
  - exists [], []. split; [|constructor]. simpl. unfold bind, throw.
    by rewrite app_nil_r.
Qed.

Lemma replay_loaded_spec env v f t :
  exists cs' evs,
    replay_loaded env v {| fs := f; trace := t |} =
      ((if whole v then inr cs' else inl (Failure "TypeError")),
       {| fs := f; trace := t ++ evs |})
    /\ replayed env t (comments_in v) cs' evs.
Proof.
  destruct v as [|items]; [|apply replay_spec].
  exists [], []. split; [|constructor]. simpl. unfold throw. by rewrite app_nil_r.
Qed.

Section Phases.

Variable stringify : list Comment -> string.
Variable parse : string -> option Loaded.
Variable env : Env.
Variable opt : Options.

Lemma truthy_Some file : truthy (Some file) = true <-> file <> "".
Proof.
  unfold truthy. destruct (String.eqb_spec file ""); simpl; split; congruence.
Qed.

Lemma obtain_comments_spec reviewId files t :
  exists res files' evs,
    obtain_comments stringify parse env opt reviewId (save_file opt reviewId)
      {| fs := files; trace := t |}
    = (res, {| fs := files'; trace := t ++ evs |})
    /\ obtained stringify parse env opt reviewId files t res files' evs.
Proof.
  unfold obtain_comments.
  assert (Hload :
    exists res files' evs,
      (if truthy (load opt)
       then
         let file := value_of (load opt) in
         try_catch (r <- fs_readFile file;; JSON_parse parse r)
           (fun _ => throw (AppError
              ("Failed to load comments from file '" +:+ file +:+ "'") None))
       else
         throw (AppError
           ("No pending review for PR " +:+ pretty (pr opt)
              +:+ " and no --load option specified") None))
        {| fs := files; trace := t |}
      = (res, {| fs := files'; trace := t ++ evs |})
      /\ (reviewId = None \/ load opt <> None ->
          obtained stringify parse env opt reviewId files t res files' evs)).
  { destruct (truthy (load opt)) eqn:Ht.
    - destruct (load opt) as [file|] eqn:Hl; [|discriminate].
      apply truthy_Some in Ht. cbn [value_of].
      unfold try_catch, bind, fs_readFile, bind, emit, JSON_parse. cbn [fs trace].
      destruct (files !! file) as [data|] eqn:Hf; rewrite ?Hf.
      + unfold ret at 1. destruct (parse data) as [cs|] eqn:Hp.
        * do 3 eexists. split; [reflexivity|]. intros _. by eapply obtained_loaded.
        * do 3 eexists. split; [reflexivity|]. intros _. by eapply obtained_unparsable.
      + do 3 eexists. split; [reflexivity|]. intros _. by eapply obtained_unreadable.
    - exists (inl (AppError
         ("No pending review for PR " +:+ pretty (pr opt)
            +:+ " and no --load option specified") None)), files, [].
      split; [unfold throw; by rewrite app_nil_r|].
      intros Hc. apply obtained_nothing; [|done].
      destruct Hc as [->|Hc]; [by left|right].
      destruct (load opt) as [file|]; [|done].
      f_equal. unfold truthy in Ht.
      destruct (String.eqb_spec file ""); [done|discriminate]. }
  destruct reviewId as [r|].
  - destruct (load opt) as [file|] eqn:Hl.
    + destruct Hload as (res & files' & evs & Heq & Hob).
      exists res, files', evs. split; [done|]. apply Hob. by right.
    + clear Hload.
      unfold bind at 1, try_catch at 1, pulls_getCommentsForReview, bind, emit.
      cbn [fs trace].
      destruct (getCommentsForReview env r) as [e|cs] eqn:Hc; cbn [of_result].
      * do 3 eexists. split; [reflexivity|]. by eapply obtained_fetch_failed.
      * unfold ret at 1, saveComments, try_catch, fs_writeFile. cbn [fs trace].
        destruct (writeFile env _ _ _) as [e|] eqn:Hw.
        -- do 3 eexists. split; [|by eapply obtained_save_failed].
           unfold throw. by rewrite <- app_assoc.
        -- do 3 eexists. split; [|by eapply obtained_saved].
           unfold ret. by rewrite <- app_assoc.
  - destruct Hload as (res & files' & evs & Heq & Hob).
    exists res, files', evs. split; [done|]. apply Hob. by left.
Qed.

Variable files : gmap string string.

Lemma main_outcome :
  exists res w,
    main stringify parse env opt (start files) = (res, w)
    /\ outcome stringify parse env opt files res w.
Proof.
  unfold main, start.
  unfold bind at 1, try_catch at 1, bind at 1, users_getAuthenticated.
  cbn [bind emit fs trace app].
  destruct (getAuthenticated env) as [e|u] eqn:Hu; cbn [of_result ret throw].
  { do 2 eexists. split; [reflexivity|]. by constructor. }
  unfold bind at 1, try_catch at 1. rewrite scan_pages_eq. cbn [fs trace app].
  fold (listing env u).
  destruct (locate (user_id u) (listReviews env) None) as [e|reviewId] eqn:Hl.
  { do 2 eexists. split; [reflexivity|]. by constructor. }
  unfold bind at 1.
  destruct (obtain_comments_spec reviewId files (listing env u))
    as (res & files' & evs & -> & Hob).
  destruct res as [e|cs].
  { do 2 eexists. split; [reflexivity|]. by econstructor. }
  unfold bind at 1.
  assert (Hdis :
    (exists r e, reviewId = Some r /\ deletePendingReview env r = Some e /\
       dismiss env reviewId {| fs := files'; trace := listing env u ++ evs |} =
       (inl (AppError ("Failed to dismiss review " +:+ pretty r) (Some e)),
        {| fs := files';
           trace := listing env u ++ evs
                      ++ [EvTimeoutNotify r 10; EvDeletePendingReview r (Some e)] |}))
    \/ ((forall r, reviewId = Some r -> deletePendingReview env r = None) /\
        dismiss env reviewId {| fs := files'; trace := listing env u ++ evs |} =
        (inr tt, {| fs := files';
                    trace := listing env u ++ evs ++ dismissal reviewId |})) ).
  { destruct reviewId as [r|]; cbn [dismiss dismissal].
    - unfold bind, timeoutNotify, try_catch, pulls_deletePendingReview, bind, emit.
      cbn [fs trace].
      destruct (deletePendingReview env r) as [e|] eqn:Hd.
      + left. exists r, e. repeat split; [done|].
        unfold throw. by rewrite <- !app_assoc.
      + right. split; [intros ? [= <-]; done|].
        unfold ret. by rewrite <- !app_assoc.
    - right. split; [done|]. unfold ret. by rewrite app_nil_r. }
  destruct Hdis as [(r & e & -> & Hd & ->)|[Hd ->]].
  { do 2 eexists. split; [reflexivity|]. by econstructor. }
  unfold bind at 1.
  destruct (replay_loaded_spec env cs files'
              (listing env u ++ evs ++ dismissal reviewId))
    as (cs' & posts & -> & Hrep).
  destruct (whole cs) eqn:Hwhole.
  2:{ do 2 eexists. split.
      - by rewrite <- !app_assoc.
      - eapply outcome_no_comment; eauto. }
  apply whole_true in Hwhole. rewrite Hwhole in Hob.
  unfold saveComments, try_catch, fs_writeFile. cbn [fs trace].
  destruct (writeFile env _ _ _) as [e|] eqn:Hw.
  - do 2 eexists. split.
    + unfold throw. by rewrite <- !app_assoc.
    + eapply outcome_not_saved; eauto. by rewrite <- !app_assoc in Hw.
  - do 2 eexists. split.
    + by rewrite <- !app_assoc.
    + eapply outcome_done; eauto. by rewrite <- !app_assoc in Hw.
Qed.

Lemma main_inv res w :
  main stringify parse env opt (start files) = (res, w) ->
  outcome stringify parse env opt files res w.
Proof.
  destruct main_outcome as (res' & w' & Heq & Hout).
  rewrite Heq. by intros [= <- <-].
Qed.

End Phases.

Lemma posts_app tr1 tr2 : posts (tr1 ++ tr2) = posts tr1 ++ posts tr2.
Proof.
  induction tr1 as [|[] tr1 IH]; simpl; try done. by rewrite IH.
Qed.

Lemma failed_posts_app tr1 tr2 :
  failed_posts (tr1 ++ tr2) = failed_posts tr1 ++ failed_posts tr2.
Proof.
  induction tr1 as [|[| | | | | | |req [e|n]] tr1 IH]; simpl; try done.
  by rewrite IH.
Qed.

Lemma pages_of_app tr1 tr2 : pages_of (tr1 ++ tr2) = pages_of tr1 ++ pages_of tr2.
Proof.
  induction tr1 as [|[] tr1 IH]; simpl; try done. by rewrite IH.
Qed.

Lemma pages_of_map pages : pages_of (map EvListReviews pages) = pages.
Proof. induction pages as [|p pages IH]; simpl; [done|by rewrite IH]. Qed.

Lemma posts_quiet tr : Forall (fun ev => is_create ev = false) tr -> posts tr = [].
Proof.
  induction 1 as [|[] tr Hev _ IH]; simpl; try done.
Qed.

Lemma failed_posts_quiet tr :
  Forall (fun ev => is_create ev = false) tr -> failed_posts tr = [].
Proof.
  induction 1 as [|[] tr Hev _ IH]; simpl; try done.
Qed.

Lemma Forall_map_EvListReviews (P : Event -> Prop) pages :
  (forall page, P (EvListReviews page)) -> Forall P (map EvListReviews pages).
Proof. intros H. induction pages; simpl; constructor; auto. Qed.

(** *** What the replay loop does *)

Section Replayed.

Variable env : Env.

Lemma replayed_creates t cs cs' evs :
  replayed env t cs cs' evs -> Forall (fun ev => is_create ev = true) evs.
Proof. induction 1; auto. Qed.

Lemma replayed_posts t cs cs' evs :
  replayed env t cs cs' evs -> posts evs = map request_of (unposted cs).
Proof.
  unfold unposted.
  induction 1 as [|t c n cs cs' evs Hn _ IH|t c n cs cs' evs Hn _ _ IH
                 |t c e cs cs' evs Hn _ _ IH]; simpl; rewrite ?Hn; simpl;
    by rewrite ?IH.
Qed.

Lemma replayed_failed_posts t cs cs' evs :
  replayed env t cs cs' evs -> failed_posts evs = map request_of (unposted cs').
Proof.
  unfold unposted.
  induction 1 as [|t c n cs cs' evs Hn _ IH|t c n cs cs' evs Hn _ _ IH
                 |t c e cs cs' evs Hn _ _ IH]; simpl; rewrite ?Hn; simpl;
    by rewrite ?IH.
Qed.

Lemma replayed_frame t cs cs' evs :
  replayed env t cs cs' evs -> Forall2 same_but_new_id cs cs'.
Proof.
  induction 1 as [|t c n cs cs' evs Hn _ IH|t c n cs cs' evs Hn _ _ IH
                 |t c e cs cs' evs Hn _ _ IH]; constructor; auto;
    unfold same_but_new_id; simpl; repeat split; auto; congruence.
Qed.

(** The comments still unposted afterwards were unposted before and are
    unchanged. *)
Lemma replayed_unposted_sublist t cs cs' evs :
  replayed env t cs cs' evs -> sublist (unposted cs') (unposted cs).
Proof.
  unfold unposted.
  induction 1 as [|t c n cs cs' evs Hn _ IH|t c n cs cs' evs Hn _ _ IH
                 |t c e cs cs' evs Hn _ _ IH]; simpl; rewrite ?Hn; simpl.
  - constructor.
  - done.
  - by constructor.
  - by constructor.
Qed.

Lemma replayed_all_posted t cs cs' evs :
  replayed env t cs cs' evs -> unposted cs = [] -> evs = [] /\ cs' = cs.
Proof.
  unfold unposted.
  induction 1 as [|t c n cs cs' evs Hn _ IH|t c n cs cs' evs Hn _ _ IH
                 |t c e cs cs' evs Hn _ _ IH]; simpl; rewrite ?Hn; simpl;
    try done.
  intros H. destruct (IH H) as [-> ->]. done.
Qed.

End Replayed.

(** ** Properties of the workflow *)

Lemma locate_listing userId datas :
  locate userId (map inr datas) None = pick None (pending_of userId datas).
Proof.
  rewrite <- (app_nil_r (map inr datas)), locate_pick.
  by destruct (pick None _).
Qed.

Lemma listing_quiet env u :
  Forall (fun ev => is_delete ev = false /\ is_create ev = false
                    /\ is_write ev = false /\ is_fetch ev = false)
    (listing env u).
Proof.
  constructor; [done|]. by apply Forall_map_EvListReviews.
Qed.

Lemma truthy_false_Some o file : truthy o = false -> o = Some file -> file = "".
Proof.
  intros Ht ->. unfold truthy in Ht.
  by destruct (String.eqb_spec file "").
Qed.

(** C6. When the listing of the reviews succeeds and shows no PENDING
    review of the caller, and no load path is given, the run fails with the
    fatal error "No pending review for PR ... and no --load option
    specified" (exit status 1); its only requests are the identity lookup
    and the listing, so no review is deleted, no comment is posted and no
    file is written. *)
Theorem C6_no_pending_no_load_fails
    stringify parse env opt files u datas :
  getAuthenticated env = inr u ->
  listReviews env = map inr datas ->
  pending_of (user_id u) datas = [] ->
  truthy (load opt) = false ->
  exists w,
    main stringify parse env opt (start files) =
      (inl (AppError
         ("No pending review for PR " +:+ pretty (pr opt)
            +:+ " and no --load option specified") None), w)
    /\ run stringify parse env opt (start files) = (1%Z, w)
    /\ fs w = files
    /\ trace w = EvGetAuthenticated (inr u) :: map EvListReviews (listReviews env)
    /\ Forall (fun ev => is_mutation ev = false) (trace w).
Proof.
  intros Hu Hpages Hnone Hload.
  assert (Hloc : locate (user_id u) (listReviews env) None = inr None).
  { by rewrite Hpages, locate_listing, Hnone. }
  assert (Hreq : requested (user_id u) (listReviews env) None = listReviews env).
  { rewrite Hpages. eapply requested_all. by rewrite Hnone. }
  destruct (main_outcome stringify parse env opt files) as (res & w & Heq & Hout).
  assert (Hobt : forall res' files' evs,
    obtained stringify parse env opt None files (listing env u) res' files' evs ->
    res' = inl (AppError
         ("No pending review for PR " +:+ pretty (pr opt)
            +:+ " and no --load option specified") None)
    /\ files' = files /\ evs = []).
  { intros res' files' evs Hob.
    inversion Hob; subst; try discriminate; try done;
      match goal with
      | H : load opt = Some ?f, H' : ?f <> "" |- _ =>
          destruct H'; by eapply truthy_false_Some
      end. }
  exists w. unfold run. rewrite Heq.
  inversion Hout as
    [e He|u' e Hu' Hl|u' rid e files' evs Hu' Hl Hob
    |u' r v files' evs e Hu' Hl Hob Hd
    |u' rid cs files' evs cs' ps e Hu' Hl Hob Hd Hrep Hw
    |u' rid cs files' evs cs' ps Hu' Hl Hob Hd Hrep Hw
    |u' rid v files' evs cs' ps Hu' Hl Hob Hwhole Hd Hrep]; subst;
    rewrite Hu in *; try discriminate;
    match goal with H : inr _ = inr _ |- _ => injection H as <- end;
    rewrite Hloc in *; try discriminate;
    match goal with H : inr _ = inr _ |- _ => injection H as <- end;
    destruct (Hobt _ _ _ Hob) as (Hres & -> & ->); try discriminate.
  injection Hres as ->.
  rewrite app_nil_r. cbn [fs trace]. unfold listing. rewrite Hreq.
  repeat split.
  constructor; [done|]. by apply Forall_map_EvListReviews.
Qed.

Ltac outcome_cases H :=
  inversion H as
    [e He|u' e Hu' Hl|u' rid e files' evs Hu' Hl Hob
    |u' r v files' evs e Hu' Hl Hob Hd
    |u' rid cs files' evs cs' ps e Hu' Hl Hob Hd Hrep Hw
    |u' rid cs files' evs cs' ps Hu' Hl Hob Hd Hrep Hw
    |u' rid v files' evs cs' ps Hu' Hl Hob Hwhole Hd Hrep]; subst.

(** A list of comments is a whole array, and is the only one with these
    comments. *)
Ltac loaded :=
  repeat match goal with
  | H : well_formed _ = well_formed _ |- _ => apply well_formed_inj in H; subst
  | H : Some <$> _ = Some <$> _ |- _ => apply (inj (fmap Some)) in H; subst
  | H : whole (well_formed _) = false |- _ =>
      rewrite whole_well_formed in H; discriminate H
  | H : context [comments_in (well_formed _)] |- _ =>
      rewrite comments_in_well_formed in H
  end.

(** [same_run Hu Hloc]: the identity and the review of the case at hand
    are those of the hypotheses [Hu] and [Hloc]. *)
Ltac same_run Hu Hloc :=
  rewrite ?Hu in *; try discriminate; simplify_eq;
  rewrite ?Hloc in *; try discriminate; simplify_eq.

Lemma pick_two ms : 2 <= length ms -> pick None ms = inl too_many.
Proof. destruct ms as [|x [|y ms]]; simpl; [lia|lia|done]. Qed.

Lemma pick_inl_two ms e : pick None ms = inl e -> 2 <= length ms.
Proof. destruct ms as [|x [|y ms]]; simpl; [done|done|lia]. Qed.

Lemma locate_two userId datas rest :
  2 <= length (pending_of userId datas) ->
  locate userId (map inr datas ++ rest) None = inl too_many.
Proof. intros H. by rewrite locate_pick, pick_two. Qed.

(** The pages asked for when the listing shows more matches than one: a
    prefix of the listing, which is long enough to show this. *)
Lemma requested_until_ambiguous userId datas rest reviewId e :
  pick reviewId (pending_of userId datas) = inl e ->
  exists datas' more,
    datas = datas' ++ more
    /\ requested userId (map inr datas ++ rest) reviewId = map inr datas'
    /\ pick reviewId (pending_of userId datas') = inl e.
Proof.
  unfold pending_of. revert reviewId.
  induction datas as [|data datas IH]; intros reviewId; simpl.
  - by destruct reviewId.
  - rewrite List.filter_app, pick_app, scan_page_pick.
    destruct (pick reviewId (List.filter _ data)) as [e'|r] eqn:Hp.
    + intros [= ->]. exists [data], datas. simpl.
      rewrite app_nil_r. by rewrite Hp.
    + intros H. destruct (IH _ H) as (datas' & more & -> & Hreq & Hp').
      exists (data :: datas'), more. simpl.
      rewrite Hreq, List.filter_app, pick_app, Hp. done.
Qed.

(** The locator does not stop at the first match: with at most one
    matching review, every page of the listing is asked for. *)
Lemma locator_exhausts_pagination userId datas :
  length (pending_of userId datas) <= 1 ->
  requested userId (map inr datas) None = map inr datas.
Proof.
  intros H.
  destruct (pending_of userId datas) as [|x [|y ms]] eqn:Hm; simpl in H; [| |lia].
  - eapply requested_all. by rewrite Hm.
  - eapply requested_all. by rewrite Hm.
Qed.

(** C4. When the listing yields two or more PENDING reviews of the caller,
    the run fails (exit status 1) and its trace holds no deletion, no posted
    comment, no fetch of comments and no file write: the files are as they
    were.  The pages asked for are a prefix of the listing that already
    shows two matches, so the pagination went on after the first match;
    and as long as the listing shows at most one match, the locator asks
    for every page of it. *)
Theorem C4_two_pending_reviews_fail_early
    stringify parse env opt files u datas rest :
  getAuthenticated env = inr u ->
  listReviews env = map inr datas ++ rest ->
  2 <= length (pending_of (user_id u) datas) ->
  exists e w datas' more,
    main stringify parse env opt (start files) = (inl e, w)
    /\ run stringify parse env opt (start files) = (1%Z, w)
    /\ fs w = files
    /\ Forall (fun ev => is_delete ev = false /\ is_create ev = false
                         /\ is_write ev = false /\ is_fetch ev = false) (trace w)
    /\ datas = datas' ++ more
    /\ pages_of (trace w) = map inr datas'
    /\ 2 <= length (pending_of (user_id u) datas')
    /\ (forall listed w0,
          length (pending_of (user_id u) listed) <= 1 ->
          pages_of (trace (snd (scan_pages (user_id u) (map inr listed) None w0)))
          = pages_of (trace w0) ++ map inr listed).
Proof.
  intros Hu Hpages Htwo.
  pose proof (locate_two (user_id u) datas rest Htwo) as Hloc.
  rewrite <- Hpages in Hloc.
  destruct (requested_until_ambiguous (user_id u) datas rest None too_many)
    as (datas' & more & Hsplit & Hreq & Hp); [by apply pick_two|].
  rewrite <- Hpages in Hreq.
  destruct (main_outcome stringify parse env opt files) as (res & w & Heq & Hout).
  outcome_cases Hout; rewrite Hu in *; try discriminate;
    match goal with H : inr _ = inr _ |- _ => injection H as <- end;
    rewrite Hloc in *; try discriminate.
  injection Hl as <-.
  eexists _, _, datas', more. unfold run. rewrite Heq. cbn [fs trace].
  repeat split; try done.
  - apply listing_quiet.
  - unfold listing. simpl. by rewrite Hreq, pages_of_map.
  - by eapply pick_inl_two.
  - intros listed w0 Hone. rewrite scan_pages_eq. cbn [snd trace].
    by rewrite pages_of_app, pages_of_map, locator_exhausts_pagination.
Qed.

(** C10. With more than one PENDING review of the caller, the error "More
    than one pending review?" is thrown inside the [try] block of the
    listing, so [main] fails with "Failed to fetch list of reviews for PR
    {pr}" whose [extra] is that ambiguity error. *)
Theorem C10_ambiguity_wrapped_as_listing_failure
    stringify parse env opt files u datas rest :
  getAuthenticated env = inr u ->
  listReviews env = map inr datas ++ rest ->
  2 <= length (pending_of (user_id u) datas) ->
  exists w,
    main stringify parse env opt (start files) =
      (inl (AppError
         ("Failed to fetch list of reviews for PR " +:+ pretty (pr opt))
         (Some (AppError "More than one pending review?" None))), w)
    /\ run stringify parse env opt (start files) = (1%Z, w).
Proof.
  intros Hu Hpages Htwo.
  pose proof (locate_two (user_id u) datas rest Htwo) as Hloc.
  rewrite <- Hpages in Hloc.
  destruct (main_outcome stringify parse env opt files) as (res & w & Heq & Hout).
  outcome_cases Hout; rewrite Hu in *; try discriminate;
    match goal with H : inr _ = inr _ |- _ => injection H as <- end;
    rewrite Hloc in *; try discriminate.
  injection Hl as <-.
  eexists. unfold run. by rewrite Heq.
Qed.

(** *** Reasoning on the position of an event in a trace *)

Lemma split_at_unique (P : Event -> bool) A x B pre y post :
  A ++ x :: B = pre ++ y :: post ->
  Forall (fun ev => P ev = false) A ->
  Forall (fun ev => P ev = false) B ->
  P y = true ->
  pre = A /\ y = x /\ post = B.
Proof.
  intros Heq HA HB Hy. revert pre Heq.
  induction HA as [|a A Ha _ IH]; intros [|p pre] Heq; simpl in Heq.
  - by injection Heq as <- <-.
  - injection Heq as <- ->.
    apply Forall_app in HB as [_ HB]. inversion HB; congruence.
  - injection Heq as <- _. congruence.
  - injection Heq as <- Heq. destruct (IH _ Heq) as (-> & -> & ->). done.
Qed.

Lemma no_such_event (P : Event -> bool) tr pre y post :
  tr = pre ++ y :: post ->
  Forall (fun ev => P ev = false) tr ->
  P y = true -> False.
Proof.
  intros -> H Hy. apply Forall_app in H as [_ H]. inversion H; congruence.
Qed.

Lemma creates_quiet (P : Event -> bool) tr :
  (forall req r, P (EvCreateComment req r) = false) ->
  Forall (fun ev => is_create ev = true) tr ->
  Forall (fun ev => P ev = false) tr.
Proof.
  intros HP. induction 1 as [|[] tr Hev _ IH]; constructor; auto; discriminate.
Qed.

Lemma dismissal_quiet (P : Event -> bool) reviewId :
  (forall r n, P (EvTimeoutNotify r n) = false) ->
  (forall r d, P (EvDeletePendingReview r d) = false) ->
  Forall (fun ev => P ev = false) (dismissal reviewId).
Proof. intros H1 H2. destruct reviewId; simpl; repeat constructor; auto. Qed.

Lemma obtained_quiet (P : Event -> bool) stringify parse env opt
    reviewId files t res files' evs :
  (forall r x, P (EvGetCommentsForReview r x) = false) ->
  (forall f d r, P (EvWriteFile f d r) = false) ->
  (forall f r, P (EvReadFile f r) = false) ->
  obtained stringify parse env opt reviewId files t res files' evs ->
  Forall (fun ev => P ev = false) evs.
Proof. intros H1 H2 H3 Hob. inversion Hob; subst; repeat constructor; auto. Qed.

(** [shift H] moves the first event after the prefix of the trace in [H]
    into the prefix. *)
Ltac shift H :=
  match type of H with
  | ?L ++ ?a :: ?rest = _ =>
      change (L ++ a :: rest) with (L ++ [a] ++ rest) in H;
      rewrite (app_assoc L [a] rest) in H
  end.

Ltac quiet :=
  repeat first
    [ apply List.Forall_nil
    | apply List.Forall_cons; [reflexivity|]
    | apply Forall_app; split
    | apply Forall_map_EvListReviews; reflexivity
    | apply dismissal_quiet; reflexivity
    | (eapply obtained_quiet; [reflexivity|reflexivity|reflexivity|eassumption])
    | (eapply creates_quiet; [reflexivity|eapply replayed_creates; eassumption]) ].

(** C1. In a run without [--load], a request to delete the pending review
    [r] is only made after the comments fetched for [r] have been written,
    verbatim and successfully, to the snapshot file: the trace before the
    deletion holds the fetch of the comments followed by the successful
    write of exactly these comments.  A failed write makes the run fail
    with "Failed to save comments into a file", the cause as [extra], and
    is the last event; when it is the first write of the run (the write of
    the snapshot), no deletion is requested at all. *)
Theorem C1_snapshot_written_before_dismantling
    stringify parse env opt files res w :
  load opt = None ->
  main stringify parse env opt (start files) = (res, w) ->
  (forall pre r d post,
     trace w = pre ++ EvDeletePendingReview r d :: post ->
     exists cs pre1 pre2,
       getCommentsForReview env r = inr cs
       /\ pre = pre1 ++ EvGetCommentsForReview r (inr cs)
                  :: EvWriteFile (save_file opt (Some r)) (stringify cs) None
                  :: pre2)
  /\ (forall pre file data e post,
        trace w = pre ++ EvWriteFile file data (Some e) :: post ->
        res = inl (AppError "Failed to save comments into a file" (Some e))
        /\ post = []
        /\ (Forall (fun ev => is_write ev = false) pre ->
            Forall (fun ev => is_delete ev = false) (trace w))).
Proof.
  intros Hload Hmain. apply main_inv in Hmain.
  outcome_cases Hmain; cbn [fs trace];
    try (inversion Hob; simplify_eq; destruct_or?; simplify_eq); loaded;
    cbn [dismissal];
    (split; [intros pre r' d post Heq|intros pre file data e' post Heq]);
    try (exfalso; eapply (no_such_event is_delete);
         [exact Heq|solve [unfold listing; quiet]|done]);
    try (exfalso; eapply (no_such_event is_failed_write);
         [exact Heq|solve [unfold listing; quiet]|done]).
  - (* the snapshot could not be written *)
    shift Heq.
    apply (split_at_unique is_failed_write) in Heq as (-> & Hev & ->);
      [| unfold listing; quiet | quiet | done].
    simplify_eq. repeat split. intros _. unfold listing; quiet.
  - (* the deletion failed *)
    cbn [app] in Heq. do 3 shift Heq.
    apply (split_at_unique is_delete) in Heq as (-> & Hev & ->);
      [| unfold listing; quiet | quiet | done].
    simplify_eq. rewrite <- !app_assoc.
    do 3 eexists. split; [eassumption|reflexivity].
  - (* the final write failed: the deletion *)
    cbn [app] in Heq. do 3 shift Heq.
    apply (split_at_unique is_delete) in Heq as (-> & Hev & ->);
      [| unfold listing; quiet | quiet | done].
    simplify_eq. rewrite <- !app_assoc.
    do 3 eexists. split; [eassumption|reflexivity].
  - (* the final write failed: the write *)
    rewrite !app_assoc in Heq.
    apply (split_at_unique is_failed_write) in Heq as (-> & Hev & ->);
      [| unfold listing; quiet | quiet | done].
    simplify_eq. repeat split. intros Hq. exfalso.
    rewrite <- !app_assoc in Hq.
    apply Forall_app in Hq as [_ Hq].
    apply Forall_inv_tail, Forall_inv in Hq. discriminate.
  - (* the run completed *)
    cbn [app] in Heq. do 3 shift Heq.
    apply (split_at_unique is_delete) in Heq as (-> & Hev & ->);
      [| unfold listing; quiet | quiet | done].
    simplify_eq. rewrite <- !app_assoc.
    do 3 eexists. split; [eassumption|reflexivity].
Qed.

(** *** The file a run writes to *)

Lemma not_in_quiet (P : Event -> bool) tr ev :
  Forall (fun ev => P ev = false) tr -> In ev tr -> P ev = true -> False.
Proof.
  intros H Hin Hev. rewrite List.Forall_forall in H.
  specialize (H _ Hin). congruence.
Qed.

Lemma after_failed_write_other env t file data files f :
  f <> file -> after_failed_write env t file data files !! f = files !! f.
Proof.
  intros Hf. unfold after_failed_write.
  destruct (tornWrite env t file data); [|done]. by rewrite lookup_insert_ne.
Qed.

Section Writes.

Variable stringify : list Comment -> string.
Variable parse : string -> option Loaded.
Variable env : Env.
Variable opt : Options.

Lemma obtained_writes reviewId files t res files' evs :
  obtained stringify parse env opt reviewId files t res files' evs ->
  (forall f d r, In (EvWriteFile f d r) evs -> f = save_file opt reviewId)
  /\ (forall f, f <> save_file opt reviewId -> files' !! f = files !! f).
Proof.
  intros Hob. inversion Hob; subst; simpl; split; intros;
    try done; destruct_or?; simplify_eq; try done;
    by rewrite ?after_failed_write_other, ?lookup_insert_ne.
Qed.

(** Every write of a run goes to [save_file], and no other file
    changes. *)
Lemma outcome_writes files res w u reviewId :
  outcome stringify parse env opt files res w ->
  getAuthenticated env = inr u ->
  locate (user_id u) (listReviews env) None = inr reviewId ->
  (forall f d r, In (EvWriteFile f d r) (trace w) -> f = save_file opt reviewId)
  /\ (forall f, f <> save_file opt reviewId -> fs w !! f = files !! f).
Proof.
  intros Hout Hu Hloc.
  outcome_cases Hout; same_run Hu Hloc;
    destruct (obtained_writes _ _ _ _ _ _ Hob) as [Hw1 Hw2];
    cbn [fs trace]; (split; [intros f d r' Hin|intros f Hf]);
    rewrite ?after_failed_write_other, ?lookup_insert_ne by done; auto;
    rewrite ?in_app_iff in Hin; destruct_or?; eauto;
    try (exfalso; eapply (not_in_quiet is_write);
         [|exact Hin|done]; solve [unfold listing; quiet]);
    try (simpl in Hin; destruct_or?; by simplify_eq).
Qed.

End Writes.

Lemma save_file_derived opt r :
  truthy (save opt) = false ->
  save_file opt (Some r) =
  org opt +:+ "_" +:+ repo opt +:+ "_" +:+ pretty (pr opt) +:+ "_"
    +:+ pretty r +:+ ".json".
Proof. intros H. unfold save_file. by rewrite H. Qed.

(** C9. When no save path is supplied and the listing shows one PENDING
    review of the caller, with id [R], the snapshot path is
    [{org}_{repo}_{pr}_{R}.json]: it depends on nothing else, every write
    of the run goes to that file, no other file changes, and in a run
    without [--load] the fetched comments are written there. *)
Theorem C9_snapshot_path_derived_from_review
    stringify parse env opt files u datas x res w :
  truthy (save opt) = false ->
  getAuthenticated env = inr u ->
  listReviews env = map inr datas ->
  pending_of (user_id u) datas = [x] ->
  main stringify parse env opt (start files) = (res, w) ->
  let file :=
    org opt +:+ "_" +:+ repo opt +:+ "_" +:+ pretty (pr opt) +:+ "_"
      +:+ pretty (review_id x) +:+ ".json" in
  save_file opt (Some (review_id x)) = file
  /\ (forall f data r, In (EvWriteFile f data r) (trace w) -> f = file)
  /\ (forall f, f <> file -> fs w !! f = files !! f)
  /\ (load opt = None ->
      forall cs, getCommentsForReview env (review_id x) = inr cs ->
      exists r, In (EvWriteFile file (stringify cs) r) (trace w)).
Proof.
  intros Hsave Hu Hpages Hone Hmain file.
  assert (Hloc : locate (user_id u) (listReviews env) None
                 = inr (Some (review_id x))).
  { by rewrite Hpages, locate_listing, Hone. }
  pose proof (save_file_derived opt (review_id x) Hsave) as Hfile.
  fold file in Hfile.
  apply main_inv in Hmain.
  destruct (outcome_writes _ _ _ _ _ _ _ _ _ Hmain Hu Hloc) as [Hw1 Hw2].
  rewrite Hfile in Hw1, Hw2.
  repeat split; try done.
  intros Hload fetched Hcs.
  outcome_cases Hmain; same_run Hu Hloc; cbn [trace];
    inversion Hob; simplify_eq; destruct_or?; simplify_eq;
    try match goal with
        | H : getCommentsForReview env _ = _ |- _ => rewrite Hcs in H
        end;
    simplify_eq;
    rewrite Hfile; eexists; rewrite !in_app_iff; simpl; eauto 10.
Qed.


(** *** The snapshot during the replay *)

Lemma split_in_middle (P : Event -> bool) A M B pre x post :
  A ++ M ++ B = pre ++ x :: post ->
  Forall (fun ev => P ev = false) A ->
  Forall (fun ev => P ev = false) B ->
  P x = true ->
  exists m1 m2, M = m1 ++ x :: m2 /\ pre = A ++ m1 /\ post = m2 ++ B.
Proof.
  intros Heq HA HB Hx. revert pre Heq.
  induction HA as [|a A Ha _ IH]; intros pre Heq.
  - simpl in Heq. revert pre Heq.
    induction M as [|m M IH]; intros pre Heq.
    + exfalso. simpl in Heq. by eapply (no_such_event P).
    + destruct pre as [|p pre]; simpl in Heq.
      * injection Heq as <- <-. by exists [], M.
      * injection Heq as <- Heq.
        destruct (IH _ Heq) as (m1 & m2 & -> & -> & ->).
        by exists (m :: m1), m2.
  - destruct pre as [|p pre]; simpl in Heq.
    + injection Heq as <- _. congruence.
    + injection Heq as <- Heq.
      destruct (IH _ Heq) as (m1 & m2 & -> & -> & ->).
      by exists m1, m2.
Qed.

(** The files follow the trace: they change at the writes only. *)

Lemma files_after_app env t evs1 evs2 files :
  files_after env t (evs1 ++ evs2) files
  = files_after env (t ++ evs1) evs2 (files_after env t evs1 files).
Proof.
  revert t files. induction evs1 as [|ev evs1 IH]; intros t files; simpl.
  - by rewrite app_nil_r.
  - rewrite IH. by rewrite <- app_assoc.
Qed.

Lemma files_after_quiet env t evs files :
  Forall (fun ev => is_write ev = false) evs -> files_after env t evs files = files.
Proof.
  intros H. revert t. induction H as [|[] evs Hev _ IH]; intros t; simpl;
    try done; apply IH.
Qed.

Lemma obtained_files stringify parse env opt reviewId files t res files' evs :
  obtained stringify parse env opt reviewId files t res files' evs ->
  files' = files_after env t evs files.
Proof. intros Hob. inversion Hob; subst; reflexivity. Qed.

Lemma outcome_files stringify parse env opt files res w :
  outcome stringify parse env opt files res w ->
  fs w = files_after env [] (trace w) files.
Proof.
  intros Hout.
  assert (Hlist : forall u, files_after env [] (listing env u) files = files).
  { intros u. apply files_after_quiet. unfold listing; quiet. }
  outcome_cases Hout; cbn [fs trace]; try done;
    rewrite ?files_after_app, ?Hlist, ?app_nil_l;
    rewrite <- ?(obtained_files _ _ _ _ _ _ _ _ _ _ Hob);
    rewrite ?(files_after_quiet _ _ (dismissal _)) by quiet;
    rewrite ?(files_after_quiet _ _ ps) by quiet;
    rewrite <- ?app_assoc; done.
Qed.

Lemma responses_app tr1 tr2 : responses (tr1 ++ tr2) = responses tr1 ++ responses tr2.
Proof.
  induction tr1 as [|[] tr1 IH]; simpl; try done. by rewrite IH.
Qed.

Lemma responses_quiet tr :
  Forall (fun ev => is_create ev = false) tr -> responses tr = [].
Proof. induction 1 as [|[] tr Hev _ IH]; simpl; try done. Qed.

Lemma fill_nil cs : unposted cs = [] -> fill cs [] = cs.
Proof.
  unfold unposted. induction cs as [|c cs IH]; simpl; [done|].
  destruct (new_id c); simpl; [|done]. intros H. by rewrite IH.
Qed.

Lemma replayed_fill env t cs cs' evs :
  replayed env t cs cs' evs ->
  cs' = fill cs (responses evs)
  /\ length (responses evs) = length (unposted cs).
Proof.
  unfold unposted.
  induction 1 as [|t c n cs cs' evs Hn _ [IH1 IH2]|t c n cs cs' evs Hn _ _ [IH1 IH2]
                 |t c e cs cs' evs Hn _ _ [IH1 IH2]]; simpl; rewrite ?Hn; simpl;
    rewrite <- ?IH1, ?IH2; done.
Qed.

(** Where the comments of a run come from, and what the disk holds once
    they are there. *)
Lemma obtained_from stringify parse env opt reviewId files t cs v files' evs :
  comments_from parse env opt files reviewId cs ->
  obtained stringify parse env opt reviewId files t (inr v) files' evs ->
  v = well_formed cs
  /\ Forall (fun ev => is_create ev = false) evs
  /\ (load opt = None -> files' !! save_file opt reviewId = Some (stringify cs))
  /\ (forall file, load opt = Some file -> files' = files).
Proof.
  intros Hsrc Hob. split; [|split; [by eapply obtained_quiet|]].
  - destruct Hsrc as [(r0 & -> & Hl0 & Hc0)|(file0 & data0 & Hl0 & Hne & Hf0 & Hp0)];
      inversion Hob; simplify_eq; congruence.
  - destruct Hsrc as [(r0 & -> & Hl0 & Hc0)|(file0 & data0 & Hl0 & Hne & Hf0 & Hp0)];
      inversion Hob; simplify_eq; (split; [intros Hnone|intros file1 Hsome]);
      try congruence.
    loaded. assert (cs = cs0) as -> by congruence. apply lookup_insert_eq.
Qed.

Lemma obtained_failure_from stringify parse env opt reviewId files t cs e files' evs :
  comments_from parse env opt files reviewId cs ->
  obtained stringify parse env opt reviewId files t (inl e) files' evs ->
  exists cause,
    load opt = None
    /\ e = AppError "Failed to save comments into a file" (Some cause)
    /\ last evs = Some (EvWriteFile (save_file opt reviewId) (stringify cs)
                          (Some cause))
    /\ Forall (fun ev => is_create ev = false) evs.
Proof.
  intros Hsrc Hob.
  destruct Hsrc as [(r0 & -> & Hl0 & Hc0)|(file0 & data0 & Hl0 & Hne & Hf0 & Hp0)];
    inversion Hob; simplify_eq; try congruence;
    try (destruct_or?; simplify_eq);
    try (destruct Hne; by eapply truthy_false_Some).
  assert (cs = cs0) as -> by congruence.
  eexists. repeat split; try done. quiet.
Qed.

(** C5 (as amended).  The snapshot is not re-written after every replay
    attempt.  In a run whose comments are those of the review or of a
    snapshot file, the trace is made of what comes before the replay, the
    create-comment requests of the pass, one for each comment without
    [new_id] and nothing in between, and then one write of the snapshot,
    which carries the ids returned in the pass and is the last event of the
    run whether it succeeds or not; a run that ends before the pass ends at
    a failed write of the first snapshot or at a failed deletion.  The
    files change at the writes only, so that at every point of the pass the
    disk still holds the snapshot written before the dismantling, or the
    loaded file as it was: a run that is stopped there loses every
    [new_id] of the pass and none of the comments. *)
Theorem C5_snapshot_rewritten_once_after_the_pass
    stringify parse env opt files u reviewId comments res w :
  getAuthenticated env = inr u ->
  locate (user_id u) (listReviews env) None = inr reviewId ->
  comments_from parse env opt files reviewId comments ->
  main stringify parse env opt (start files) = (res, w) ->
  fs w = files_after env [] (trace w) files
  /\ exists before attempts final,
       trace w = before ++ attempts ++ final
       /\ Forall (fun ev => is_create ev = false) before
       /\ Forall (fun ev => is_create ev = true) attempts
       /\ ((attempts = [] /\ final = []
            /\ ((exists e, last before
                           = Some (EvWriteFile (save_file opt reviewId)
                                     (stringify comments) (Some e)))
                \/ (exists r e, last before = Some (EvDeletePendingReview r (Some e)))))
           \/ (exists r,
                 final = [EvWriteFile (save_file opt reviewId)
                            (stringify (fill comments (responses attempts))) r]
                 /\ r = writeFile env (before ++ attempts) (save_file opt reviewId)
                          (stringify (fill comments (responses attempts)))
                 /\ res = match r with
                          | None => inr tt
                          | Some e =>
                              inl (AppError "Failed to save comments into a file"
                                     (Some e))
                          end
                 /\ posts attempts = map request_of (unposted comments)
                 /\ forall k,
                      (load opt = None ->
                       files_after env [] (before ++ take k attempts) files
                         !! save_file opt reviewId
                       = Some (stringify comments))
                      /\ (forall file,
                            load opt = Some file ->
                            files_after env [] (before ++ take k attempts) files
                            = files))).
Proof.
  intros Hu Hloc Hsrc Hmain. apply main_inv in Hmain.
  split; [by eapply outcome_files|].
  assert (Hlist : forall X, files_after env [] (listing env u) X = X).
  { intros X. apply files_after_quiet. unfold listing; quiet. }
  assert (Hdisk : forall v files' evs attempts k,
    obtained stringify parse env opt reviewId files (listing env u) (inr v)
      files' evs ->
    Forall (fun ev => is_create ev = true) attempts ->
    (load opt = None ->
     files_after env [] ((listing env u ++ evs ++ dismissal reviewId)
                           ++ take k attempts) files
       !! save_file opt reviewId = Some (stringify comments))
    /\ (forall file, load opt = Some file ->
        files_after env [] ((listing env u ++ evs ++ dismissal reviewId)
                              ++ take k attempts) files = files)).
  { intros v files' evs attempts k Hob Hcr.
    assert (Hpass : files_after env [] ((listing env u ++ evs ++ dismissal reviewId)
                                          ++ take k attempts) files = files').
    { rewrite <- !app_assoc. rewrite !files_after_app, Hlist, app_nil_l.
      rewrite <- (obtained_files _ _ _ _ _ _ _ _ _ _ Hob).
      rewrite (files_after_quiet _ _ (dismissal _)) by quiet.
      apply files_after_quiet.
      apply (creates_quiet is_write); [done|].
      by apply Forall_take. }
    rewrite Hpass.
    destruct (obtained_from _ _ _ _ _ _ _ _ _ _ _ Hsrc Hob) as (_ & _ & H1 & H2).
    split; [done|]. intros file Hfile. by eapply H2. }
  outcome_cases Hmain; same_run Hu Hloc; cbn [trace].
  - (* the comments could not be obtained: the first write failed *)
    destruct (obtained_failure_from _ _ _ _ _ _ _ _ _ _ _ Hsrc Hob)
      as (cause & Hnone & -> & Hlast & Hq).
    exists (listing env u' ++ evs), [], []. rewrite !app_nil_r.
    split; [done|]. split; [unfold listing; quiet|]. split; [done|].
    left. repeat split. left. exists cause.
    destruct evs as [|ev evs] using rev_ind; [done|].
    rewrite app_assoc, last_snoc. by rewrite last_snoc in Hlast.
  - (* the deletion failed *)
    exists (listing env u' ++ evs
              ++ [EvTimeoutNotify r 10; EvDeletePendingReview r (Some e)]), [], [].
    rewrite !app_nil_r.
    split; [done|]. split; [unfold listing; quiet|]. split; [done|].
    left. repeat split. right. exists r, e.
    change [EvTimeoutNotify r 10; EvDeletePendingReview r (Some e)]
      with ([EvTimeoutNotify r 10] ++ [EvDeletePendingReview r (Some e)]).
    by rewrite !app_assoc, last_snoc.
  - (* the write after the pass failed *)
    destruct (obtained_from _ _ _ _ _ _ _ _ _ _ _ Hsrc Hob) as (Hv & Hq & _).
    loaded. destruct (replayed_fill _ _ _ _ _ Hrep) as [-> _].
    eexists (listing env u' ++ evs ++ dismissal rid), ps, [_].
    split; [by rewrite <- !app_assoc|].
    split; [unfold listing; quiet|]. split; [by eapply replayed_creates|].
    right. eexists. split; [reflexivity|].
    rewrite <- !app_assoc, Hw. split; [done|]. split; [done|].
    split; [by eapply replayed_posts|].
    intros k. rewrite !app_assoc. rewrite <- (app_assoc (listing env u')).
    eapply Hdisk; [exact Hob|by eapply replayed_creates].
  - (* the run completed *)
    destruct (obtained_from _ _ _ _ _ _ _ _ _ _ _ Hsrc Hob) as (Hv & Hq & _).
    loaded. destruct (replayed_fill _ _ _ _ _ Hrep) as [-> _].
    eexists (listing env u' ++ evs ++ dismissal rid), ps, [_].
    split; [by rewrite <- !app_assoc|].
    split; [unfold listing; quiet|]. split; [by eapply replayed_creates|].
    right. eexists. split; [reflexivity|].
    rewrite <- !app_assoc, Hw. split; [done|]. split; [done|].
    split; [by eapply replayed_posts|].
    intros k. rewrite !app_assoc. rewrite <- (app_assoc (listing env u')).
    eapply Hdisk; [exact Hob|by eapply replayed_creates].
  - (* no element of the list is no comment *)
    destruct (obtained_from _ _ _ _ _ _ _ _ _ _ _ Hsrc Hob) as (-> & _).
    loaded.
Qed.

(** *** Runs that resume from a snapshot *)

Lemma posts_of_run env u evs d ps tail :
  Forall (fun ev => is_create ev = false) evs ->
  Forall (fun ev => is_create ev = false) d ->
  Forall (fun ev => is_create ev = false) tail ->
  posts (listing env u ++ evs ++ d ++ ps ++ tail) = posts ps
  /\ failed_posts (listing env u ++ evs ++ d ++ ps ++ tail) = failed_posts ps.
Proof.
  intros He Hd Ht.
  assert (Hl : Forall (fun ev => is_create ev = false) (listing env u))
    by (unfold listing; quiet).
  rewrite !posts_app, !failed_posts_app.
  rewrite (posts_quiet _ Hl), (posts_quiet _ He), (posts_quiet _ Hd),
    (posts_quiet _ Ht), (failed_posts_quiet _ Hl), (failed_posts_quiet _ He),
    (failed_posts_quiet _ Hd), (failed_posts_quiet _ Ht).
  simpl. by rewrite !app_nil_r.
Qed.

Lemma same_but_new_id_refl cs : Forall2 same_but_new_id cs cs.
Proof. induction cs; constructor; auto. by repeat split. Qed.

(** A run that loads a file holding the comments [saved] posts the comments
    of [saved] that have no [new_id], and no other; it posts all of them when
    it completes. *)
Lemma rerun_posts stringify parse env opt files file saved res w :
  (forall l, parse (stringify l) = Some (well_formed l)) ->
  load opt = Some file ->
  files !! file = Some (stringify saved) ->
  main stringify parse env opt (start files) = (res, w) ->
  (posts (trace w) = [] \/ posts (trace w) = map request_of (unposted saved))
  /\ (res = inr tt -> posts (trace w) = map request_of (unposted saved)).
Proof.
  intros Hrt Hload Hfile Hmain. apply main_inv in Hmain.
  assert (Hsame : forall rid t v files' evs,
    obtained stringify parse env opt rid files t (inr v) files' evs ->
    v = well_formed saved /\ Forall (fun ev => is_create ev = false) evs).
  { intros rid t v files' evs Hob.
    split; [|by eapply obtained_quiet].
    inversion Hob; simplify_eq. rewrite Hrt in *. by simplify_eq. }
  outcome_cases Hmain; cbn [trace];
    try (split; [left|done]; apply posts_quiet; solve [unfold listing; quiet]);
    try (destruct (Hsame _ _ _ _ _ Hob) as [-> _]; loaded).
  - destruct (Hsame _ _ _ _ _ Hob) as [Hv Hq]. loaded.
    destruct (posts_of_run env u' evs (dismissal rid) ps
                [EvWriteFile (save_file opt rid) (stringify cs') (Some e)])
      as [-> _]; [done|quiet|quiet|].
    rewrite (replayed_posts _ _ _ _ _ Hrep). by split; [right|].
  - destruct (Hsame _ _ _ _ _ Hob) as [Hv Hq]. loaded.
    destruct (posts_of_run env u' evs (dismissal rid) ps
                [EvWriteFile (save_file opt rid) (stringify cs') None])
      as [-> _]; [done|quiet|quiet|].
    rewrite (replayed_posts _ _ _ _ _ Hrep). by split; [right|].
Qed.

Lemma last_write_of_run tr ev file data r :
  last (tr ++ [ev]) = Some (EvWriteFile file data r) -> ev = EvWriteFile file data r.
Proof. rewrite last_snoc. by intros [= ->]. Qed.

(** The run of [replay] makes a request for each comment without [new_id],
    in order, and for no other. *)
Lemma replay_posts env cs w :
  posts (trace (snd (replay env (Some <$> cs) w)))
  = posts (trace w) ++ map request_of (unposted cs).
Proof.
  destruct w as [f t].
  destruct (replay_spec env (Some <$> cs) f t) as (cs' & evs & -> & Hrep).
  rewrite leading_well_formed in Hrep.
  cbn [snd trace]. by rewrite posts_app, (replayed_posts _ _ _ _ _ Hrep).
Qed.

(** C2. When a first run completes and none of its create-comment
    requests failed, a second run that loads the snapshot the first one
    wrote makes no create-comment request at all, whatever GitHub answers
    during the second run.  In general the replay loop makes a request for
    each comment without [new_id], in order, and none for a comment whose
    [new_id] is set. *)
Theorem C2_replay_twice_posts_nothing_more
    stringify parse env1 opt1 files w1 file data env2 opt2 res2 w2 :
  (forall l, parse (stringify l) = Some (well_formed l)) ->
  main stringify parse env1 opt1 (start files) = (inr tt, w1) ->
  failed_posts (trace w1) = [] ->
  last (trace w1) = Some (EvWriteFile file data None) ->
  load opt2 = Some file ->
  main stringify parse env2 opt2 (start (fs w1)) = (res2, w2) ->
  posts (trace w2) = []
  /\ (forall env cs w0,
        posts (trace (snd (replay env (Some <$> cs) w0)))
        = posts (trace w0) ++ map request_of (unposted cs)).
Proof.
  intros Hrt Hmain1 Hfail Hlast Hload Hmain2.
  split; [|apply replay_posts].
  apply main_inv in Hmain1.
  outcome_cases Hmain1. cbn [fs trace] in *.
  assert (Hq : Forall (fun ev => is_create ev = false) evs)
    by (by eapply obtained_quiet).
  destruct (posts_of_run env1 u' evs (dismissal rid) ps
              [EvWriteFile (save_file opt1 rid) (stringify cs') None])
    as [_ Hf]; [done|quiet|quiet|].
  rewrite Hf, (replayed_failed_posts _ _ _ _ _ Hrep) in Hfail.
  apply map_eq_nil in Hfail.
  rewrite !app_assoc in Hlast. apply last_write_of_run in Hlast.
  injection Hlast as <- <-.
  destruct (rerun_posts stringify parse env2 opt2 _ _ cs' res2 w2 Hrt Hload
              (lookup_insert_eq _ _ _) Hmain2) as [[H|H] _];
    [done|by rewrite H, Hfail].
Qed.

(** C3. Whatever the answers to the create-comment requests are (any of
    them may fail), a run in which the other calls succeed ends with exit
    status 0.  Every comment without [new_id] is attempted, in order; the
    comments come out of the replay unchanged up to [new_id]; those that
    still have no [new_id] are the ones whose request failed; the snapshot
    holds that list; and a later run loading the snapshot makes requests
    for the failed comments only: exactly for them when it completes. *)
Theorem C3_failed_post_is_not_fatal
    stringify parse env opt files u reviewId comments :
  (forall l, parse (stringify l) = Some (well_formed l)) ->
  getAuthenticated env = inr u ->
  locate (user_id u) (listReviews env) None = inr reviewId ->
  comments_from parse env opt files reviewId comments ->
  (forall r, reviewId = Some r -> deletePendingReview env r = None) ->
  (forall t file data, writeFile env t file data = None) ->
  exists w comments',
    run stringify parse env opt (start files) = (0%Z, w)
    /\ posts (trace w) = map request_of (unposted comments)
    /\ Forall2 same_but_new_id comments comments'
    /\ failed_posts (trace w) = map request_of (unposted comments')
    /\ sublist (unposted comments') (unposted comments)
    /\ fs w !! save_file opt reviewId = Some (stringify comments')
    /\ (forall env2 opt2 res2 w2,
          load opt2 = Some (save_file opt reviewId) ->
          main stringify parse env2 opt2 (start (fs w)) = (res2, w2) ->
          (posts (trace w2) = [] \/ posts (trace w2) = failed_posts (trace w))
          /\ (res2 = inr tt -> posts (trace w2) = failed_posts (trace w))).
Proof.
  intros Hrt Hu Hloc Hsrc Hdel Hwrite.
  destruct (main_outcome stringify parse env opt files) as (res & w & Heq & Hout).
  assert (Hsame : forall res' files' evs,
    obtained stringify parse env opt reviewId files (listing env u) res' files' evs ->
    res' = inr (well_formed comments)).
  { intros res' files' evs Hob.
    destruct Hsrc as [(r0 & -> & Hl0 & Hc0)|(file0 & data0 & Hl0 & Hne & Hf0 & Hp0)];
      inversion Hob; simplify_eq; try congruence;
      try (destruct_or?; simplify_eq);
      try match goal with
          | H : truthy (load opt) = false |- _ =>
              destruct Hne; by eapply truthy_false_Some
          end;
      rewrite ?Hwrite in *; congruence. }
  outcome_cases Hout; same_run Hu Hloc;
    try (apply Hsame in Hob as Hres; discriminate Hres);
    try (rewrite (Hdel _ eq_refl) in *; discriminate);
    try (rewrite Hwrite in *; discriminate);
    try (pose proof (Hsame _ _ _ Hob) as [= ->]; loaded).
  pose proof (Hsame _ _ _ Hob) as [= Hv]. loaded.
  assert (Hq : Forall (fun ev => is_create ev = false) evs)
    by (by eapply obtained_quiet).
  destruct (posts_of_run env u' evs (dismissal rid) ps
              [EvWriteFile (save_file opt rid) (stringify cs') None])
    as [Hp Hf]; [done|quiet|quiet|].
  exists {| fs := <[save_file opt rid := stringify cs']> files';
            trace := listing env u' ++ evs ++ dismissal rid ++ ps
                       ++ [EvWriteFile (save_file opt rid) (stringify cs') None] |},
         cs'.
  unfold run. rewrite Heq. cbn [fs trace]. rewrite Hp, Hf.
  repeat split.
  - by eapply replayed_posts.
  - by eapply replayed_frame.
  - by eapply replayed_failed_posts.
  - by eapply replayed_unposted_sublist.
  - apply lookup_insert_eq.
  - rewrite (replayed_failed_posts _ _ _ _ _ Hrep).
    eapply (rerun_posts stringify parse env2 opt2); eauto.
    apply lookup_insert_eq.
  - rewrite (replayed_failed_posts _ _ _ _ _ Hrep).
    eapply (rerun_posts stringify parse env2 opt2); eauto.
    apply lookup_insert_eq.
Qed.

(** *** Runs with [--load] *)

(** C7 (as amended).  With a load path whose file holds a list of
    comments, the fetch of the comments of the review and the write of the
    snapshot before the replay are bypassed: the run writes once at most,
    after the replay, and that write carries the loaded comments with the
    ids returned in this run.  The replay works on the comments of the
    loaded file, whether the listing finds a review or not: the requests
    are those for the loaded comments without [new_id], all of them unless
    the run has failed before the replay.  The identity lookup and the
    listing of the reviews are not skipped: they come first, the read of
    the file next.  With no pending review, nothing is deleted and the run
    goes from the read straight to the requests. *)
Theorem C7_load_bypasses_only_the_snapshot
    stringify parse env opt files file data saved u reviewId res w :
  load opt = Some file ->
  file <> "" ->
  files !! file = Some data ->
  parse data = Some (well_formed saved) ->
  getAuthenticated env = inr u ->
  locate (user_id u) (listReviews env) None = inr reviewId ->
  main stringify parse env opt (start files) = (res, w) ->
  (exists rest, trace w = listing env u ++ EvReadFile file (Some data) :: rest)
  /\ Forall (fun ev => is_fetch ev = false) (trace w)
  /\ (forall pre f d r post,
        trace w = pre ++ EvWriteFile f d r :: post ->
        post = []
        /\ f = save_file opt reviewId
        /\ d = stringify (fill saved (responses pre))
        /\ posts pre = map request_of (unposted saved))
  /\ (posts (trace w) = map request_of (unposted saved)
      \/ posts (trace w) = [] /\ exists e, res = inl e)
  /\ (reviewId = None ->
        exists attempts r,
          trace w = listing env u ++ EvReadFile file (Some data) :: attempts
                      ++ [EvWriteFile (save_file opt None)
                            (stringify (fill saved (responses attempts))) r]
          /\ Forall (fun ev => is_create ev = true) attempts
          /\ posts attempts = map request_of (unposted saved)
          /\ Forall (fun ev => is_delete ev = false) (trace w)).
Proof.
  intros Hload Hne Hfile Hparse Hu Hloc Hmain.
  apply main_inv in Hmain.
  assert (Hsame : forall res' files' evs,
    obtained stringify parse env opt reviewId files (listing env u) res' files' evs ->
    res' = inr (well_formed saved) /\ files' = files
    /\ evs = [EvReadFile file (Some data)]).
  { intros res' files' evs Hob.
    inversion Hob; simplify_eq; try done.
    destruct Hne. by eapply truthy_false_Some. }
  assert (Hfinal : forall cs' ps r,
    replayed env (listing env u ++ [EvReadFile file (Some data)] ++ dismissal reviewId)
      saved cs' ps ->
    let tr := listing env u ++ [EvReadFile file (Some data)] ++ dismissal reviewId
                ++ ps ++ [EvWriteFile (save_file opt reviewId) (stringify cs') r] in
    (forall pre f d r' post,
       tr = pre ++ EvWriteFile f d r' :: post ->
       post = []
       /\ f = save_file opt reviewId
       /\ d = stringify (fill saved (responses pre))
       /\ posts pre = map request_of (unposted saved))
    /\ posts tr = map request_of (unposted saved)
    /\ (reviewId = None ->
        exists attempts r0,
          tr = listing env u ++ EvReadFile file (Some data) :: attempts
                 ++ [EvWriteFile (save_file opt None)
                       (stringify (fill saved (responses attempts))) r0]
          /\ Forall (fun ev => is_create ev = true) attempts
          /\ posts attempts = map request_of (unposted saved)
          /\ Forall (fun ev => is_delete ev = false) tr)).
  { intros cs' ps r Hrep tr.
    destruct (replayed_fill _ _ _ _ _ Hrep) as [Hfill _].
    destruct (posts_of_run env u [EvReadFile file (Some data)] (dismissal reviewId)
                ps [EvWriteFile (save_file opt reviewId) (stringify cs') r])
      as [Hposts _]; [quiet|quiet|quiet|].
    split; [|split].
    - intros pre f d r' post Heq. unfold tr in Heq. rewrite !app_assoc in Heq.
      apply (split_at_unique is_write) in Heq as (-> & Hev & ->);
        [| solve [unfold listing; quiet] | quiet | done].
      injection Hev as -> -> ->. split; [done|]. split; [done|].
      rewrite <- !app_assoc. rewrite !responses_app, !posts_app.
      rewrite (responses_quiet (listing env u)) by (unfold listing; quiet).
      rewrite (posts_quiet (listing env u)) by (unfold listing; quiet).
      rewrite (responses_quiet (dismissal reviewId)) by quiet.
      rewrite (posts_quiet (dismissal reviewId)) by quiet.
      simpl. rewrite <- Hfill. split; [done|]. by eapply replayed_posts.
    - unfold tr. rewrite Hposts. by eapply replayed_posts.
    - intros ->. exists ps, r. unfold tr. simpl. rewrite Hfill.
      split; [done|]. split; [by eapply replayed_creates|].
      split; [by eapply replayed_posts|]. unfold listing; quiet. }
  outcome_cases Hmain; same_run Hu Hloc;
    destruct (Hsame _ _ _ Hob) as (Hres & -> & ->); simplify_eq; loaded;
    cbn [trace].
  - (* the deletion failed *)
    split; [by eexists|]. split; [unfold listing; quiet|].
    split; [|split; [|done]].
    + intros pre f d r' post Heq. exfalso.
      eapply (no_such_event is_write); [exact Heq| |done]. unfold listing; quiet.
    + right. split; [|by eexists]. apply posts_quiet. unfold listing; quiet.
  - (* the write after the replay failed *)
    destruct (Hfinal _ _ (Some e) Hrep) as (H1 & H2 & H3).
    split; [by eexists|]. split; [unfold listing; quiet|].
    split; [exact H1|]. split; [by left|exact H3].
  - (* the run completed *)
    destruct (Hfinal _ _ None Hrep) as (H1 & H2 & H3).
    split; [by eexists|]. split; [unfold listing; quiet|].
    split; [exact H1|]. split; [by left|exact H3].
Qed.

(** *** What the snapshot holds *)

Section Snapshot.

Variable stringify : list Comment -> string.
Variable parse : string -> option Loaded.
Variable env : Env.
Variable opt : Options.

(** A write made while the comments are obtained is the write of the
    comments that were just fetched. *)
Lemma obtained_written reviewId files t res files' evs file data result :
  obtained stringify parse env opt reviewId files t res files' evs ->
  In (EvWriteFile file data result) evs ->
  exists r fetched,
    In (EvGetCommentsForReview r (inr fetched)) evs /\ data = stringify fetched.
Proof.
  intros Hob Hin.
  inversion Hob; subst; simpl in Hin; destruct_or?; simplify_eq; try done;
    do 2 eexists; (split; [by left|done]).
Qed.

(** The comments to replay were fetched or read during the run. *)
Lemma obtained_source reviewId files t cs files' evs :
  obtained stringify parse env opt reviewId files t (inr (well_formed cs)) files' evs ->
  (exists r, In (EvGetCommentsForReview r (inr cs)) evs)
  \/ (exists f d, In (EvReadFile f (Some d)) evs
                  /\ parse d = Some (well_formed cs)).
Proof.
  intros Hob. inversion Hob; subst; loaded.
  - left. eexists. by left.
  - right. do 2 eexists. split; [by left|done].
Qed.

End Snapshot.

(** C8. The comments change in [new_id] only, and the snapshot holds them
    without loss.  In every run: the fetch of the comments of the review is
    at once followed by the write of exactly the fetched list, which parses
    back to that list, equal in content and order; whatever is written to
    the snapshot is the text of a list that parses back to itself and that
    is, comment by comment and in order, the list fetched or loaded in this
    run up to [new_id], a [new_id] that was set being kept.  The replay loop
    never fails, touches no file and returns such a list. *)
Theorem C8_comments_immutable_and_snapshot_round_trips
    stringify parse env opt files res w :
  (forall l, parse (stringify l) = Some (well_formed l)) ->
  main stringify parse env opt (start files) = (res, w) ->
  (forall pre r fetched post,
     trace w = pre ++ EvGetCommentsForReview r (inr fetched) :: post ->
     exists file result post',
       post = EvWriteFile file (stringify fetched) result :: post'
       /\ parse (stringify fetched) = Some (well_formed fetched))
  /\ (forall file data result,
        In (EvWriteFile file data result) (trace w) ->
        exists original written,
          ((exists r, In (EvGetCommentsForReview r (inr original)) (trace w))
           \/ (exists f d, In (EvReadFile f (Some d)) (trace w)
                           /\ parse d = Some (well_formed original)))
          /\ data = stringify written
          /\ parse data = Some (well_formed written)
          /\ Forall2 same_but_new_id original written)
  /\ (forall env' comments w0,
        exists comments',
          replay env' (Some <$> comments) w0
            = (inr comments',
               {| fs := fs w0;
                  trace := trace (snd (replay env' (Some <$> comments) w0)) |})
          /\ Forall2 same_but_new_id comments comments').
Proof.
  intros Hrt Hmain. apply main_inv in Hmain.
  split; [|split].
  - (* the write that follows the fetch *)
    intros pre r0 fetched post Heq.
    outcome_cases Hmain; cbn [trace] in Heq;
      try (inversion Hob; subst); cbn [app] in Heq;
      try (exfalso; eapply (no_such_event is_fetch);
           [exact Heq|solve [unfold listing; quiet]|done]);
      (apply (split_at_unique is_fetch) in Heq as (-> & Hev & ->);
        [| solve [unfold listing; quiet] | solve [quiet] | done]);
      simplify_eq; eauto.
  - (* what is written *)
    intros file data result Hin.
    assert (Hevs : forall rid files' res' evs t,
      obtained stringify parse env opt rid files t res' files' evs ->
      In (EvWriteFile file data result) evs ->
      forall tr, (forall ev, In ev evs -> In ev tr) ->
      exists original written,
        ((exists r, In (EvGetCommentsForReview r (inr original)) tr)
         \/ (exists f d, In (EvReadFile f (Some d)) tr
                         /\ parse d = Some (well_formed original)))
        /\ data = stringify written
        /\ parse data = Some (well_formed written)
        /\ Forall2 same_but_new_id original written).
    { intros rid files' res' evs t Hob Hi tr Htr.
      destruct (obtained_written _ _ _ _ _ _ _ _ _ _ _ _ _ Hob Hi)
        as (r0 & fetched & Hf & ->).
      exists fetched, fetched. repeat split; eauto using same_but_new_id_refl. }
    assert (Hfinal : forall rid files' original evs t written ps tr,
      obtained stringify parse env opt rid files t (inr (well_formed original))
        files' evs ->
      replayed env (t ++ evs ++ dismissal rid) original written ps ->
      data = stringify written ->
      (forall ev, In ev evs -> In ev tr) ->
      exists original written,
        ((exists r, In (EvGetCommentsForReview r (inr original)) tr)
         \/ (exists f d, In (EvReadFile f (Some d)) tr
                         /\ parse d = Some (well_formed original)))
        /\ data = stringify written
        /\ parse data = Some (well_formed written)
        /\ Forall2 same_but_new_id original written).
    { intros rid files' original evs t written ps tr Hob Hrep -> Htr.
      exists original, written. repeat split; eauto using replayed_frame.
      destruct (obtained_source _ _ _ _ _ _ _ _ _ _ Hob) as [[r0 H]|(f & d & H & Hp)];
        [left|right]; eauto 10. }
    outcome_cases Hmain; cbn [trace] in *;
      rewrite ?in_app_iff in Hin; simpl in Hin; destruct_or?; simplify_eq;
      try (exfalso; eapply (not_in_quiet is_write);
           [|exact Hin|done]; solve [unfold listing; quiet]);
      try (eapply Hevs; [exact Hob|exact Hin|];
           intros ev Hev; rewrite !in_app_iff; by auto);
      try (eapply Hfinal; [exact Hob|exact Hrep|reflexivity|];
           intros ev Hev; rewrite !in_app_iff; by auto).
  - (* the replay loop *)
    intros env' comments [f t].
    destruct (replay_spec env' (Some <$> comments) f t)
      as (comments' & evs & Heq & Hrep).
    change (Items (Some <$> comments)) with (well_formed comments) in Heq.
    rewrite whole_well_formed in Heq. rewrite leading_well_formed in Hrep.
    exists comments'. rewrite Heq. split; [done|]. by eapply replayed_frame.
Qed.

(** ** The properties at work on the pull request of [Scenario] *)

Import Scenario.

(** The first run on the stuck review: snapshot, dismantling, two posts,
    snapshot. *)
Lemma first_run_trace :
  first_run =
  (inr tt,
   {| fs := {[ snapshot := Json.stringify [set_new_id c10 1007; set_new_id c11 1008] ]};
      trace :=
        [EvGetAuthenticated (inr me);
         EvListReviews (inr [approved]);
         EvListReviews (inr [review555]);
         EvGetCommentsForReview 555 (inr [c10; c11]);
         EvWriteFile snapshot (Json.stringify [c10; c11]) None;
         EvTimeoutNotify 555 10;
         EvDeletePendingReview 555 None;
         EvCreateComment (request_of c10) (inr 1007%positive);
         EvCreateComment (request_of c11) (inr 1008%positive);
         EvWriteFile snapshot
           (Json.stringify [set_new_id c10 1007; set_new_id c11 1008]) None] |}).
Proof. vm_compute. reflexivity. Qed.

(** After the post of the comment on [src/main.js] has failed, a run that
    loads the snapshot posts that comment and no other. *)
Lemma resume_after_flaky_run :
  fst flaky_run = inr tt
  /\ failed_posts (trace (snd flaky_run)) = [request_of c10]
  /\ fs (snd flaky_run) !! snapshot
     = Some (Json.stringify [c10; set_new_id c11 1008])
  /\ posts (trace (snd (main Json.stringify Json.parse github_after opts_load
                          (start (fs (snd flaky_run))))))
     = [request_of c10].
Proof. repeat split; vm_compute; reflexivity. Qed.

Lemma C1_witness :
  load opts = None
  /\ exists cs pre1 pre2,
       getCommentsForReview github 555 = inr cs
       /\ [EvGetAuthenticated (inr me);
           EvListReviews (inr [approved]);
           EvListReviews (inr [review555]);
           EvGetCommentsForReview 555 (inr [c10; c11]);
           EvWriteFile snapshot (Json.stringify [c10; c11]) None;
           EvTimeoutNotify 555 10]
          = pre1 ++ EvGetCommentsForReview 555 (inr cs)
              :: EvWriteFile (save_file opts (Some 555%positive)) (Json.stringify cs) None
              :: pre2.
Proof.
  split; [reflexivity|].
  refine (proj1 (C1_snapshot_written_before_dismantling
                   Json.stringify Json.parse github opts ∅
                   (fst first_run) (snd first_run) eq_refl _)
            _ 555%positive None
            [EvCreateComment (request_of c10) (inr 1007%positive);
             EvCreateComment (request_of c11) (inr 1008%positive);
             EvWriteFile snapshot
               (Json.stringify [set_new_id c10 1007; set_new_id c11 1008]) None] _).
  - vm_compute. reflexivity.
  - vm_compute. reflexivity.
Defined.

Lemma C2_witness :
  failed_posts (trace (snd first_run)) = []
  /\ posts (trace (snd (main Json.stringify Json.parse github_after opts_load
                         (start (fs (snd first_run)))))) = [].
Proof.
  split; [vm_compute; reflexivity|].
  refine (proj1 (C2_replay_twice_posts_nothing_more
                   Json.stringify Json.parse github opts ∅ (snd first_run)
                   snapshot
                   (Json.stringify [set_new_id c10 1007; set_new_id c11 1008])
                   github_after opts_load
                   (fst (main Json.stringify Json.parse github_after opts_load
                           (start (fs (snd first_run)))))
                   (snd (main Json.stringify Json.parse github_after opts_load
                           (start (fs (snd first_run)))))
                   JsonFacts.parse_stringify _ _ _ eq_refl _)).
  - vm_compute. reflexivity.
  - vm_compute. reflexivity.
  - vm_compute. reflexivity.
  - vm_compute. reflexivity.
Defined.

Lemma C3_witness :
  exists w comments',
    run Json.stringify Json.parse github_flaky opts (start ∅) = (0%Z, w)
    /\ posts (trace w) = [request_of c10; request_of c11]
    /\ failed_posts (trace w) = map request_of (unposted comments')
    /\ fs w !! snapshot = Some (Json.stringify comments').
Proof.
  destruct (C3_failed_post_is_not_fatal
              Json.stringify Json.parse github_flaky opts ∅ me
              (Some 555%positive) [c10; c11])
    as (w & comments' & Hrun & Hposts & _ & Hfailed & _ & Hfile & _).
  - apply JsonFacts.parse_stringify.
  - reflexivity.
  - vm_compute. reflexivity.
  - left. exists 555%positive. repeat split; reflexivity.
  - intros r _. reflexivity.
  - intros t file data. reflexivity.
  - exists w, comments'. repeat split; assumption.
Defined.

Lemma C4_witness :
  2 <= length (pending_of 42 [[review555]; [approved; review556]])
  /\ exists e w datas' more,
       main Json.stringify Json.parse github_two opts (start ∅) = (inl e, w)
       /\ run Json.stringify Json.parse github_two opts (start ∅) = (1%Z, w)
       /\ fs w = ∅
       /\ Forall (fun ev => is_delete ev = false /\ is_create ev = false
                            /\ is_write ev = false /\ is_fetch ev = false) (trace w)
       /\ [[review555]; [approved; review556]] = datas' ++ more
       /\ pages_of (trace w) = map inr datas'
       /\ 2 <= length (pending_of 42 datas')
       /\ (forall listed w0,
             length (pending_of 42 listed) <= 1 ->
             pages_of (trace (snd (scan_pages 42 (map inr listed) None w0)))
             = pages_of (trace w0) ++ map inr listed).
Proof.
  split; [vm_compute; lia|].
  apply (C4_two_pending_reviews_fail_early
           Json.stringify Json.parse github_two opts ∅ me
           [[review555]; [approved; review556]]
           [inl (Failure "500 Internal Server Error")]).
  - reflexivity.
  - reflexivity.
  - vm_compute. lia.
Defined.

(** The first run posts the comments 10 and 11 one after the other: no
    write of the snapshot comes between the two requests. *)
Lemma C5_counterexample :
  saved_after_each_attempt (trace (snd first_run)) = false.
Proof. vm_compute. reflexivity. Qed.

Lemma C5_witness :
  fs (snd flaky_run) = files_after github_flaky [] (trace (snd flaky_run)) ∅
  /\ exists before attempts final,
       trace (snd flaky_run) = before ++ attempts ++ final
       /\ Forall (fun ev => is_create ev = false) before
       /\ Forall (fun ev => is_create ev = true) attempts
       /\ ((attempts = [] /\ final = []
            /\ ((exists e, last before
                           = Some (EvWriteFile (save_file opts (Some 555%positive))
                                     (Json.stringify [c10; c11]) (Some e)))
                \/ (exists r e, last before = Some (EvDeletePendingReview r (Some e)))))
           \/ (exists r,
                 final = [EvWriteFile (save_file opts (Some 555%positive))
                            (Json.stringify
                               (fill [c10; c11] (responses attempts))) r]
                 /\ r = writeFile github_flaky (before ++ attempts)
                          (save_file opts (Some 555%positive))
                          (Json.stringify (fill [c10; c11] (responses attempts)))
                 /\ fst flaky_run
                    = match r with
                      | None => inr tt
                      | Some e =>
                          inl (AppError "Failed to save comments into a file"
                                 (Some e))
                      end
                 /\ posts attempts = map request_of (unposted [c10; c11])
                 /\ forall k,
                      (load opts = None ->
                       files_after github_flaky [] (before ++ take k attempts) ∅
                         !! save_file opts (Some 555%positive)
                       = Some (Json.stringify [c10; c11]))
                      /\ (forall file,
                            load opts = Some file ->
                            files_after github_flaky []
                              (before ++ take k attempts) ∅ = ∅))).
Proof.
  apply (C5_snapshot_rewritten_once_after_the_pass
           Json.stringify Json.parse github_flaky opts ∅ me (Some 555%positive)
           [c10; c11] (fst flaky_run) (snd flaky_run)).
  - reflexivity.
  - reflexivity.
  - left. exists 555%positive. repeat split.
  - vm_compute. reflexivity.
Defined.

Lemma C6_witness :
  pending_of 42 [[approved]] = []
  /\ truthy (load opts) = false
  /\ exists w,
       main Json.stringify Json.parse github_after opts (start ∅) =
         (inl (AppError
            "No pending review for PR 1234 and no --load option specified" None), w)
       /\ run Json.stringify Json.parse github_after opts (start ∅) = (1%Z, w)
       /\ fs w = ∅
       /\ trace w = [EvGetAuthenticated (inr me); EvListReviews (inr [approved])]
       /\ Forall (fun ev => is_mutation ev = false) (trace w).
Proof.
  split; [reflexivity|]. split; [reflexivity|].
  apply (C6_no_pending_no_load_fails
           Json.stringify Json.parse github_after opts ∅ me [[approved]]);
    reflexivity.
Defined.

(** With [--load] and no review pending, the identity lookup and the
    listing of the reviews still run before the file is read. *)
Lemma C7_counterexample :
  load opts_load = Some snapshot
  /\ trace (snd (main Json.stringify Json.parse github_after opts_load (start disk)))
     = [EvGetAuthenticated (inr me);
        EvListReviews (inr [approved]);
        EvReadFile snapshot (Some (Json.stringify [c10; c11]));
        EvCreateComment (request_of c10) (inr 1003%positive);
        EvCreateComment (request_of c11) (inr 1004%positive);
        EvWriteFile snapshot
          (Json.stringify [set_new_id c10 1003; set_new_id c11 1004]) None]
  /\ skips_steps_1_2_4
       (trace (snd (main Json.stringify Json.parse github_after opts_load
                      (start disk))))
     = false.
Proof. repeat split; vm_compute; reflexivity. Qed.

Lemma C7_witness :
  (exists attempts r,
     trace (snd (main Json.stringify Json.parse github_after opts_load (start disk)))
     = listing github_after me
         ++ EvReadFile snapshot (Some (Json.stringify [c10; c11])) :: attempts
         ++ [EvWriteFile (save_file opts_load None)
               (Json.stringify (fill [c10; c11] (responses attempts))) r]
     /\ Forall (fun ev => is_create ev = true) attempts
     /\ posts attempts = map request_of (unposted [c10; c11])
     /\ Forall (fun ev => is_delete ev = false)
          (trace (snd (main Json.stringify Json.parse github_after opts_load
                         (start disk)))))
  /\ Forall (fun ev => is_fetch ev = false)
       (trace (snd (main Json.stringify Json.parse github opts_load (start disk))))
  /\ (posts (trace (snd (main Json.stringify Json.parse github opts_load
                           (start disk))))
      = map request_of (unposted [c10; c11])
      \/ posts (trace (snd (main Json.stringify Json.parse github opts_load
                              (start disk)))) = []
         /\ exists e,
              fst (main Json.stringify Json.parse github opts_load (start disk))
              = inl e).
Proof.
  split.
  - destruct (C7_load_bypasses_only_the_snapshot
                Json.stringify Json.parse github_after opts_load disk
                snapshot (Json.stringify [c10; c11]) [c10; c11] me None
                (fst (main Json.stringify Json.parse github_after opts_load
                        (start disk)))
                (snd (main Json.stringify Json.parse github_after opts_load
                        (start disk))))
      as (_ & _ & _ & _ & Hnone).
    + reflexivity.
    + discriminate.
    + vm_compute. reflexivity.
    + apply JsonFacts.parse_stringify.
    + reflexivity.
    + vm_compute. reflexivity.
    + vm_compute. reflexivity.
    + exact (Hnone eq_refl).
  - destruct (C7_load_bypasses_only_the_snapshot
                Json.stringify Json.parse github opts_load disk
                snapshot (Json.stringify [c10; c11]) [c10; c11] me
                (Some 555%positive)
                (fst (main Json.stringify Json.parse github opts_load (start disk)))
                (snd (main Json.stringify Json.parse github opts_load (start disk))))
      as (_ & Hfetch & _ & Hposts & _).
    + reflexivity.
    + discriminate.
    + vm_compute. reflexivity.
    + apply JsonFacts.parse_stringify.
    + reflexivity.
    + vm_compute. reflexivity.
    + vm_compute. reflexivity.
    + split; [exact Hfetch|exact Hposts].
Defined.

Lemma C8_witness :
  exists file result post',
    [EvWriteFile snapshot (Json.stringify [c10; c11]) None;
     EvTimeoutNotify 555 10;
     EvDeletePendingReview 555 None;
     EvCreateComment (request_of c10) (inl (Failure "502 Bad Gateway"));
     EvCreateComment (request_of c11) (inr 1008%positive);
     EvWriteFile snapshot (Json.stringify [c10; set_new_id c11 1008]) None]
    = EvWriteFile file (Json.stringify [c10; c11]) result :: post'
    /\ Json.parse (Json.stringify [c10; c11]) = Some (well_formed [c10; c11]).
Proof.
  refine (proj1 (C8_comments_immutable_and_snapshot_round_trips
                   Json.stringify Json.parse github_flaky opts ∅
                   (fst flaky_run) (snd flaky_run)
                   JsonFacts.parse_stringify _)
            [EvGetAuthenticated (inr me);
             EvListReviews (inr [approved]);
             EvListReviews (inr [review555])]
            555%positive [c10; c11] _ _).
  - vm_compute. reflexivity.
  - vm_compute. reflexivity.
Defined.

Lemma C9_witness :
  truthy (save opts) = false
  /\ pending_of 42 [[approved]; [review555]] = [review555]
  /\ save_file opts (Some 555%positive) = "org_repo_1234_555.json"
  /\ (forall f data r,
        In (EvWriteFile f data r) (trace (snd first_run)) ->
        f = "org_repo_1234_555.json").
Proof.
  split; [reflexivity|]. split; [reflexivity|].
  destruct (C9_snapshot_path_derived_from_review
              Json.stringify Json.parse github opts ∅ me
              [[approved]; [review555]] review555
              (fst first_run) (snd first_run))
    as (Hfile & Hwrites & _).
  - reflexivity.
  - reflexivity.
  - reflexivity.
  - reflexivity.
  - vm_compute. reflexivity.
  - split; [exact Hfile|exact Hwrites].
Defined.

Lemma C10_witness :
  2 <= length (pending_of 42 [[review555]; [approved; review556]])
  /\ exists w,
       main Json.stringify Json.parse github_two opts (start ∅) =
         (inl (AppError "Failed to fetch list of reviews for PR 1234"
                 (Some (AppError "More than one pending review?" None))), w)
       /\ run Json.stringify Json.parse github_two opts (start ∅) = (1%Z, w).
Proof.
  split; [vm_compute; lia|].
  apply (C10_ambiguity_wrapped_as_listing_failure
           Json.stringify Json.parse github_two opts ∅ me
           [[review555]; [approved; review556]]
           [inl (Failure "500 Internal Server Error")]).
  - reflexivity.
  - reflexivity.
  - vm_compute. lia.
Defined.

(** ** Further properties of the code *)

(** *** The countdown *)

Lemma slept_app t1 t2 : slept (t1 ++ t2) = (slept t1 + slept t2)%N.
Proof.
  induction t1 as [|[] t1 IH]; simpl; rewrite ?IH; lia.
Qed.

Lemma slept_rounds (l : list Z) :
  slept (concat (countdown_round <$> l)) = (1000 * N.of_nat (length l))%N.
Proof.
  induction l as [|z l IH]; [done|].
  rewrite fmap_cons. cbn [concat length]. rewrite slept_app, IH.
  change (slept (countdown_round z)) with 1000%N. lia.
Qed.

Lemma countdown_spec k fuel :
  S k <= fuel ->
  countdown fuel (Z.of_nat (S k))
  = Some (concat (countdown_round <$> reverse (seqZ 1 (Z.of_nat (S k))))).
Proof.
  revert fuel. induction k as [|k IH]; intros [|fuel] Hf; try lia.
  - cbn [countdown]. change (Z.of_nat 1 - 1 =? 0)%Z with true. cbv iota.
    change (seqZ 1 (Z.of_nat 1)) with [1%Z].
    change (reverse [1%Z]) with [1%Z]. reflexivity.
  - cbn [countdown].
    replace (Z.of_nat (S (S k)) - 1)%Z with (Z.of_nat (S k)) by lia.
    destruct (Z.eqb_spec (Z.of_nat (S k)) 0) as [H0|_]; [lia|].
    rewrite IH by lia.
    replace (Z.of_nat (S (S k))) with (Z.of_nat (S k) + 1)%Z at 2 by lia.
    rewrite seqZ_app by lia. rewrite reverse_app.
    replace (1 + Z.of_nat (S k))%Z with (Z.of_nat (S (S k))) by lia.
    reflexivity.
Qed.

(** X1. Called with a timeout [n >= 1], [timeoutNotify] ends after [n]
    rounds: it writes the message, then for [n], [n-1], ..., [1] the number,
    two dots and a space with a quarter of a second after each, and an empty
    line at the end; it sleeps [n] seconds in all. *)
Theorem timeoutNotify_counts_down message n fuel :
  (1 <= n)%Z ->
  Z.to_nat n <= fuel ->
  timeoutNotify_ticks message n fuel
  = Some (StdoutWrite (message +:+ " ")
            :: concat (countdown_round <$> reverse (seqZ 1 n))
            ++ [ConsoleLog ""])
  /\ (forall ticks,
        timeoutNotify_ticks message n fuel = Some ticks ->
        slept ticks = (1000 * Z.to_N n)%N).
Proof.
  intros Hn Hf.
  assert (Hk : n = Z.of_nat (S (pred (Z.to_nat n)))) by lia.
  assert (Heq : timeoutNotify_ticks message n fuel
    = Some (StdoutWrite (message +:+ " ")
              :: concat (countdown_round <$> reverse (seqZ 1 n))
              ++ [ConsoleLog ""])).
  { unfold timeoutNotify_ticks. rewrite Hk at 1.
    rewrite countdown_spec by lia. by rewrite <- Hk. }
  split; [exact Heq|].
  intros ticks. rewrite Heq. intros [= <-].
  cbn [slept]. rewrite slept_app, slept_rounds.
  rewrite length_reverse, length_seqZ. simpl. lia.
Qed.

Lemma timeoutNotify_counts_down_witness :
  timeoutNotify_ticks "Dismissing review 555 in" 2 2
  = Some ([StdoutWrite "Dismissing review 555 in "]
            ++ countdown_round 2 ++ countdown_round 1 ++ [ConsoleLog ""])
  /\ (forall ticks,
        timeoutNotify_ticks "Dismissing review 555 in" 2 2 = Some ticks ->
        slept ticks = 2000%N).
Proof.
  apply (timeoutNotify_counts_down "Dismissing review 555 in" 2 2); [lia|].
  vm_compute. lia.
Defined.

(** X2. Called with a timeout of zero or less, [timeoutNotify] never
    ends: the first [--timeout] already steps below zero. *)
Theorem timeoutNotify_hangs_without_positive_timeout message n fuel :
  (n <= 0)%Z ->
  timeoutNotify_ticks message n fuel = None.
Proof.
  intros Hn. unfold timeoutNotify_ticks.
  assert (H : countdown fuel n = None); [|by rewrite H].
  revert n Hn. induction fuel as [|fuel IH]; intros n Hn; [done|].
  cbn [countdown]. destruct (Z.eqb_spec (n - 1) 0) as [H0|_]; [lia|].
  rewrite IH by lia. done.
Qed.

Lemma timeoutNotify_hangs_witness :
  timeoutNotify_ticks "Dismissing review 555 in" 0 1000 = None.
Proof.
  apply (timeoutNotify_hangs_without_positive_timeout
           "Dismissing review 555 in" 0 1000). lia.
Defined.

(** *** Failures before the replay *)

Lemma requested_pick userId datas rest reviewId r :
  pick reviewId (pending_of userId datas) = inr r ->
  requested userId (map inr datas ++ rest) reviewId
  = map inr datas ++ requested userId rest r.
Proof.
  unfold pending_of. revert reviewId.
  induction datas as [|data datas IH]; intros reviewId; simpl.
  - destruct reviewId; by intros [= ->].
  - rewrite List.filter_app, pick_app, scan_page_pick.
    destruct (pick reviewId _) as [e'|r']; [done|].
    intros H. by rewrite (IH _ H).
Qed.

Lemma pick_at_most_one ms :
  length ms <= 1 -> exists r, pick None ms = inr r.
Proof. destruct ms as [|x [|y ms]]; simpl; eauto; lia. Qed.

(** X3. When the identity lookup fails, the run ends there with "Failed
    to fetch user info" and the cause: the reviews are not listed, and no
    file and nothing on GitHub is touched. *)
Theorem identity_failure_stops_the_run stringify parse env opt files cause :
  getAuthenticated env = inl cause ->
  main stringify parse env opt (start files)
  = (inl (AppError "Failed to fetch user info" (Some cause)),
     {| fs := files; trace := [EvGetAuthenticated (inl cause)] |})
  /\ run stringify parse env opt (start files)
     = (1%Z, {| fs := files; trace := [EvGetAuthenticated (inl cause)] |}).
Proof.
  intros Hu.
  destruct (main_outcome stringify parse env opt files) as (res & w & Heq & Hout).
  unfold run. rewrite Heq.
  outcome_cases Hout; rewrite Hu in *; simplify_eq. done.
Qed.

Lemma identity_failure_witness :
  main Json.stringify Json.parse Incidents.bad_credentials opts (start ∅)
  = (inl (AppError "Failed to fetch user info"
            (Some (Failure "401 Bad credentials"))),
     {| fs := ∅;
        trace := [EvGetAuthenticated (inl (Failure "401 Bad credentials"))] |})
  /\ run Json.stringify Json.parse Incidents.bad_credentials opts (start ∅)
     = (1%Z, {| fs := ∅;
                trace := [EvGetAuthenticated (inl (Failure "401 Bad credentials"))] |}).
Proof.
  apply (identity_failure_stops_the_run
           Json.stringify Json.parse Incidents.bad_credentials opts ∅
           (Failure "401 Bad credentials")).
  reflexivity.
Defined.

(** X4. When a page of the listing cannot be fetched (and the pages before
    it show at most one match), the run fails with "Failed to fetch list of
    reviews for PR {pr}" and the cause; the pages after the failed one are
    not asked for, even if they hold the pending review, and nothing else
    happens. *)
Theorem listing_failure_stops_the_run
    stringify parse env opt files u datas cause rest :
  getAuthenticated env = inr u ->
  listReviews env = map inr datas ++ inl cause :: rest ->
  length (pending_of (user_id u) datas) <= 1 ->
  main stringify parse env opt (start files)
  = (inl (AppError
            ("Failed to fetch list of reviews for PR " +:+ pretty (pr opt))
            (Some cause)),
     {| fs := files;
        trace := EvGetAuthenticated (inr u)
                   :: map EvListReviews (map inr datas ++ [inl cause]) |}).
Proof.
  intros Hu Hpages Hone.
  destruct (pick_at_most_one _ Hone) as [r0 Hpick].
  assert (Hloc : locate (user_id u) (listReviews env) None = inl cause).
  { by rewrite Hpages, locate_pick, Hpick. }
  assert (Hreq : requested (user_id u) (listReviews env) None
                 = map inr datas ++ [inl cause]).
  { by rewrite Hpages, (requested_pick _ _ _ _ _ Hpick). }
  destruct (main_outcome stringify parse env opt files) as (res & w & Heq & Hout).
  rewrite Heq.
  outcome_cases Hout; same_run Hu Hloc.
  unfold listing. by rewrite Hreq.
Qed.

Lemma listing_failure_witness :
  main Json.stringify Json.parse Incidents.listing_breaks opts (start ∅)
  = (inl (AppError "Failed to fetch list of reviews for PR 1234"
            (Some (Failure "502 Bad Gateway"))),
     {| fs := ∅;
        trace := [EvGetAuthenticated (inr me);
                  EvListReviews (inr [approved]);
                  EvListReviews (inl (Failure "502 Bad Gateway"))] |}).
Proof.
  apply (listing_failure_stops_the_run
           Json.stringify Json.parse Incidents.listing_breaks opts ∅ me
           [[approved]] (Failure "502 Bad Gateway") [inr [review555]]).
  - reflexivity.
  - reflexivity.
  - vm_compute. lia.
Defined.

(** X5. When the comments of the pending review cannot be fetched, the
    run fails with "Failed to fetch a list of comments for the review {id}"
    and the cause, before any write: the review is left in place and no
    file is created. *)
Theorem fetch_failure_leaves_the_review
    stringify parse env opt files u datas x cause :
  getAuthenticated env = inr u ->
  listReviews env = map inr datas ->
  pending_of (user_id u) datas = [x] ->
  load opt = None ->
  getCommentsForReview env (review_id x) = inl cause ->
  main stringify parse env opt (start files)
  = (inl (AppError
            ("Failed to fetch a list of comments for the review "
               +:+ pretty (review_id x))
            (Some cause)),
     {| fs := files;
        trace := EvGetAuthenticated (inr u)
                   :: map EvListReviews (listReviews env)
                   ++ [EvGetCommentsForReview (review_id x) (inl cause)] |}).
Proof.
  intros Hu Hpages Hone Hload Hfetch.
  assert (Hloc : locate (user_id u) (listReviews env) None
                 = inr (Some (review_id x))).
  { by rewrite Hpages, locate_listing, Hone. }
  assert (Hreq : requested (user_id u) (listReviews env) None = listReviews env).
  { rewrite Hpages. eapply requested_all. by rewrite Hone. }
  destruct (main_outcome stringify parse env opt files) as (res & w & Heq & Hout).
  rewrite Heq.
  outcome_cases Hout; same_run Hu Hloc;
    inversion Hob; simplify_eq; destruct_or?; simplify_eq; try congruence.
  assert (e0 = cause) as -> by congruence.
  unfold listing. by rewrite Hreq.
Qed.

Lemma fetch_failure_witness :
  main Json.stringify Json.parse Incidents.comments_break opts (start ∅)
  = (inl (AppError "Failed to fetch a list of comments for the review 555"
            (Some (Failure "500 Internal Server Error"))),
     {| fs := ∅;
        trace := [EvGetAuthenticated (inr me);
                  EvListReviews (inr [approved]);
                  EvListReviews (inr [review555]);
                  EvGetCommentsForReview 555
                    (inl (Failure "500 Internal Server Error"))] |}).
Proof.
  apply (fetch_failure_leaves_the_review
           Json.stringify Json.parse Incidents.comments_break opts ∅ me
           [[approved]; [review555]] review555
           (Failure "500 Internal Server Error")); reflexivity.
Defined.

(** X6. When the deletion of the pending review fails, the run fails with
    "Failed to dismiss review {id}" and the cause, and no comment is posted;
    the snapshot written just before holds the fetched comments, so that
    nothing is lost. *)
Theorem dismissal_failure_posts_nothing
    stringify parse env opt files u datas x fetched cause :
  getAuthenticated env = inr u ->
  listReviews env = map inr datas ->
  pending_of (user_id u) datas = [x] ->
  load opt = None ->
  getCommentsForReview env (review_id x) = inr fetched ->
  (forall t file data, writeFile env t file data = None) ->
  deletePendingReview env (review_id x) = Some cause ->
  exists w,
    main stringify parse env opt (start files)
    = (inl (AppError ("Failed to dismiss review " +:+ pretty (review_id x))
              (Some cause)), w)
    /\ trace w
       = EvGetAuthenticated (inr u) :: map EvListReviews (listReviews env)
           ++ [EvGetCommentsForReview (review_id x) (inr fetched);
               EvWriteFile (save_file opt (Some (review_id x)))
                 (stringify fetched) None;
               EvTimeoutNotify (review_id x) 10;
               EvDeletePendingReview (review_id x) (Some cause)]
    /\ posts (trace w) = []
    /\ fs w = <[save_file opt (Some (review_id x)) := stringify fetched]> files.
Proof.
  intros Hu Hpages Hone Hload Hfetch Hwrite Hdel.
  assert (Hloc : locate (user_id u) (listReviews env) None
                 = inr (Some (review_id x))).
  { by rewrite Hpages, locate_listing, Hone. }
  assert (Hreq : requested (user_id u) (listReviews env) None = listReviews env).
  { rewrite Hpages. eapply requested_all. by rewrite Hone. }
  destruct (main_outcome stringify parse env opt files) as (res & w & Heq & Hout).
  rewrite Heq.
  outcome_cases Hout; same_run Hu Hloc;
    try (specialize (Hd _ eq_refl)); try congruence;
    inversion Hob; simplify_eq; destruct_or?; simplify_eq; try congruence.
  replace cs with fetched in * by congruence.
  eexists. split; [reflexivity|]. cbn [fs trace].
  unfold listing. rewrite Hreq. repeat split.
  apply posts_quiet. quiet.
Qed.

Lemma dismissal_failure_witness :
  exists w,
    main Json.stringify Json.parse Incidents.undeletable opts (start ∅)
    = (inl (AppError "Failed to dismiss review 555"
              (Some (Failure "422 Unprocessable Entity"))), w)
    /\ posts (trace w) = []
    /\ fs w = {[ snapshot := Json.stringify [c10; c11] ]}.
Proof.
  destruct (dismissal_failure_posts_nothing
              Json.stringify Json.parse Incidents.undeletable opts ∅ me
              [[approved]; [review555]] review555 [c10; c11]
              (Failure "422 Unprocessable Entity"))
    as (w & Hmain & _ & Hposts & Hfs); try reflexivity.
  exists w. repeat split; assumption.
Defined.

(** X7. When the file given to [--load] is missing or is not JSON, the
    run fails with "Failed to load comments from file '{file}'"; the cause
    is dropped, so [run] prints the usage help.  This comes before the
    dismantling: even if a review of the caller is pending, it is not
    deleted, and no file is written. *)
Theorem load_failure_deletes_nothing
    stringify parse env opt files u reviewId file :
  getAuthenticated env = inr u ->
  locate (user_id u) (listReviews env) None = inr reviewId ->
  load opt = Some file ->
  file <> "" ->
  (files !! file = None
   \/ exists data, files !! file = Some data /\ parse data = None) ->
  exists w,
    main stringify parse env opt (start files)
    = (inl (AppError ("Failed to load comments from file '" +:+ file +:+ "'")
              None), w)
    /\ report (AppError ("Failed to load comments from file '" +:+ file +:+ "'")
                 None)
       = [ErrorLine ("Failed to load comments from file '" +:+ file +:+ "'"); Help]
    /\ trace w = listing env u ++ [EvReadFile file (files !! file)]
    /\ fs w = files.
Proof.
  intros Hu Hloc Hload Hne Hbad.
  destruct (main_outcome stringify parse env opt files) as (res & w & Heq & Hout).
  rewrite Heq.
  assert (Hobt : forall res' files' evs,
    obtained stringify parse env opt reviewId files (listing env u) res' files' evs ->
    res' = inl (AppError ("Failed to load comments from file '" +:+ file +:+ "'")
                  None)
    /\ files' = files /\ evs = [EvReadFile file (files !! file)]).
  { intros res' files' evs Hob.
    inversion Hob; simplify_eq; destruct_or?;
      try (destruct Hbad as (data' & Hbad & Hp)); simplify_eq;
      try congruence;
      try (destruct Hne; by eapply truthy_false_Some);
      repeat split; congruence. }
  outcome_cases Hout; same_run Hu Hloc;
    destruct (Hobt _ _ _ Hob) as (Hres & -> & ->); simplify_eq.
  eexists. repeat split.
Qed.

Lemma load_failure_witness :
  exists w,
    main Json.stringify Json.parse github opts_load (start Incidents.bad_disk)
    = (inl (AppError "Failed to load comments from file 'org_repo_1234_555.json'"
              None), w)
    /\ trace w = [EvGetAuthenticated (inr me);
                  EvListReviews (inr [approved]);
                  EvListReviews (inr [review555]);
                  EvReadFile snapshot (Some "not json")]
    /\ fs w = Incidents.bad_disk.
Proof.
  destruct (load_failure_deletes_nothing
              Json.stringify Json.parse github opts_load Incidents.bad_disk me
              (Some 555%positive) snapshot)
    as (w & Hmain & _ & Htrace & Hfs).
  - reflexivity.
  - vm_compute. reflexivity.
  - reflexivity.
  - discriminate.
  - right. exists "not json". split; vm_compute; reflexivity.
  - exists w. repeat split; assumption.
Defined.

(** X8. An empty [--load] value counts as given where the fetch is
    decided and as absent where the file is read: the comments are neither
    fetched nor loaded, and the run fails with "No pending review for PR
    {pr} and no --load option specified", also when a review of the caller
    is pending.  Nothing is deleted and no file is written. *)
Theorem empty_load_value_stops_the_run
    stringify parse env opt files u reviewId :
  getAuthenticated env = inr u ->
  locate (user_id u) (listReviews env) None = inr reviewId ->
  load opt = Some "" ->
  main stringify parse env opt (start files)
  = (inl (AppError
            ("No pending review for PR " +:+ pretty (pr opt)
               +:+ " and no --load option specified") None),
     {| fs := files; trace := listing env u |}).
Proof.
  intros Hu Hloc Hload.
  destruct (main_outcome stringify parse env opt files) as (res & w & Heq & Hout).
  rewrite Heq.
  assert (Hobt : forall res' files' evs,
    obtained stringify parse env opt reviewId files (listing env u) res' files' evs ->
    res' = inl (AppError
            ("No pending review for PR " +:+ pretty (pr opt)
               +:+ " and no --load option specified") None)
    /\ files' = files /\ evs = []).
  { intros res' files' evs Hob.
    inversion Hob; simplify_eq; destruct_or?; simplify_eq; done. }
  outcome_cases Hout; same_run Hu Hloc;
    destruct (Hobt _ _ _ Hob) as (Hres & -> & ->); simplify_eq.
  by rewrite app_nil_r.
Qed.

Lemma empty_load_value_witness :
  main Json.stringify Json.parse github Incidents.opts_load_empty (start ∅)
  = (inl (AppError
            "No pending review for PR 1234 and no --load option specified" None),
     {| fs := ∅;
        trace := [EvGetAuthenticated (inr me);
                  EvListReviews (inr [approved]);
                  EvListReviews (inr [review555])] |}).
Proof.
  apply (empty_load_value_stops_the_run
           Json.stringify Json.parse github Incidents.opts_load_empty ∅ me
           (Some 555%positive)).
  - reflexivity.
  - vm_compute. reflexivity.
  - reflexivity.
Defined.

(** *** The dismantling *)

Lemma scan_page_found userId data reviewId r :
  scan_page userId data reviewId = inr (Some r) ->
  reviewId = Some r
  \/ exists review,
       In review data /\ is_pending_of userId review = true
       /\ review_id review = r.
Proof.
  revert reviewId. induction data as [|review data IH]; intros reviewId;
    cbn [scan_page].
  - intros [= ->]. by left.
  - destruct (is_pending_of userId review) eqn:Hm.
    + destruct reviewId as [r0|]; [done|].
      intros H. apply IH in H as [[= <-]|(review' & Hin & Hp & Hid)].
      * right. exists review. repeat split; [by left|done].
      * right. exists review'. repeat split; [by right|done|done].
    + intros H. apply IH in H as [->|(review' & Hin & Hp & Hid)]; [by left|].
      right. exists review'. repeat split; [by right|done|done].
Qed.

Lemma locate_found userId pages reviewId r :
  locate userId pages reviewId = inr (Some r) ->
  reviewId = Some r
  \/ exists page review,
       In (inr page) pages /\ In review page
       /\ is_pending_of userId review = true /\ review_id review = r.
Proof.
  revert reviewId. induction pages as [|[e|data] pages IH]; intros reviewId;
    cbn [locate].
  - intros [= ->]. by left.
  - done.
  - destruct (scan_page userId data reviewId) as [e|r0] eqn:Hs; [done|].
    intros H. apply IH in H as [->|(page & review & Hin & Hr & Hp & Hid)].
    + apply scan_page_found in Hs as [->|(review & Hin & Hp & Hid)]; [by left|].
      right. exists data, review. repeat split; [by left|done..].
    + right. exists page, review. repeat split; [by right|done..].
Qed.

Lemma is_pending_of_spec userId review :
  is_pending_of userId review = true <->
  review_user_id review = userId /\ review_state review = "PENDING".
Proof.
  unfold is_pending_of. rewrite andb_true_iff, Pos.eqb_eq, String.eqb_eq. done.
Qed.

Lemma in_dismissal reviewId target answer :
  In (EvDeletePendingReview target answer) (dismissal reviewId) ->
  reviewId = Some target /\ answer = None.
Proof.
  destruct reviewId as [r0|]; simpl; [|done].
  intros [H|[H|[]]]; [discriminate|]. by injection H as <- <-.
Qed.

(** X9. A run only ever asks for the deletion of a review that the listing
    showed as a PENDING review of the authenticated user. *)
Theorem only_a_pending_review_of_the_caller_is_deleted
    stringify parse env opt files res w target answer :
  main stringify parse env opt (start files) = (res, w) ->
  In (EvDeletePendingReview target answer) (trace w) ->
  exists u page review,
    getAuthenticated env = inr u
    /\ In (inr page) (listReviews env)
    /\ In review page
    /\ review_id review = target
    /\ review_user_id review = user_id u
    /\ review_state review = "PENDING".
Proof.
  intros Hmain Hin. apply main_inv in Hmain.
  assert (Hfound : forall u r0,
    getAuthenticated env = inr u ->
    locate (user_id u) (listReviews env) None = inr (Some r0) ->
    exists u page review,
      getAuthenticated env = inr u
      /\ In (inr page) (listReviews env)
      /\ In review page
      /\ review_id review = r0
      /\ review_user_id review = user_id u
      /\ review_state review = "PENDING").
  { intros u r0 Hu Hloc.
    apply locate_found in Hloc as [|(page & review & Hp & Hr & Hm & Hid)]; [done|].
    apply is_pending_of_spec in Hm as [Hm1 Hm2].
    exists u, page, review. done. }
  outcome_cases Hmain; cbn [trace] in Hin;
    rewrite ?in_app_iff in Hin; destruct_or?;
    try (exfalso; eapply (not_in_quiet is_delete);
         [|exact Hin|done]; solve [unfold listing; quiet]).
  - simpl in Hin. destruct Hin as [Hin|[Hin|[]]]; [discriminate|].
    injection Hin as <- <-. eauto.
  - apply in_dismissal in Hin as [-> ->]. eauto.
  - apply in_dismissal in Hin as [-> ->]. eauto.
  - apply in_dismissal in Hin as [-> ->]. eauto.
Qed.

Lemma only_a_pending_review_witness :
  exists u page review,
    getAuthenticated github = inr u
    /\ In (inr page) (listReviews github)
    /\ In review page
    /\ review_id review = 555%positive
    /\ review_user_id review = user_id u
    /\ review_state review = "PENDING".
Proof.
  apply (only_a_pending_review_of_the_caller_is_deleted
           Json.stringify Json.parse github opts ∅
           (fst first_run) (snd first_run) 555%positive None).
  - vm_compute. reflexivity.
  - vm_compute. auto 10.
Defined.

(** X10. A run asks for a deletion once at most, and the request comes
    right after the ten-second countdown for the same review. *)
Theorem one_deletion_right_after_the_countdown
    stringify parse env opt files res w pre target answer post :
  main stringify parse env opt (start files) = (res, w) ->
  trace w = pre ++ EvDeletePendingReview target answer :: post ->
  (exists pre', pre = pre' ++ [EvTimeoutNotify target 10])
  /\ Forall (fun ev => is_delete ev = false) pre
  /\ Forall (fun ev => is_delete ev = false) post.
Proof.
  intros Hmain Heq. apply main_inv in Hmain.
  outcome_cases Hmain; cbn [trace] in Heq;
    try (exfalso; eapply (no_such_event is_delete);
         [exact Heq|solve [unfold listing; quiet]|done]).
  - rewrite app_assoc in Heq. cbn [app] in Heq. shift Heq.
    apply (split_at_unique is_delete) in Heq as (-> & Hev & ->);
      [| solve [unfold listing; quiet] | quiet | done].
    simplify_eq. split; [by eexists|]. split; [unfold listing; quiet|quiet].
  - destruct rid as [r0|]; cbn [dismissal] in *;
      [|exfalso; eapply (no_such_event is_delete);
        [exact Heq|solve [unfold listing; quiet]|done]].
    rewrite app_assoc in Heq. cbn [app] in Heq. shift Heq.
    apply (split_at_unique is_delete) in Heq as (-> & Hev & ->);
      [| solve [unfold listing; quiet] | quiet | done].
    simplify_eq. split; [by eexists|]. split; [unfold listing; quiet|quiet].
  - destruct rid as [r0|]; cbn [dismissal] in *;
      [|exfalso; eapply (no_such_event is_delete);
        [exact Heq|solve [unfold listing; quiet]|done]].
    rewrite app_assoc in Heq. cbn [app] in Heq. shift Heq.
    apply (split_at_unique is_delete) in Heq as (-> & Hev & ->);
      [| solve [unfold listing; quiet] | quiet | done].
    simplify_eq. split; [by eexists|]. split; [unfold listing; quiet|quiet].
  - destruct rid as [r0|]; cbn [dismissal] in *;
      [|exfalso; eapply (no_such_event is_delete);
        [exact Heq|solve [unfold listing; quiet]|done]].
    rewrite app_assoc in Heq. cbn [app] in Heq. shift Heq.
    apply (split_at_unique is_delete) in Heq as (-> & Hev & ->);
      [| solve [unfold listing; quiet] | quiet | done].
    simplify_eq. split; [by eexists|]. split; [unfold listing; quiet|quiet].
Qed.

Lemma one_deletion_witness :
  (exists pre',
     [EvGetAuthenticated (inr me);
      EvListReviews (inr [approved]);
      EvListReviews (inr [review555]);
      EvGetCommentsForReview 555 (inr [c10; c11]);
      EvWriteFile snapshot (Json.stringify [c10; c11]) None;
      EvTimeoutNotify 555 10]
     = pre' ++ [EvTimeoutNotify 555 10])
  /\ Forall (fun ev => is_delete ev = false)
       [EvGetAuthenticated (inr me);
        EvListReviews (inr [approved]);
        EvListReviews (inr [review555]);
        EvGetCommentsForReview 555 (inr [c10; c11]);
        EvWriteFile snapshot (Json.stringify [c10; c11]) None;
        EvTimeoutNotify 555 10]
  /\ Forall (fun ev => is_delete ev = false)
       [EvCreateComment (request_of c10) (inr 1007%positive);
        EvCreateComment (request_of c11) (inr 1008%positive);
        EvWriteFile snapshot
          (Json.stringify [set_new_id c10 1007; set_new_id c11 1008]) None].
Proof.
  apply (one_deletion_right_after_the_countdown
           Json.stringify Json.parse github opts ∅
           (fst first_run) (snd first_run) _ 555%positive None).
  - vm_compute. reflexivity.
  - vm_compute. reflexivity.
Defined.

(** X11. No comment is posted while the review found by the listing is
    still in place: every create-comment request comes after the successful
    deletion of that review.  A failed deletion is the last event of its
    run, which fails with "Failed to dismiss review {id}" and the cause:
    nothing is posted, written or requested after it. *)
Theorem comments_are_posted_after_the_dismantling
    stringify parse env opt files res w :
  main stringify parse env opt (start files) = (res, w) ->
  (forall pre req a post u r,
     trace w = pre ++ EvCreateComment req a :: post ->
     getAuthenticated env = inr u ->
     locate (user_id u) (listReviews env) None = inr (Some r) ->
     In (EvDeletePendingReview r None) pre)
  /\ (forall pre r e post,
        trace w = pre ++ EvDeletePendingReview r (Some e) :: post ->
        post = []
        /\ res = inl (AppError ("Failed to dismiss review " +:+ pretty r) (Some e))).
Proof.
  intros Hmain. apply main_inv in Hmain.
  assert (Hdeleted : forall u' rid evs ps tail pre req a post u r,
    Forall (fun ev => is_create ev = false) evs ->
    Forall (fun ev => is_create ev = true) ps ->
    Forall (fun ev => is_create ev = false) tail ->
    getAuthenticated env = inr u' ->
    locate (user_id u') (listReviews env) None = inr rid ->
    listing env u' ++ evs ++ dismissal rid ++ ps ++ tail
    = pre ++ EvCreateComment req a :: post ->
    getAuthenticated env = inr u ->
    locate (user_id u) (listReviews env) None = inr (Some r) ->
    In (EvDeletePendingReview r None) pre).
  { intros u' rid evs ps tail pre req a post u r Hq Hps Htail Hu' Hl Heq Hu Hloc.
    same_run Hu Hloc.
    rewrite !app_assoc in Heq. rewrite <- (app_assoc _ ps) in Heq.
    apply (split_in_middle is_create) in Heq as (m1 & m2 & -> & -> & ->);
      [| repeat (apply Forall_app; split);
         solve [unfold listing; quiet | assumption]
       | done | done].
    rewrite !in_app_iff. simpl. auto 10. }
  assert (Hgood : forall tr pre r e post,
    Forall (fun ev => is_failed_delete ev = false) tr ->
    tr = pre ++ EvDeletePendingReview r (Some e) :: post -> False).
  { intros tr pre r e post Hq Heq.
    by eapply (no_such_event is_failed_delete). }
  outcome_cases Hmain; cbn [trace] in *;
    (split; [intros pre req a post u0 r0 Heq Hu Hloc
            |intros pre r0 e0 post Heq]);
    try (exfalso; eapply (no_such_event is_create);
         [exact Heq|solve [unfold listing; quiet]|done]);
    try (exfalso; eapply Hgood; [|exact Heq];
         repeat (apply Forall_app; split);
         solve [unfold listing; quiet | destruct rid; repeat constructor]).
  - (* the deletion failed *)
    rewrite app_assoc in Heq. cbn [app] in Heq. shift Heq.
    apply (split_at_unique is_failed_delete) in Heq as (-> & Hev & ->);
      [| solve [unfold listing; quiet] | quiet | done].
    by simplify_eq.
  - eapply (Hdeleted u' rid evs ps [_]); eauto using replayed_creates; quiet.
  - eapply (Hdeleted u' rid evs ps [_]); eauto using replayed_creates; quiet.
  - eapply (Hdeleted u' rid evs ps []); eauto using replayed_creates;
      quiet; by rewrite app_nil_r.
Qed.

Lemma comments_are_posted_after_witness :
  In (EvDeletePendingReview 555 None)
    [EvGetAuthenticated (inr me);
     EvListReviews (inr [approved]);
     EvListReviews (inr [review555]);
     EvGetCommentsForReview 555 (inr [c10; c11]);
     EvWriteFile snapshot (Json.stringify [c10; c11]) None;
     EvTimeoutNotify 555 10;
     EvDeletePendingReview 555 None].
Proof.
  refine (proj1 (comments_are_posted_after_the_dismantling
                   Json.stringify Json.parse github opts ∅
                   (fst first_run) (snd first_run) _)
            _ (request_of c10) (inr 1007%positive)
            [EvCreateComment (request_of c11) (inr 1008%positive);
             EvWriteFile snapshot
               (Json.stringify [set_new_id c10 1007; set_new_id c11 1008])
               None] me 555%positive _ eq_refl _).
  - vm_compute. reflexivity.
  - vm_compute. reflexivity.
  - vm_compute. reflexivity.
Defined.

(** *** The result of the replay *)

Lemma creates_zip evs :
  Forall (fun ev => is_create ev = true) evs ->
  evs = zip_with EvCreateComment (posts evs) (responses evs).
Proof.
  induction 1 as [|[] evs Hev _ IH]; simpl; try done. by rewrite <- IH.
Qed.

Lemma replayed_answers env t cs cs' evs k req a :
  replayed env t cs cs' evs ->
  evs !! k = Some (EvCreateComment req a) ->
  a = createComment env (t ++ take k evs) req.
Proof.
  intros Hrep. revert k.
  induction Hrep as [|t c n cs cs' evs Hn _ IH|t c n cs cs' evs Hn Hc _ IH
                    |t c e cs cs' evs Hn Hc _ IH]; intros k Hk.
  - done.
  - by apply IH.
  - destruct k as [|k]; simpl in Hk.
    + injection Hk as <- <-. by rewrite app_nil_r.
    + rewrite (IH _ Hk). simpl. by rewrite <- app_assoc.
  - destruct k as [|k]; simpl in Hk.
    + injection Hk as <- <-. by rewrite app_nil_r.
    + rewrite (IH _ Hk). simpl. by rewrite <- app_assoc.
Qed.

(** X12. The replay loop goes through the elements in order up to the
    first one that is no comment.  It makes one request for each comment
    without [new_id] on its way, with the fields of that comment, and none
    for the others; each request is answered by GitHub after the ones
    before it.  On a list of comments the loop does not throw, whatever the
    answers are, and returns the list in which each of these comments has
    the id returned for it, or is unchanged where its request failed.  At
    an element that is no comment it throws a [TypeError], after the
    requests for the comments before it. *)
Theorem replay_records_the_returned_ids env items w :
  exists comments' evs,
    replay env items w
    = ((if whole (Items items) then inr comments' else inl (Failure "TypeError")),
       {| fs := fs w; trace := trace w ++ evs |})
    /\ evs = zip_with EvCreateComment
               (map request_of (unposted (leading items))) (responses evs)
    /\ length (responses evs) = length (unposted (leading items))
    /\ (forall k req a,
          evs !! k = Some (EvCreateComment req a) ->
          a = createComment env (trace w ++ take k evs) req)
    /\ comments' = fill (leading items) (responses evs).
Proof.
  destruct w as [f t].
  destruct (replay_spec env items f t) as (comments' & evs & Heq & Hrep).
  exists comments', evs. split; [done|].
  destruct (replayed_fill _ _ _ _ _ Hrep) as [Hfill Hlen].
  split; [|split; [done|split; [|done]]].
  - rewrite <- (replayed_posts _ _ _ _ _ Hrep).
    apply creates_zip. by eapply replayed_creates.
  - intros k req a Hk. by eapply replayed_answers.
Qed.

(** *** Reports and exit status *)

(** X13. A failure of [main] (from the identity lookup on) is an
    [AppError], with one exception.  [run] prints "Error:" and the message
    of an [AppError]; the usage help follows only for a failure that came
    before anything was fetched, written, deleted or posted (a file that
    cannot be read or is not JSON, nothing to replay), and every other
    [AppError] is printed with its cause.  The exception is the [TypeError]
    of a run with [--load] whose file holds JSON that is no list of
    comments: it is not caught, and it comes late, after the review that the
    listing found has been deleted and the comments that come before the
    odd element have been posted; nothing is written. *)
Theorem failures_are_reported_with_their_cause
    stringify parse env opt files failure w :
  main stringify parse env opt (start files) = (inl failure, w) ->
  (exists m,
     report failure = [ErrorLine m; Help]
     /\ fs w = files
     /\ Forall (fun ev => is_mutation ev = false /\ is_write ev = false
                          /\ is_fetch ev = false) (trace w))
  \/ (exists m cause, report failure = [ErrorLine m; Cause cause])
  \/ (failure = Failure "TypeError"
      /\ report failure = [Uncaught failure]
      /\ fs w = files
      /\ Forall (fun ev => is_write ev = false) (trace w)
      /\ exists file data v,
           load opt = Some file /\ files !! file = Some data
           /\ parse data = Some v /\ whole v = false
           /\ posts (trace w) = map request_of (unposted (comments_in v))
           /\ (forall u r,
                 getAuthenticated env = inr u ->
                 locate (user_id u) (listReviews env) None = inr (Some r) ->
                 In (EvDeletePendingReview r None) (trace w))).
Proof.
  intros Hmain. apply main_inv in Hmain.
  outcome_cases Hmain; try (right; left; do 2 eexists; reflexivity).
  - inversion Hob; subst; try (right; left; do 2 eexists; reflexivity);
      left; eexists; (split; [reflexivity|]); (split; [reflexivity|]);
      cbn [trace]; apply Forall_app; (split; [|repeat constructor]);
      constructor; try done; by apply Forall_map_EvListReviews.
  - right; right. inversion Hob; subst; loaded.
    cbn [fs trace]. repeat split; try done; [unfold listing; quiet|].
    exists file, data, v. repeat split; try done.
    + destruct (posts_of_run env u' [EvReadFile file (Some data)] (dismissal rid)
                  ps []) as [Hp _]; [quiet|quiet|quiet|].
      rewrite app_nil_r in Hp. rewrite Hp. by eapply replayed_posts.
    + intros u0 r0 Hu Hloc. same_run Hu Hloc.
      rewrite !in_app_iff. simpl. auto 10.
Qed.

Lemma failures_are_reported_witness :
  (exists m,
     report (Failure "TypeError") = [ErrorLine m; Help]
     /\ fs (snd (main Json.stringify Json.parse github opts_load
                   (start Incidents.null_disk))) = Incidents.null_disk
     /\ Forall (fun ev => is_mutation ev = false /\ is_write ev = false
                          /\ is_fetch ev = false)
          (trace (snd (main Json.stringify Json.parse github opts_load
                         (start Incidents.null_disk)))))
  \/ (exists m cause, report (Failure "TypeError") = [ErrorLine m; Cause cause])
  \/ (Failure "TypeError" = Failure "TypeError"
      /\ report (Failure "TypeError") = [Uncaught (Failure "TypeError")]
      /\ fs (snd (main Json.stringify Json.parse github opts_load
                    (start Incidents.null_disk))) = Incidents.null_disk
      /\ Forall (fun ev => is_write ev = false)
           (trace (snd (main Json.stringify Json.parse github opts_load
                          (start Incidents.null_disk))))
      /\ exists file data v,
           load opts_load = Some file
           /\ Incidents.null_disk !! file = Some data
           /\ Json.parse data = Some v /\ whole v = false
           /\ posts (trace (snd (main Json.stringify Json.parse github opts_load
                                   (start Incidents.null_disk))))
              = map request_of (unposted (comments_in v))
           /\ (forall u r,
                 getAuthenticated github = inr u ->
                 locate (user_id u) (listReviews github) None = inr (Some r) ->
                 In (EvDeletePendingReview r None)
                   (trace (snd (main Json.stringify Json.parse github opts_load
                                  (start Incidents.null_disk)))))).
Proof.
  apply (failures_are_reported_with_their_cause
           Json.stringify Json.parse github opts_load Incidents.null_disk).
  vm_compute. reflexivity.
Defined.

(** X21. The value that [JSON.parse] returns for the file given to
    [--load] is not looked at before the replay.  When it is no list of
    comments, the run still deletes the review that the listing found, posts
    the comments that come before the first element that is none, and only
    then fails, with a [TypeError] that [run] prints as it is: exit status
    1, no file written. *)
Theorem loaded_value_is_checked_too_late
    stringify parse env opt files u reviewId file data value :
  getAuthenticated env = inr u ->
  locate (user_id u) (listReviews env) None = inr reviewId ->
  load opt = Some file ->
  file <> "" ->
  files !! file = Some data ->
  parse data = Some value ->
  whole value = false ->
  (forall r, reviewId = Some r -> deletePendingReview env r = None) ->
  exists w attempts,
    main stringify parse env opt (start files) = (inl (Failure "TypeError"), w)
    /\ run stringify parse env opt (start files) = (1%Z, w)
    /\ report (Failure "TypeError") = [Uncaught (Failure "TypeError")]
    /\ trace w = listing env u ++ [EvReadFile file (Some data)]
                   ++ dismissal reviewId ++ attempts
    /\ Forall (fun ev => is_create ev = true) attempts
    /\ posts attempts = map request_of (unposted (comments_in value))
    /\ fs w = files.
Proof.
  intros Hu Hloc Hload Hne Hfile Hparse Hodd Hdel.
  destruct (main_outcome stringify parse env opt files) as (res & w & Heq & Hout).
  assert (Hsame : forall res' files' evs,
    obtained stringify parse env opt reviewId files (listing env u) res' files' evs ->
    res' = inr value /\ files' = files /\ evs = [EvReadFile file (Some data)]).
  { intros res' files' evs Hob.
    inversion Hob; simplify_eq; try done.
    destruct Hne. by eapply truthy_false_Some. }
  exists w. unfold run. rewrite Heq.
  outcome_cases Hout; same_run Hu Hloc;
    destruct (Hsame _ _ _ Hob) as (Hres & -> & ->); simplify_eq; loaded;
    try (rewrite (Hdel _ eq_refl) in *; discriminate);
    try (rewrite whole_well_formed in Hodd; discriminate).
  exists ps. cbn [fs trace]. repeat split.
  - by eapply replayed_creates.
  - by eapply replayed_posts.
Qed.

Lemma loaded_value_is_checked_too_late_witness :
  exists w attempts,
    main Json.stringify Incidents.parse_odd github opts_load
      (start Incidents.odd_disk) = (inl (Failure "TypeError"), w)
    /\ run Json.stringify Incidents.parse_odd github opts_load
         (start Incidents.odd_disk) = (1%Z, w)
    /\ report (Failure "TypeError") = [Uncaught (Failure "TypeError")]
    /\ trace w = listing github me
                   ++ [EvReadFile snapshot (Some Incidents.odd_text)]
                   ++ dismissal (Some 555%positive) ++ attempts
    /\ Forall (fun ev => is_create ev = true) attempts
    /\ posts attempts
       = map request_of (unposted (comments_in (Items [Some c10; None])))
    /\ fs w = Incidents.odd_disk.
Proof.
  apply (loaded_value_is_checked_too_late
           Json.stringify Incidents.parse_odd github opts_load Incidents.odd_disk
           me (Some 555%positive) snapshot Incidents.odd_text
           (Items [Some c10; None])).
  - reflexivity.
  - reflexivity.
  - reflexivity.
  - discriminate.
  - reflexivity.
  - vm_compute. reflexivity.
  - reflexivity.
  - reflexivity.
Defined.

(** The run on the file that holds the comment 10 and then [null]: review
    555 is deleted and the comment 10 is posted before the run fails. *)
Lemma odd_file_run :
  main Json.stringify Incidents.parse_odd github opts_load
    (start Incidents.odd_disk)
  = (inl (Failure "TypeError"),
     {| fs := Incidents.odd_disk;
        trace :=
          [EvGetAuthenticated (inr me);
           EvListReviews (inr [approved]);
           EvListReviews (inr [review555]);
           EvReadFile snapshot (Some Incidents.odd_text);
           EvTimeoutNotify 555 10;
           EvDeletePendingReview 555 None;
           EvCreateComment (request_of c10) (inr 1006%positive)] |}).
Proof. vm_compute. reflexivity. Qed.

Lemma completed_run stringify parse env opt files w :
  main stringify parse env opt (start files) = (inr tt, w) ->
  exists u reviewId original,
    getAuthenticated env = inr u
    /\ locate (user_id u) (listReviews env) None = inr reviewId
    /\ comments_from parse env opt files reviewId original
    /\ last (trace w)
       = Some (EvWriteFile (save_file opt reviewId)
                 (stringify (fill original (responses (trace w)))) None)
    /\ fs w !! save_file opt reviewId
       = Some (stringify (fill original (responses (trace w))))
    /\ failed_posts (trace w)
       = map request_of (unposted (fill original (responses (trace w)))).
Proof.
  intros Hmain. apply main_inv in Hmain.
  outcome_cases Hmain. cbn [fs trace].
  assert (Hq : Forall (fun ev => is_create ev = false) evs)
    by (by eapply obtained_quiet).
  destruct (posts_of_run env u' evs (dismissal rid) ps
              [EvWriteFile (save_file opt rid) (stringify cs') None])
    as [_ Hf]; [done|quiet|quiet|].
  assert (Hr : responses (listing env u' ++ evs ++ dismissal rid ++ ps
                 ++ [EvWriteFile (save_file opt rid) (stringify cs') None])
               = responses ps).
  { rewrite !responses_app.
    rewrite (responses_quiet (listing env u')) by (unfold listing; quiet).
    rewrite (responses_quiet evs) by done.
    rewrite (responses_quiet (dismissal rid)) by quiet.
    simpl. by rewrite app_nil_r. }
  destruct (replayed_fill _ _ _ _ _ Hrep) as [Hfill _].
  exists u', rid, cs. rewrite Hr, Hf, <- Hfill. repeat split; try done.
  - inversion Hob; subst; loaded.
    + left. eauto.
    + right. eauto 10.
  - by rewrite !app_assoc, last_snoc.
  - apply lookup_insert_eq.
  - by eapply replayed_failed_posts.
Qed.

(** X14. [run] ends with exit status 0 in two cases: [--version] was
    given, and nothing has been requested, read or written; or the workflow
    went through, the last thing it did was to write the snapshot with
    success, and the file holds the list that was fetched or loaded, with
    the ids returned in this run filled in: the comments without [new_id]
    in it are those whose request failed. *)
Theorem exit_status_zero_means_progress_is_saved
    toNumber stringify parse env options GITHUB_TOKEN files w :
  run_from_argv toNumber stringify parse env options GITHUB_TOKEN (start files)
  = (0%Z, w) ->
  (is_Some (options !! "version") /\ w = start files)
  \/ (options !! "version" = None
      /\ exists u reviewId original,
           getAuthenticated env = inr u
           /\ locate (user_id u) (listReviews env) None = inr reviewId
           /\ comments_from parse env (resolve toNumber options) files reviewId
                original
           /\ last (trace w)
              = Some (EvWriteFile (save_file (resolve toNumber options) reviewId)
                        (stringify (fill original (responses (trace w)))) None)
           /\ fs w !! save_file (resolve toNumber options) reviewId
              = Some (stringify (fill original (responses (trace w))))
           /\ failed_posts (trace w)
              = map request_of (unposted (fill original (responses (trace w))))).
Proof.
  unfold run_from_argv, main_from_argv.
  case_bool_decide as Hv.
  { intros [= <-]. by left. }
  intros Hrun. right. split; [by apply eq_None_not_Some|].
  apply completed_run.
  destruct (options !! "repo") as [repo_opt|]; [|done].
  destruct (options !! "pr") as [pr_opt|]; [|done].
  destruct (negb (has_slash repo_opt) || bool_decide (toNumber pr_opt = None));
    [done|].
  destruct (negb (truthy (if truthy (options !! "token") then options !! "token"
                          else GITHUB_TOKEN))); [done|].
  destruct (main _ _ _ _ _) as [[failure|[]] w'] eqn:Hmain; [done|].
  by injection Hrun as <-.
Qed.

Lemma exit_status_zero_witness :
  (is_Some (Incidents.argv !! "version") /\ snd flaky_run = start ∅)
  \/ (Incidents.argv !! "version" = None
      /\ exists u reviewId original,
           getAuthenticated github_flaky = inr u
           /\ locate (user_id u) (listReviews github_flaky) None = inr reviewId
           /\ comments_from Json.parse github_flaky
                (resolve Incidents.decimal Incidents.argv) ∅ reviewId original
           /\ last (trace (snd flaky_run))
              = Some (EvWriteFile
                        (save_file (resolve Incidents.decimal Incidents.argv)
                           reviewId)
                        (Json.stringify
                           (fill original (responses (trace (snd flaky_run)))))
                        None)
           /\ fs (snd flaky_run)
                !! save_file (resolve Incidents.decimal Incidents.argv) reviewId
              = Some (Json.stringify
                        (fill original (responses (trace (snd flaky_run)))))
           /\ failed_posts (trace (snd flaky_run))
              = map request_of
                  (unposted (fill original (responses (trace (snd flaky_run)))))).
Proof.
  apply (exit_status_zero_means_progress_is_saved
           Incidents.decimal Json.stringify Json.parse github_flaky Incidents.argv
           (Some "secret") ∅ (snd flaky_run)).
  vm_compute. reflexivity.
Defined.

(** *** Which file the snapshot goes to (lines 154-163) *)

Lemma run_files stringify parse env opt files res w :
  outcome stringify parse env opt files res w ->
  (exists u reviewId,
     getAuthenticated env = inr u
     /\ locate (user_id u) (listReviews env) None = inr reviewId
     /\ (forall f d r, In (EvWriteFile f d r) (trace w) -> f = save_file opt reviewId)
     /\ (forall f, f <> save_file opt reviewId -> fs w !! f = files !! f))
  \/ (fs w = files /\ Forall (fun ev => is_write ev = false) (trace w)).
Proof.
  intros Hout.
  assert (Hgen : forall u reviewId,
    getAuthenticated env = inr u ->
    locate (user_id u) (listReviews env) None = inr reviewId ->
    exists u reviewId,
     getAuthenticated env = inr u
     /\ locate (user_id u) (listReviews env) None = inr reviewId
     /\ (forall f d r, In (EvWriteFile f d r) (trace w) -> f = save_file opt reviewId)
     /\ (forall f, f <> save_file opt reviewId -> fs w !! f = files !! f)).
  { intros u reviewId Hu Hloc.
    destruct (outcome_writes _ _ _ _ _ _ _ _ _ Hout Hu Hloc) as [H1 H2].
    exists u, reviewId. done. }
  inversion Hout; subst; eauto.
  - right. split; [done|]. quiet.
  - right. split; [done|]. unfold listing; quiet.
Qed.

(** X15. With an explicit [--save] path, every write of the snapshot
    goes to that path, whatever review is found and whether or not
    [--load] is given, and no other file changes. *)
Theorem explicit_save_path_is_used
    stringify parse env opt files file res w :
  save opt = Some file ->
  file <> "" ->
  main stringify parse env opt (start files) = (res, w) ->
  (forall f data r, In (EvWriteFile f data r) (trace w) -> f = file)
  /\ (forall f, f <> file -> fs w !! f = files !! f)
  /\ (res = inr tt -> is_Some (fs w !! file)).
Proof.
  intros Hsave Hne Hmain. apply main_inv in Hmain.
  assert (Hfile : forall reviewId, save_file opt reviewId = file).
  { intros reviewId. unfold save_file. rewrite Hsave.
    apply truthy_Some in Hne. by rewrite Hne. }
  split; [|split].
  - destruct (run_files _ _ _ _ _ _ _ Hmain)
      as [(u & rid & _ & _ & Hw & _)|[_ Hq]].
    + intros f data r Hin. rewrite <- (Hfile rid). eauto.
    + intros f data r Hin. exfalso. by eapply (not_in_quiet is_write).
  - destruct (run_files _ _ _ _ _ _ _ Hmain)
      as [(u & rid & _ & _ & _ & Hf)|[-> _]]; [|done].
    intros f Hneq. apply Hf. by rewrite Hfile.
  - intros ->. outcome_cases Hmain. cbn [fs]. rewrite Hfile.
    rewrite lookup_insert_eq. by eexists.
Qed.

Lemma explicit_save_path_witness :
  (forall f data r,
     In (EvWriteFile f data r)
       (trace (snd (main Json.stringify Json.parse github Incidents.opts_save
                      (start ∅)))) ->
     f = "backup.json")
  /\ fs (snd (main Json.stringify Json.parse github Incidents.opts_save (start ∅)))
       !! snapshot = None.
Proof.
  destruct (explicit_save_path_is_used
              Json.stringify Json.parse github Incidents.opts_save ∅ "backup.json"
              (fst (main Json.stringify Json.parse github Incidents.opts_save
                      (start ∅)))
              (snd (main Json.stringify Json.parse github Incidents.opts_save
                      (start ∅))))
    as (Hw & Hf & _).
  - reflexivity.
  - discriminate.
  - vm_compute. reflexivity.
  - split; [exact Hw|]. rewrite Hf by discriminate. reflexivity.
Defined.

(** X16. With [--load], no [--save] and no pending review of the caller,
    the snapshot is written back to the loaded file: no other file changes,
    and when the run completes the loaded file holds its former comments
    with the ids returned in this run filled in. *)
Theorem loaded_file_is_updated_in_place
    stringify parse env opt files file u res w :
  load opt = Some file ->
  file <> "" ->
  truthy (save opt) = false ->
  getAuthenticated env = inr u ->
  locate (user_id u) (listReviews env) None = inr None ->
  main stringify parse env opt (start files) = (res, w) ->
  (forall f data r, In (EvWriteFile f data r) (trace w) -> f = file)
  /\ (forall f, f <> file -> fs w !! f = files !! f)
  /\ (res = inr tt ->
      exists data saved,
        files !! file = Some data /\ parse data = Some (well_formed saved)
        /\ fs w !! file = Some (stringify (fill saved (responses (trace w))))).
Proof.
  intros Hload Hne Hsave Hu Hloc Hmain.
  assert (Hfile : save_file opt None = file).
  { unfold save_file. rewrite Hsave, Hload.
    apply truthy_Some in Hne. by rewrite Hne. }
  split; [|split].
  - apply main_inv in Hmain.
    destruct (outcome_writes _ _ _ _ _ _ _ _ _ Hmain Hu Hloc) as [Hw _].
    by rewrite Hfile in Hw.
  - apply main_inv in Hmain.
    destruct (outcome_writes _ _ _ _ _ _ _ _ _ Hmain Hu Hloc) as [_ Hf].
    by rewrite Hfile in Hf.
  - intros ->.
    destruct (completed_run _ _ _ _ _ _ Hmain)
      as (u0 & rid & original & Hu0 & Hloc0 & Hsrc & _ & Hfs & _).
    assert (rid = None) as -> by congruence.
    rewrite Hfile in Hfs.
    destruct Hsrc as [(r0 & ? & ? & ?)|(file0 & data & Hl0 & _ & Hf0 & Hp0)];
      [done|].
    exists data, original. repeat split; congruence.
Qed.

Lemma loaded_file_is_updated_witness :
  exists data saved,
    fs (snd flaky_run) !! snapshot = Some data
    /\ Json.parse data = Some (well_formed saved)
    /\ fs (snd (main Json.stringify Json.parse github_after opts_load
                  (start (fs (snd flaky_run))))) !! snapshot
       = Some (Json.stringify
                 (fill saved
                    (responses
                       (trace (snd (main Json.stringify Json.parse github_after
                                      opts_load (start (fs (snd flaky_run))))))))).
Proof.
  refine (proj2 (proj2 (loaded_file_is_updated_in_place
            Json.stringify Json.parse github_after opts_load
            (fs (snd flaky_run)) snapshot me
            (fst (main Json.stringify Json.parse github_after opts_load
                    (start (fs (snd flaky_run)))))
            (snd (main Json.stringify Json.parse github_after opts_load
                    (start (fs (snd flaky_run)))))
            eq_refl _ eq_refl eq_refl _ _)) _).
  - discriminate.
  - vm_compute. reflexivity.
  - vm_compute. reflexivity.
  - vm_compute. reflexivity.
Defined.

(** X17. With [--load], no [--save] and a pending review of the caller,
    the snapshot goes to the file named after the review, not to the loaded
    file: unless the two names are the same, the loaded file is left as it
    was and so does not record the comments posted in this run. *)
Theorem loaded_file_is_not_updated_when_a_review_is_found
    stringify parse env opt files file u target res w :
  load opt = Some file ->
  truthy (save opt) = false ->
  getAuthenticated env = inr u ->
  locate (user_id u) (listReviews env) None = inr (Some target) ->
  file <> org opt +:+ "_" +:+ repo opt +:+ "_" +:+ pretty (pr opt) +:+ "_"
            +:+ pretty target +:+ ".json" ->
  main stringify parse env opt (start files) = (res, w) ->
  fs w !! file = files !! file
  /\ (forall f data r,
        In (EvWriteFile f data r) (trace w) ->
        f = org opt +:+ "_" +:+ repo opt +:+ "_" +:+ pretty (pr opt) +:+ "_"
              +:+ pretty target +:+ ".json").
Proof.
  intros Hload Hsave Hu Hloc Hne Hmain. apply main_inv in Hmain.
  destruct (outcome_writes _ _ _ _ _ _ _ _ _ Hmain Hu Hloc) as [Hw Hf].
  rewrite (save_file_derived _ _ Hsave) in Hw, Hf.
  split; [by apply Hf|exact Hw].
Qed.

Lemma loaded_file_is_not_updated_witness :
  fs (snd (main Json.stringify Json.parse github Incidents.opts_load_other
             (start Incidents.old_disk))) !! "old.json"
  = Some (Json.stringify [c10; c11])
  /\ (forall f data r,
        In (EvWriteFile f data r)
          (trace (snd (main Json.stringify Json.parse github
                         Incidents.opts_load_other (start Incidents.old_disk)))) ->
        f = "org_repo_1234_555.json").
Proof.
  apply (loaded_file_is_not_updated_when_a_review_is_found
           Json.stringify Json.parse github Incidents.opts_load_other
           Incidents.old_disk "old.json" me 555%positive
           (fst (main Json.stringify Json.parse github Incidents.opts_load_other
                   (start Incidents.old_disk)))).
  - reflexivity.
  - reflexivity.
  - reflexivity.
  - vm_compute. reflexivity.
  - vm_compute. discriminate.
  - vm_compute. reflexivity.
Defined.



(** The first snapshot does not survive the run of [disk_fills_up]: the
    file is left empty, although both comments were posted. *)
Lemma disk_fills_up_run :
  fs (snd (main Json.stringify Json.parse Incidents.disk_fills_up opts (start ∅)))
    !! snapshot = Some ""
  /\ posts (trace (snd (main Json.stringify Json.parse Incidents.disk_fills_up
                          opts (start ∅))))
     = [request_of c10; request_of c11].
Proof. split; vm_compute; reflexivity. Qed.

(** *** The command line (lines 66-94) *)

Lemma append_String c s t : String c s +:+ t = String c (s +:+ t).
Proof. reflexivity. Qed.

Lemma append_nil_r s : s +:+ "" = s.
Proof. induction s as [|c s IH]; [done|]. by rewrite append_String, IH. Qed.

Lemma split_slash_spec s :
  exists seg segs,
    split_slash s = seg :: segs
    /\ has_slash seg = false
    /\ (segs = [] -> s = seg)
    /\ (forall seg' segs', segs = seg' :: segs' ->
          exists s', s = seg +:+ String "/" s' /\ split_slash s' = segs).
Proof.
  induction s as [|c s (seg & segs & Hs & Hno & Hone & Hmore)]; simpl.
  - exists "", []. split; [done|]. split; [done|]. split; done.
  - destruct (Ascii.eqb c "/") eqn:Hc.
    + apply Ascii.eqb_eq in Hc as ->.
      rewrite Hs.
      exists "", (seg :: segs). split; [done|]. split; [done|]. split; [done|].
      intros seg' segs' _. by exists s.
    + rewrite Hs. exists (String c seg), segs.
      split; [done|]. split; [|split].
      * simpl. by rewrite Hc, Hno.
      * intros Hnil. by rewrite <- (Hone Hnil).
      * intros seg' segs' Hsegs.
        destruct (Hmore _ _ Hsegs) as (s' & -> & Hs').
        exists s'. by rewrite append_String.
Qed.

Lemma split_slash_two s :
  has_slash s = true ->
  exists first second rest,
    split_slash s = first :: second :: rest
    /\ has_slash first = false /\ has_slash second = false
    /\ exists tail,
         s = first +:+ "/" +:+ second +:+ tail
         /\ (tail = "" \/ exists tail', tail = String "/" tail').
Proof.
  intros Hslash.
  destruct (split_slash_spec s) as (seg & segs & Hs & Hno & Hone & Hmore).
  destruct segs as [|seg' segs'].
  { rewrite (Hone eq_refl) in Hslash. congruence. }
  destruct (Hmore _ _ eq_refl) as (s' & -> & Hs').
  destruct (split_slash_spec s') as (seg2 & segs2 & Hs2 & Hno2 & Hone2 & Hmore2).
  rewrite Hs2 in Hs'. injection Hs' as <- <-.
  exists seg, seg2, segs2. repeat split; try done.
  destruct segs2 as [|seg3 segs3].
  - exists "". rewrite (Hone2 eq_refl), append_nil_r. split; [done|by left].
  - destruct (Hmore2 _ _ eq_refl) as (s'' & -> & _).
    exists (String "/" s''). split; [done|eauto].
Qed.

(** X19. Nothing is requested and no file is touched unless the command
    line is complete: no [--version], a [--repo] value with a slash, a
    numeric [--pr] value and a non-empty token, taken from [--token] or,
    when that is absent or empty, from [GITHUB_TOKEN].  The run is then the
    workflow on the options resolved from the command line. *)
Theorem requests_need_a_complete_command_line
    toNumber stringify parse env options GITHUB_TOKEN files res w :
  main_from_argv toNumber stringify parse env options GITHUB_TOKEN (start files)
  = (res, w) ->
  w <> start files ->
  exists repo_opt pr_opt n token,
    options !! "version" = None
    /\ options !! "repo" = Some repo_opt /\ has_slash repo_opt = true
    /\ options !! "pr" = Some pr_opt /\ toNumber pr_opt = Some n
    /\ (if truthy (options !! "token") then options !! "token"
        else GITHUB_TOKEN) = Some token
    /\ token <> ""
    /\ pr (resolve toNumber options) = n
    /\ main stringify parse env (resolve toNumber options) (start files)
       = (res, w).
Proof.
  unfold main_from_argv. intros Hrun Hw.
  case_bool_decide as Hv.
  { injection Hrun as _ <-. done. }
  destruct (options !! "repo") as [repo_opt|] eqn:Hrepo;
    [|injection Hrun as _ <-; done].
  destruct (options !! "pr") as [pr_opt|] eqn:Hpr;
    [|injection Hrun as _ <-; done].
  destruct (has_slash repo_opt) eqn:Hslash;
    [|injection Hrun as _ <-; done].
  simpl in Hrun. case_bool_decide as Hn.
  { injection Hrun as _ <-. done. }
  destruct (toNumber pr_opt) as [n|] eqn:Hnum; [|done].
  destruct (truthy (if truthy (options !! "token") then options !! "token"
                    else GITHUB_TOKEN)) eqn:Htok;
    [|injection Hrun as _ <-; done].
  simpl in Hrun.
  destruct (if truthy (options !! "token") then options !! "token"
            else GITHUB_TOKEN) as [token|] eqn:Hsel; [|done].
  exists repo_opt, pr_opt, n, token. repeat split; try done.
  - by apply eq_None_not_Some.
  - intros ->. done.
  - unfold resolve. cbn [pr]. rewrite Hpr. cbn [value_of]. by rewrite Hnum.
Qed.

Lemma requests_need_a_complete_command_line_witness :
  exists repo_opt pr_opt n token,
    Incidents.argv !! "version" = None
    /\ Incidents.argv !! "repo" = Some repo_opt /\ has_slash repo_opt = true
    /\ Incidents.argv !! "pr" = Some pr_opt
    /\ Incidents.decimal pr_opt = Some n
    /\ (if truthy (Incidents.argv !! "token") then Incidents.argv !! "token"
        else Some "secret") = Some token
    /\ token <> ""
    /\ pr (resolve Incidents.decimal Incidents.argv) = n
    /\ main Json.stringify Json.parse github
         (resolve Incidents.decimal Incidents.argv) (start ∅)
       = first_run.
Proof.
  apply (requests_need_a_complete_command_line
           Incidents.decimal Json.stringify Json.parse github Incidents.argv
           (Some "secret") ∅ (fst first_run) (snd first_run)).
  - vm_compute. reflexivity.
  - vm_compute. discriminate.
Defined.

(** X20. A [--repo] value that passes the validation always yields both an
    organisation and a repository: the organisation is the text before the
    first slash, the repository the text between the first slash and the
    second one, or the end; neither holds a slash, either may be empty, and
    whatever follows a second slash is dropped. *)
Theorem repo_option_is_cut_at_the_first_two_slashes
    toNumber options repo_opt :
  options !! "repo" = Some repo_opt ->
  has_slash repo_opt = true ->
  split_slash repo_opt !! 0%nat = Some (org (resolve toNumber options))
  /\ split_slash repo_opt !! 1%nat = Some (repo (resolve toNumber options))
  /\ has_slash (org (resolve toNumber options)) = false
  /\ has_slash (repo (resolve toNumber options)) = false
  /\ exists tail,
       repo_opt = org (resolve toNumber options) +:+ "/"
                    +:+ repo (resolve toNumber options) +:+ tail
       /\ (tail = "" \/ exists tail', tail = String "/" tail').
Proof.
  intros Hrepo Hslash. unfold resolve. cbn [org repo]. rewrite Hrepo.
  cbn [value_of].
  destruct (split_slash_two _ Hslash)
    as (first & second & rest & -> & Hf & Hs & tail & Heq & Htail).
  simpl. eauto 10.
Qed.

Lemma repo_option_is_cut_witness :
  org (resolve Incidents.decimal Incidents.argv_nested) = "org"
  /\ repo (resolve Incidents.decimal Incidents.argv_nested) = "repo"
  /\ exists tail,
       "org/repo/pulls"
       = org (resolve Incidents.decimal Incidents.argv_nested) +:+ "/"
           +:+ repo (resolve Incidents.decimal Incidents.argv_nested) +:+ tail
       /\ (tail = "" \/ exists tail', tail = String "/" tail').
Proof.
  destruct (repo_option_is_cut_at_the_first_two_slashes
              Incidents.decimal Incidents.argv_nested "org/repo/pulls")
    as (_ & _ & _ & _ & Htail).
  - vm_compute. reflexivity.
  - vm_compute. reflexivity.
  - split; [vm_compute; reflexivity|]. split; [vm_compute; reflexivity|].
    exact Htail.
Defined.
